(** * mtls_mock: the mTLS gate and the certificate bootstrap

    A shallow embedding of the three server scripts of the repository
    (the Express server without generation, the Express server with
    certificate generation, and the plain-https copy) together with the
    small part of the Node.js runtime they call into: the file system,
    the console, [child_process.execSync], [https.createServer] and the
    events the runtime delivers to the registered callbacks.

    What belongs to the runtime and not to the repository is kept in the
    modules [Js], [Tls], [Node], [Openssl], [Https], [Http] and [Runtime];
    the scripts themselves are in [Part000], [Part001] and [Copy]. What
    the runtime cannot know in advance is an input: the files on disk, what
    the [openssl] child writes and how it ends, the defaults of the TLS
    library, whether the library accepts the key material, the verdict of
    the X.509 path validation of a presented certificate, and the events
    that arrive. How [openssl req] reads the subject it is given is in
    [Openssl]. *)

From stdpp Require Import base gmap strings list pretty.
From Stdlib Require Import ZArith Ascii.

Set Warnings "-register-all".

(** ** JavaScript control flow: values, exceptions, [process.exit] *)

Module Js.

(** Thrown values. [Error] is [new Error(message)]; [SystemError] is
    what [fs] throws (ENOENT, EACCES); [ExecError] is what [execSync]
    throws when the child exits with a non-zero status. *)
Inductive exn :=
| Error (message : string)
| SystemError (code : string) (path : string)
| ExecError (cmd : string) (status : Z).

(** How a piece of code ends: normally, by a [throw], or by
    [process.exit(code)], which no [catch] intercepts. *)
Inductive result (A : Type) :=
| Ok (a : A)
| Throw (e : exn)
| Halt (code : Z).
Arguments Ok {A} a.
Arguments Throw {A} e.
Arguments Halt {A} code.

(** The double quote character, used inside the shell command. *)
Definition dquote : Ascii.ascii := Ascii.ascii_of_nat 34.
Definition dq : string := String dquote EmptyString.

End Js.
Export Js.

(** ** TLS data: listener options, client hellos, sockets *)

Module Tls.

(** The options object handed to [https.createServer]. A field the
    script does not set is [None] (JavaScript [undefined]). *)
Record options := {
  key : string;
  cert : string;
  ca : string;
  requestCert : bool;
  rejectUnauthorized : bool;
  minVersion : option string;
  maxVersion : option string;
  ciphers : option string;
  handshakeTimeout : option Z;
  debug : option bool
}.

(** What the library uses for a field left unset: [tls.DEFAULT_MIN_VERSION],
    [tls.DEFAULT_MAX_VERSION], [tls.DEFAULT_CIPHERS], and the TLS 1.3
    suites, which the [ciphers] option of these scripts does not name. *)
Record defaults := {
  DEFAULT_MIN_VERSION : string;
  DEFAULT_MAX_VERSION : string;
  DEFAULT_CIPHERS : string;
  TLS13_SUITES : list string
}.

(** Protocol versions by their wire code. *)
Definition TLSv1 : Z := 769.
Definition TLSv1_1 : Z := 770.
Definition TLSv1_2 : Z := 771.
Definition TLSv1_3 : Z := 772.

Definition version_code (name : string) : option Z :=
  if String.eqb name "TLSv1" then Some TLSv1
  else if String.eqb name "TLSv1.1" then Some TLSv1_1
  else if String.eqb name "TLSv1.2" then Some TLSv1_2
  else if String.eqb name "TLSv1.3" then Some TLSv1_3
  else None.

Definition version_name (code : Z) : string :=
  if (code =? TLSv1)%Z then "TLSv1"
  else if (code =? TLSv1_1)%Z then "TLSv1.1"
  else if (code =? TLSv1_2)%Z then "TLSv1.2"
  else if (code =? TLSv1_3)%Z then "TLSv1.3"
  else "unknown".

(** The object [getPeerCertificate()] returns. Every field is absent in
    the empty object returned when the peer sent no certificate. *)
Record peer_certificate := {
  subject : option (list (string * string));
  issuer : option (list (string * string));
  valid_from : option string;
  valid_to : option string
}.

Definition empty_certificate : peer_certificate :=
  {| subject := None; issuer := None; valid_from := None; valid_to := None |}.

(** What a client presents. [chain_ok] is the verdict of the library's
    X.509 path validation of the certificate against the [ca] option
    (chain of trust up to the trust anchor, validity window). *)
Inductive presented :=
| NoCertificate
| Malformed
| Certificate (c : peer_certificate) (chain_ok : bool).

(** A connection attempt: the one protocol version the client
    negotiates, the suites it offers, and its certificate. *)
Record client_hello := {
  ch_version : Z;
  ch_ciphers : list string;
  ch_cert : presented
}.

(** A [TLSSocket] as the callbacks see it. *)
Record socket := {
  authorized : bool;
  peer : peer_certificate;
  protocol : option string;
  cipher : option string
}.

(** A request reaches its listener while its socket is live, where
    [getPeerCertificate()] returns an object (the empty one when the peer
    sent no certificate), never [null]. *)
Definition getPeerCertificate (s : socket) : peer_certificate := peer s.
Definition getProtocol (s : socket) : option string := protocol s.
Definition getCipher (s : socket) : option string := cipher s.

(** Why a handshake fails. *)
Inductive failure :=
| ProtocolMismatch
| CipherMismatch
| NoClientCertificate
| UntrustedChain
| MalformedCertificate.

Definition failure_error (f : failure) : exn :=
  match f with
  | ProtocolMismatch => Error "unsupported protocol"
  | CipherMismatch => Error "no shared cipher"
  | NoClientCertificate => Error "peer did not return a certificate"
  | UntrustedChain => Error "certificate verify failed"
  | MalformedCertificate => Error "bad certificate"
  end.

End Tls.

(** ** The part of the Node.js runtime the scripts use *)

Module Node.

(** A path names a regular file with its text, or something that exists
    but cannot be read as a file (a directory, a file without read
    permission). *)
Inductive node :=
| File (content : string)
| Unreadable.

(** Console output. The ISO timestamp that [debugLog] prepends is left
    out: it is the only part of a line that depends on the clock. *)
Inductive line :=
| Stdout (text : string)
| Stderr (text : string) (e : exn).

(** The mutable world of a starting process: the files, the console and
    the shell commands run so far ([w_execs], oldest first). *)
Record world := {
  w_fs : gmap string node;
  w_console : list line;
  w_execs : list string
}.

(** What the child process does when it is run: it writes a fresh key
    and certificate and ends with status 0; or it ends with a non-zero
    status, having written nothing ([Fails]) or having written the key
    already ([Aborts]). The last is what [openssl req] does when it
    refuses its subject: the [-keyout] file is written before the subject
    is read, and no certificate follows. *)
Inductive subprocess :=
| Succeeds (key_pem cert_pem : string)
| Fails (status : Z)
| Aborts (key_pem : string) (status : Z).

(** The read-only surroundings of a run: the directory of the script,
    the working directory of the process, the behaviour of the
    [openssl] binary, the defaults of the TLS library, and whether that
    library accepts the key material of an options object (its PEM
    payloads parse and fit together). *)
Record env := {
  __dirname : string;
  cwd : string;
  openssl : subprocess;
  tls : Tls.defaults;
  secure_context : Tls.options -> bool
}.

Definition M (A : Type) : Type := world -> result A * world.

#[global] Instance M_ret : MRet M := fun A a w => (Ok a, w).
#[global] Instance M_bind : MBind M := fun A B f m w =>
  match m w with
  | (Ok a, w') => f a w'
  | (Throw e, w') => (Throw e, w')
  | (Halt c, w') => (Halt c, w')
  end.

Definition throw {A} (e : exn) : M A := fun w => (Throw e, w).

(** [try { body } catch (error) { handler }] *)
Definition try_catch {A} (body : M A) (handler : exn -> M A) : M A :=
  fun w =>
    match body w with
    | (Throw e, w') => handler e w'
    | r => r
    end.

(** [process.exit(code)] *)
Definition process_exit {A} (code : Z) : M A := fun w => (Halt code, w).

Definition print (l : line) : M unit := fun w =>
  (Ok tt, {| w_fs := w_fs w; w_console := w_console w ++ [l]; w_execs := w_execs w |}).

Definition console_log (text : string) : M unit := print (Stdout text).
Definition console_error (text : string) (e : exn) : M unit := print (Stderr text e).

(** [path.resolve(base, name)] for a plain file name. *)
Definition path_resolve (base name : string) : string := base +:+ "/" +:+ name.

(** [fs.existsSync]: true for anything present at the path. *)
Definition existsSync (p : string) : M bool := fun w =>
  (Ok (bool_decide (is_Some (w_fs w !! p))), w).

(** [fs.readFileSync]: throws when the path is absent or unreadable. *)
Definition readFileSync (p : string) : M string := fun w =>
  match w_fs w !! p with
  | Some (File c) => (Ok c, w)
  | Some Unreadable => (Throw (SystemError "EACCES" p), w)
  | None => (Throw (SystemError "ENOENT" p), w)
  end.

(** Word splitting of the shell for the commands used here: blanks
    separate words, double quotes group. *)
Definition flush (cur : option string) : list string :=
  match cur with Some w => [w] | None => [] end.

Fixpoint shell_words_from (s : string) (quoted : bool) (cur : option string) : list string :=
  match s with
  | EmptyString => flush cur
  | String c rest =>
      if Ascii.eqb c dquote then
        shell_words_from rest (negb quoted) (Some (default EmptyString cur))
      else if Ascii.eqb c " "%char && negb quoted then
        flush cur ++ shell_words_from rest false None
      else
        shell_words_from rest quoted (Some (default EmptyString cur +:+ String c EmptyString))
  end.

Definition shell_words (cmd : string) : list string := shell_words_from cmd false None.

(** The word that follows [flag] on a command line. *)
Fixpoint arg_after (flag : string) (argv : list string) : option string :=
  match argv with
  | [] => None
  | a :: rest => if String.eqb a flag then head rest else arg_after flag rest
  end.

Definition write_file (p content : string) (fs : gmap string node) : gmap string node :=
  <[p := File content]> fs.

(** [child_process.execSync(cmd)]: the command is recorded; a child
    that succeeds writes the key to the [-keyout] path and the
    certificate to the [-out] path, both relative to the working
    directory of the process and replacing what was there; a child that
    ends with a non-zero status makes [execSync] throw, and what it
    wrote before it ended stays on the disk. *)
Definition execSync (e : env) (cmd : string) : M unit := fun w =>
  let ran := w_execs w ++ [cmd] in
  let argv := shell_words cmd in
  match openssl e, arg_after "-keyout" argv, arg_after "-out" argv with
  | Succeeds key_pem cert_pem, Some keyout, Some out =>
      (Ok tt,
       {| w_fs := write_file (path_resolve (cwd e) out) cert_pem
                    (write_file (path_resolve (cwd e) keyout) key_pem (w_fs w));
          w_console := w_console w;
          w_execs := ran |})
  | Succeeds _ _, _, _ =>
      (Throw (ExecError cmd 1),
       {| w_fs := w_fs w; w_console := w_console w; w_execs := ran |})
  | Fails status, _, _ =>
      (Throw (ExecError cmd status),
       {| w_fs := w_fs w; w_console := w_console w; w_execs := ran |})
  | Aborts key_pem status, Some keyout, _ =>
      (Throw (ExecError cmd status),
       {| w_fs := write_file (path_resolve (cwd e) keyout) key_pem (w_fs w);
          w_console := w_console w;
          w_execs := ran |})
  | Aborts _ status, None, _ =>
      (Throw (ExecError cmd status),
       {| w_fs := w_fs w; w_console := w_console w; w_execs := ran |})
  end.

End Node.

(** ** The [openssl] binary and its subject *)

Module Openssl.

(** Why [openssl req] refuses the value of [-subj]. *)
Inductive name_error :=
| NotInFormat
| MissingEquals (typestr : string)
| EscapeAtEnd.

(** Where the reader of the subject is: in the type of a piece, or in
    its value. *)
Inductive state :=
| InType (typestr : string)
| InValue (typestr valstr : string).

Definition snoc (s : string) (c : Ascii.ascii) : string := s +:+ String c EmptyString.

(** The pieces [type=value] of a subject, after its leading slash. The
    type runs up to the first [=], and the end of the text before it is an
    error. The value runs up to the next slash (or [+], where
    multi-valued names are read); a backslash takes the character after
    it into the value as it is. *)
Fixpoint scan (canmulti : bool) (st : state) (s : string)
    : name_error + list (string * string) :=
  match s, st with
  | EmptyString, InType EmptyString => inr []
  | EmptyString, InType typestr => inl (MissingEquals typestr)
  | EmptyString, InValue typestr valstr => inr [(typestr, valstr)]
  | String c rest, InType typestr =>
      if Ascii.eqb c "="%char then scan canmulti (InValue typestr EmptyString) rest
      else scan canmulti (InType (snoc typestr c)) rest
  | String c rest, InValue typestr valstr =>
      if Ascii.eqb c "/"%char || (canmulti && Ascii.eqb c "+"%char) then
        match scan canmulti (InType EmptyString) rest with
        | inr pieces => inr ((typestr, valstr) :: pieces)
        | inl err => inl err
        end
      else if Ascii.eqb c "\"%char then
        match rest with
        | EmptyString => inl EscapeAtEnd
        | String d rest' => scan canmulti (InValue typestr (snoc valstr d)) rest'
        end
      else scan canmulti (InValue typestr (snoc valstr c)) rest
  end.

(** The value of [-subj] as [openssl req] reads it:
    [/type0=value0/type1=value1/...]. *)
Definition parse_name (canmulti : bool) (subj : string)
    : name_error + list (string * string) :=
  match subj with
  | String c rest => if Ascii.eqb c "/"%char then scan canmulti (InType EmptyString) rest
                     else inl NotInFormat
  | EmptyString => inl NotInFormat
  end.

(** A subject [openssl req] can read. *)
Definition accepts (subj : string) : Prop :=
  exists canmulti pieces, parse_name canmulti subj = inr pieces.

End Openssl.
Export Node.

(** ** The listener: [https.createServer] and the handshake it performs *)

Module Https.

Fixpoint split_from (sep : Ascii.ascii) (s cur : string) : list string :=
  match s with
  | EmptyString => [cur]
  | String c rest =>
      if Ascii.eqb c sep then cur :: split_from sep rest EmptyString
      else split_from sep rest (cur +:+ String c EmptyString)
  end.

(** [s.split(sep)] *)
Definition split (sep : Ascii.ascii) (s : string) : list string :=
  split_from sep s EmptyString.

(** A listener: the options it was created with and the transport
    policy the library derives from them once, at creation. *)
Record server := {
  sv_options : Tls.options;
  sv_min : Z;
  sv_max : Z;
  sv_suites : list string;
  sv_suites13 : list string
}.

(** [https.createServer(options, ...)]: unset bounds and suites fall
    back to the library defaults; an unknown version name is refused,
    and so is key material the library cannot use. *)
Definition createServer (e : env) (o : Tls.options) : M server :=
  let d := tls e in
  match Tls.version_code (default (Tls.DEFAULT_MIN_VERSION d) (Tls.minVersion o)),
        Tls.version_code (default (Tls.DEFAULT_MAX_VERSION d) (Tls.maxVersion o)) with
  | Some lo, Some hi =>
      if secure_context e o then
        mret {| sv_options := o;
                sv_min := lo;
                sv_max := hi;
                sv_suites := split ":"%char (default (Tls.DEFAULT_CIPHERS d) (Tls.ciphers o));
                sv_suites13 := Tls.TLS13_SUITES d |}
      else throw (Error "ERR_OSSL_PEM_NO_START_LINE")
  | _, _ => throw (Error "ERR_TLS_INVALID_PROTOCOL_VERSION")
  end.

Inductive outcome :=
| Established (s : Tls.socket)
| Failed (f : Tls.failure) (s : Tls.socket).

Definition suites_for (s : server) (version : Z) : list string :=
  if (version =? Tls.TLSv1_3)%Z then sv_suites13 s else sv_suites s.

(** The first suite of the server's list that the client offers. *)
Definition select_cipher (s : server) (h : Tls.client_hello) : option string :=
  List.find (fun c => existsb (String.eqb c) (Tls.ch_ciphers h))
            (suites_for s (Tls.ch_version h)).

Definition broken_socket (proto : option string) : Tls.socket :=
  {| Tls.authorized := false; Tls.peer := Tls.empty_certificate;
     Tls.protocol := proto; Tls.cipher := None |}.

(** The handshake of the library: version bounds, then a common suite,
    then the client certificate. With [requestCert] the certificate is
    asked for; a connection is [authorized] exactly when the presented
    chain verified, and with [rejectUnauthorized] a connection that is
    not authorized is refused. *)
Definition handshake (s : server) (h : Tls.client_hello) : outcome :=
  let v := Tls.ch_version h in
  if ((v <? sv_min s) || (sv_max s <? v))%Z then
    Failed Tls.ProtocolMismatch (broken_socket None)
  else
    let proto := Some (Tls.version_name v) in
    match select_cipher s h with
    | None => Failed Tls.CipherMismatch (broken_socket proto)
    | Some suite =>
        let o := sv_options s in
        let accept (ok : bool) (c : Tls.peer_certificate) :=
          Established {| Tls.authorized := ok; Tls.peer := c;
                         Tls.protocol := proto; Tls.cipher := Some suite |} in
        if Tls.requestCert o then
          match Tls.ch_cert h with
          | Tls.Malformed => Failed Tls.MalformedCertificate (broken_socket proto)
          | Tls.NoCertificate =>
              if Tls.rejectUnauthorized o
              then Failed Tls.NoClientCertificate (broken_socket proto)
              else accept false Tls.empty_certificate
          | Tls.Certificate c chain_ok =>
              if chain_ok then accept true c
              else if Tls.rejectUnauthorized o
              then Failed Tls.UntrustedChain (broken_socket proto)
              else accept false c
          end
        else accept false Tls.empty_certificate
    end.

End Https.

(** ** HTTP requests and responses, and the Express calls the scripts use *)

Module Http.

Record request := {
  method : string;
  path : string
}.

(** The values the scripts pass to [res.json]. *)
Inductive json :=
| JString (s : string)
| JObject (fields : list (string * json))
| JUndefined.

Inductive body :=
| Json (v : json)
| Text (s : string)
| NotFoundPage (method path : string).

(** A response as sent: status, the headers the script set itself
    (those the framework adds are not listed), and the body. *)
Record response := {
  statusCode : Z;
  headers : list (string * string);
  payload : body
}.

(** The response object while a request is being handled. *)
Record res := {
  r_status : Z;
  r_headers : list (string * string)
}.

Definition fresh : res := {| r_status := 200; r_headers := [] |}.

(** [res.header(name, value)] *)
Definition header (name value : string) (r : res) : res :=
  {| r_status := r_status r; r_headers := r_headers r ++ [(name, value)] |}.

(** [res.status(code)] *)
Definition status (code : Z) (r : res) : res :=
  {| r_status := code; r_headers := r_headers r |}.

Definition send (b : body) (r : res) : response :=
  {| statusCode := r_status r; headers := r_headers r; payload := b |}.

(** [res.json(v)] *)
Definition send_json (v : json) (r : res) : response := send (Json v) r.

(** [res.sendStatus(200)]: the status with its reason phrase as body. *)
Definition sendStatus200 (r : res) : response := send (Text "OK") (status 200 r).

(** [res.writeHead(code); res.end(text)] *)
Definition writeHead_end (code : Z) (text : string) (r : res) : response :=
  send (Text text) (status code r).

(** What a middleware does with a request: answer it or call [next()]. *)
Inductive step :=
| Sent (r : response)
| Next (r : res).

(** Whether a route registered with [app.get(route, ...)] takes the
    request: GET, or HEAD (which Express hands to the GET route), on the
    route's path; for the root route the slash is optional. *)
Definition get_route_matches (route : string) (rq : request) : bool :=
  (String.eqb (method rq) "GET" || String.eqb (method rq) "HEAD")
  && (String.eqb (path rq) route
      || (String.eqb route "/" && String.eqb (path rq) EmptyString)).

(** The answer of Express when no route takes the request. *)
Definition not_found (rq : request) (r : res) : response :=
  send (NotFoundPage (method rq) (path rq)) (status 404 r).

Definition attributes (a : option (list (string * string))) : json :=
  match a with
  | Some kv => JObject (map (fun p => (fst p, JString (snd p))) kv)
  | None => JUndefined
  end.

Definition text (s : option string) : json :=
  match s with
  | Some v => JString v
  | None => JUndefined
  end.

(** [JSON.stringify] of a string: quotes and backslashes are escaped
    (control characters, which certificate names do not hold, are not
    treated). *)
Fixpoint escape (s : string) : string :=
  match s with
  | EmptyString => EmptyString
  | String c rest =>
      if Ascii.eqb c dquote || Ascii.eqb c "\"%char
      then String "\"%char (String c (escape rest))
      else String c (escape rest)
  end.

Definition quote (s : string) : string := dq +:+ escape s +:+ dq.

Fixpoint stringify_fields (kv : list (string * string)) : string :=
  match kv with
  | [] => EmptyString
  | [(k, v)] => quote k +:+ ":" +:+ quote v
  | (k, v) :: rest => quote k +:+ ":" +:+ quote v +:+ "," +:+ stringify_fields rest
  end.

(** [`${JSON.stringify(x)}`] for a certificate name [x]. *)
Definition stringify (a : option (list (string * string))) : string :=
  match a with
  | Some kv => "{" +:+ stringify_fields kv +:+ "}"
  | None => "undefined"
  end.

(** [`${b}`] for a boolean. *)
Definition show_bool (b : bool) : string := if b then "true" else "false".

End Http.

(** ** The Express server that only loads its certificates (port 8446) *)

Module Part000.
Import Http.

Section Script.
Context (e : env).

Definition debugLog (message : string) : M unit :=
  console_log ("[DEBUG] " +:+ message).

Definition loadCertificate (filename : string) : M string :=
  try_catch
    (let certPath := path_resolve (__dirname e) filename in
     debugLog ("Loading certificate from: " +:+ certPath);;
     found ← existsSync certPath;
     (if negb found
      then throw (Error ("Certificate file not found: " +:+ filename))
      else mret tt);;
     cert ← readFileSync certPath;
     debugLog ("Loaded " +:+ filename +:+ " successfully");;
     debugLog ("Certificate length: " +:+ pretty (String.length cert));;
     mret cert)
    (fun error =>
       console_error ("Error loading " +:+ filename +:+ ":") error;;
       throw error).

Definition options : M Tls.options :=
  key ← loadCertificate "server_key.pem";
  cert ← loadCertificate "server_cert.pem";
  ca ← loadCertificate "ca_cert.pem";
  mret {| Tls.key := key;
          Tls.cert := cert;
          Tls.ca := ca;
          Tls.requestCert := true;
          Tls.rejectUnauthorized := true;
          Tls.minVersion := Some "TLSv1.2";
          Tls.maxVersion := Some "TLSv1.3";
          Tls.ciphers := Some "ECDHE-ECDSA-AES128-GCM-SHA256:ECDHE-RSA-AES128-GCM-SHA256:ECDHE-ECDSA-AES256-GCM-SHA384:ECDHE-RSA-AES256-GCM-SHA384";
          Tls.handshakeTimeout := None;
          Tls.debug := None |}.

(** [app.use((req, res, next) => ...)] *)
Definition cors (req : request) (res0 : res) : M step :=
  let res1 := header "Access-Control-Allow-Origin" "*" res0 in
  let res2 := header "Access-Control-Allow-Methods" "GET, POST, OPTIONS" res1 in
  let res3 := header "Access-Control-Allow-Headers" "Content-Type, Authorization" res2 in
  if String.eqb (method req) "OPTIONS"
  then mret (Sent (sendStatus200 res3))
  else mret (Next res3).

Definition success_payload (clientCert : Tls.peer_certificate) : json :=
  JObject
    [("status", JString "success");
     ("message", JString "mTLS connection successful");
     ("clientInfo",
      JObject [("subject", attributes (Tls.subject clientCert));
               ("issuer", attributes (Tls.issuer clientCert));
               ("valid_from", text (Tls.valid_from clientCert));
               ("valid_to", text (Tls.valid_to clientCert))])].

Definition rejection_payload : json :=
  JObject
    [("status", JString "error");
     ("message", JString "Client certificate verification failed")].

(** [app.get('/', (req, res) => ...)]; [client] is [req.client], the
    socket of the request. The certificate object is always truthy. *)
Definition root (client : Tls.socket) (req : request) (res0 : res) : M response :=
  let clientCert := Tls.getPeerCertificate client in
  debugLog "Received request";;
  debugLog ("Client authorized: " +:+ show_bool (Tls.authorized client));;
  debugLog ("Client certificate subject: " +:+ stringify (Tls.subject clientCert));;
  if Tls.authorized client then
    debugLog "Client successfully authenticated";;
    mret (send_json (success_payload clientCert) res0)
  else
    debugLog "Client authentication failed";;
    mret (send_json rejection_payload (status 401 res0)).

(** The Express application: the middleware, then the one route. *)
Definition app (client : Tls.socket) (req : request) : M response :=
  st ← cors req fresh;
  match st with
  | Sent r => mret r
  | Next res1 =>
      if get_route_matches "/" req
      then root client req res1
      else mret (not_found req res1)
  end.

(** [server.on('error', ...)] *)
Definition onError (error : exn) : M unit :=
  console_error "Server error:" error.

(** [server.on('tlsClientError', ...)] *)
Definition onTlsClientError (error : exn) (tlsSocket : option Tls.socket) : M unit :=
  console_error "TLS Client error:" error;;
  match tlsSocket ≫= Tls.getProtocol with
  | Some proto => debugLog ("TLS Socket Info - Protocol: " +:+ proto)
  | None => mret tt
  end.

(** [server.on('secureConnection', ...)] *)
Definition onSecureConnection (tlsSocket : Tls.socket) : M unit :=
  debugLog "Secure connection established";;
  match Tls.getProtocol tlsSocket with
  | Some proto => debugLog ("Protocol: " +:+ proto)
  | None => mret tt
  end;;
  match Tls.getCipher tlsSocket with
  | Some name => debugLog ("Cipher: " +:+ name)
  | None => mret tt
  end.

(** [process.on('uncaughtException', ...)] *)
Definition onUncaughtException (error : exn) : M unit :=
  console_error "Uncaught Exception:" error.

(** The callback of [server.listen]. *)
Definition onListening : M unit :=
  console_log "mTLS server listening on port 8446".

(** The whole script: the listener it creates and the port it asks
    for, unless start-up fails. *)
Definition main : M (Https.server * Z) :=
  try_catch
    (o ← options;
     server ← Https.createServer e o;
     mret (server, 8446%Z))
    (fun error =>
       console_error "Server initialization error:" error;;
       process_exit 1).

End Script.
End Part000.

(** ** The Express server that generates a certificate when one is missing *)

Module Part001.
Import Http.

Definition DOMAIN_NAME : string := "https://mtlsserver-52a108593257.herokuapp.com".

Definition keyFile : string := "server_key.pem".
Definition certFile : string := "server_cert.pem".
Definition caFile : string := "ca_cert.pem".

Section Script.
Context (e : env).

Definition debugLog (message : string) : M unit :=
  console_log ("[DEBUG] " +:+ message).

(** The command line of [generateCertificate]. *)
Definition command (keyFile certFile : string) : string :=
  "openssl req -new -newkey rsa:2048 -days 365 -nodes -x509 -keyout " +:+ keyFile
  +:+ " -out " +:+ certFile
  +:+ " -subj " +:+ dq +:+ "/C=US/ST=State/L=City/O=Organization/OU=OrgUnit/CN="
  +:+ DOMAIN_NAME +:+ dq.

Definition generateCertificate (keyFile certFile : string) : M unit :=
  try_catch
    (debugLog "Generating new certificate...";;
     execSync e (command keyFile certFile);;
     debugLog "New certificate generated successfully")
    (fun error =>
       console_error "Error generating new certificate:" error;;
       throw error).

Definition loadCertificate (filename : string) : M string :=
  try_catch
    (let certPath := path_resolve (__dirname e) filename in
     debugLog ("Loading certificate from: " +:+ certPath);;
     found ← existsSync certPath;
     (if negb found
      then throw (Error ("Certificate file not found: " +:+ filename))
      else mret tt);;
     cert ← readFileSync certPath;
     debugLog ("Loaded " +:+ filename +:+ " successfully");;
     debugLog ("Certificate length: " +:+ pretty (String.length cert));;
     mret cert)
    (fun error =>
       console_error ("Error loading " +:+ filename +:+ ":") error;;
       throw error).

(** The first statement of the script: generate when the key or the
    certificate is missing. *)
Definition ensureCertificate : M unit :=
  haveKey ← existsSync (path_resolve (__dirname e) keyFile);
  haveCert ← existsSync (path_resolve (__dirname e) certFile);
  if negb haveKey || negb haveCert
  then generateCertificate keyFile certFile
  else mret tt.

Definition options : M Tls.options :=
  key ← loadCertificate keyFile;
  cert ← loadCertificate certFile;
  ca ← loadCertificate caFile;
  mret {| Tls.key := key;
          Tls.cert := cert;
          Tls.ca := ca;
          Tls.requestCert := true;
          Tls.rejectUnauthorized := true;
          Tls.minVersion := Some "TLSv1.2";
          Tls.maxVersion := Some "TLSv1.3";
          Tls.ciphers := Some "ECDHE-ECDSA-AES128-GCM-SHA256:ECDHE-RSA-AES128-GCM-SHA256:ECDHE-ECDSA-AES256-GCM-SHA384:ECDHE-RSA-AES256-GCM-SHA384";
          Tls.handshakeTimeout := None;
          Tls.debug := None |}.

(** The certificate bootstrap: generate if needed, then load the
    three files into the options. *)
Definition bootstrap : M Tls.options :=
  ensureCertificate;;
  options.

Definition cors (req : request) (res0 : res) : M step :=
  debugLog "Received incoming request";;
  let res1 := header "Access-Control-Allow-Origin" "*" res0 in
  let res2 := header "Access-Control-Allow-Methods" "GET, POST, OPTIONS" res1 in
  let res3 := header "Access-Control-Allow-Headers" "Content-Type, Authorization" res2 in
  if String.eqb (method req) "OPTIONS"
  then mret (Sent (sendStatus200 res3))
  else mret (Next res3).

Definition success_payload (clientCert : Tls.peer_certificate) : json :=
  JObject
    [("status", JString "success");
     ("message", JString "mTLS connection successful");
     ("clientInfo",
      JObject [("subject", attributes (Tls.subject clientCert));
               ("issuer", attributes (Tls.issuer clientCert));
               ("valid_from", text (Tls.valid_from clientCert));
               ("valid_to", text (Tls.valid_to clientCert))])].

Definition rejection_payload : json :=
  JObject
    [("status", JString "error");
     ("message", JString "Client certificate verification failed")].

Definition root (client : Tls.socket) (req : request) (res0 : res) : M response :=
  let clientCert := Tls.getPeerCertificate client in
  debugLog "Processing GET request";;
  debugLog ("Client authorized: " +:+ show_bool (Tls.authorized client));;
  debugLog ("Client certificate subject: " +:+ stringify (Tls.subject clientCert));;
  if Tls.authorized client then
    debugLog "Client successfully authenticated";;
    mret (send_json (success_payload clientCert) res0)
  else
    debugLog "Client authentication failed";;
    mret (send_json rejection_payload (status 401 res0)).

Definition app (client : Tls.socket) (req : request) : M response :=
  st ← cors req fresh;
  match st with
  | Sent r => mret r
  | Next res1 =>
      if get_route_matches "/" req
      then root client req res1
      else mret (not_found req res1)
  end.

Definition onError (error : exn) : M unit :=
  console_error "Server error:" error.

Definition onTlsClientError (error : exn) (tlsSocket : option Tls.socket) : M unit :=
  console_error "TLS Client error:" error;;
  match tlsSocket ≫= Tls.getProtocol with
  | Some proto => debugLog ("TLS Socket Info - Protocol: " +:+ proto)
  | None => mret tt
  end.

Definition onSecureConnection (tlsSocket : Tls.socket) : M unit :=
  debugLog "Secure connection established";;
  match Tls.getProtocol tlsSocket with
  | Some proto => debugLog ("Protocol: " +:+ proto)
  | None => mret tt
  end;;
  match Tls.getCipher tlsSocket with
  | Some name => debugLog ("Cipher: " +:+ name)
  | None => mret tt
  end.

Definition onUncaughtException (error : exn) : M unit :=
  console_error "Uncaught Exception:" error.

Definition PORT : Z := 8446.

Definition onListening : M unit :=
  console_log ("mTLS server listening on port " +:+ pretty PORT).

Definition main : M (Https.server * Z) :=
  try_catch
    (o ← bootstrap;
     server ← Https.createServer e o;
     mret (server, PORT))
    (fun error =>
       console_error "Server initialization error:" error;;
       process_exit 1).

End Script.
End Part001.

(** ** The plain-https copy (port 8443) *)

Module Copy.
Import Http.

Section Script.
Context (e : env).

Definition debugLog (message : string) : M unit :=
  console_log ("[DEBUG] " +:+ message).

Definition loadCertificate (filename : string) : M string :=
  try_catch
    (cert ← readFileSync (path_resolve (__dirname e) filename);
     debugLog ("Loaded " +:+ filename +:+ " successfully");;
     debugLog ("Certificate length: " +:+ pretty (String.length cert));;
     mret cert)
    (fun error =>
       console_error ("Error loading " +:+ filename +:+ ":") error;;
       throw error).

Definition options : M Tls.options :=
  serverKey ← loadCertificate "server_key.pem";
  serverCert ← loadCertificate "server_cert.pem";
  caCert ← loadCertificate "ca_cert.pem";
  mret {| Tls.key := serverKey;
          Tls.cert := serverCert;
          Tls.ca := caCert;
          Tls.requestCert := true;
          Tls.rejectUnauthorized := true;
          Tls.minVersion := None;
          Tls.maxVersion := None;
          Tls.ciphers := None;
          Tls.handshakeTimeout := Some 120000%Z;
          Tls.debug := Some true |}.

(** The request listener given to [https.createServer]: every method
    and every path. *)
Definition requestListener (client : Tls.socket) (req : request) : M response :=
  debugLog "Received request";;
  debugLog ("Client authorized: " +:+ show_bool (Tls.authorized client));;
  debugLog "Client certificate: [object Object]";;
  if Tls.authorized client then
    debugLog "Client successfully authenticated";;
    mret (writeHead_end 200 "Hello, secure world! mTLS connection successful." fresh)
  else
    debugLog "Client authentication failed";;
    mret (writeHead_end 401 "Client certificate verification failed." fresh).

Definition onError (error : exn) : M unit :=
  console_error "Server error:" error.

Definition onTlsClientError (error : exn) (tlsSocket : option Tls.socket) : M unit :=
  console_error "TLS Client error:" error.

Definition onListening : M unit :=
  console_log "mTLS server listening on port 8443".

(** The script has no [try] around it: what is thrown here is
    uncaught. *)
Definition main : M (Https.server * Z) :=
  o ← options;
  server ← Https.createServer e o;
  mret (server, 8443%Z).

End Script.
End Copy.

(** ** The running process: start-up, then one callback per event *)

Module Runtime.

(** A script as the runtime sees it: its top-level code and the
    callbacks it registers before it asks to listen. *)
Record script := {
  main : env -> M (Https.server * Z);
  requestListener : Tls.socket -> Http.request -> M Http.response;
  onError : exn -> M unit;
  onTlsClientError : exn -> option Tls.socket -> M unit;
  onSecureConnection : option (Tls.socket -> M unit);
  onListening : M unit;
  onUncaughtException : option (exn -> M unit)
}.

Inductive status :=
| Alive
| Exited (code : Z).

(** A connection the listener has seen: established, or over. *)
Inductive connection :=
| Open (s : Tls.socket)
| Closed.

(** The process: the world, whether it still runs, the listener and the
    port it asked for, whether the port is bound, the connections by
    their identifier, and the responses sent so far (oldest first). *)
Record proc := {
  p_world : world;
  p_status : status;
  p_server : option (Https.server * Z);
  p_bound : bool;
  p_conns : gmap nat connection;
  p_sent : list (nat * Http.response)
}.

(** What the runtime delivers: the port was bound; the listener raised
    an error (a bind failure when the port is not bound yet); a client
    started a handshake on a new connection; a request arrived on a
    connection; a client went away. *)
Inductive event :=
| Listening
| ServerError (e : exn)
| Hello (id : nat) (h : Tls.client_hello)
| Request (id : nat) (rq : Http.request)
| Disconnect (id : nat).

Definition with_world (p : proc) (w : world) : proc :=
  {| p_world := w; p_status := p_status p; p_server := p_server p;
     p_bound := p_bound p; p_conns := p_conns p; p_sent := p_sent p |}.

Definition with_status (p : proc) (st : status) : proc :=
  {| p_world := p_world p; p_status := st; p_server := p_server p;
     p_bound := p_bound p; p_conns := p_conns p; p_sent := p_sent p |}.

Definition with_bound (p : proc) : proc :=
  {| p_world := p_world p; p_status := p_status p; p_server := p_server p;
     p_bound := true; p_conns := p_conns p; p_sent := p_sent p |}.

Definition with_conn (p : proc) (id : nat) (c : connection) : proc :=
  {| p_world := p_world p; p_status := p_status p; p_server := p_server p;
     p_bound := p_bound p; p_conns := <[id := c]> (p_conns p); p_sent := p_sent p |}.

Definition with_sent (p : proc) (id : nat) (r : Http.response) : proc :=
  {| p_world := p_world p; p_status := p_status p; p_server := p_server p;
     p_bound := p_bound p; p_conns := p_conns p; p_sent := p_sent p ++ [(id, r)] |}.

(** Running the script: a script that returns leaves a process waiting
    for events; [process.exit(c)] ends it with [c]; an exception nothing
    catches ends it with status 1. *)
Definition boot (sc : script) (e : env) (w : world) : proc :=
  let blank (w' : world) (st : status) (sv : option (Https.server * Z)) :=
    {| p_world := w'; p_status := st; p_server := sv;
       p_bound := false; p_conns := ∅; p_sent := [] |} in
  match main sc e w with
  | (Ok sv, w') => blank w' Alive (Some sv)
  | (Throw _, w') => blank w' (Exited 1) None
  | (Halt c, w') => blank w' (Exited c) None
  end.

(** An exception that escapes a callback: it goes to the
    ['uncaughtException'] handler when the script registered one, and
    ends the process with status 1 otherwise (7 when the handler itself
    fails). *)
Definition uncaught (sc : script) (p : proc) (error : exn) : proc :=
  match onUncaughtException sc with
  | None => with_status p (Exited 1)
  | Some handler =>
      match handler error (p_world p) with
      | (Ok _, w') => with_world p w'
      | (Throw _, w') => with_status (with_world p w') (Exited 7)
      | (Halt c, w') => with_status (with_world p w') (Exited c)
      end
  end.

(** Running one callback and continuing with its result. *)
Definition callback {A} (sc : script) (p : proc) (m : M A) (k : A -> proc -> proc) : proc :=
  match m (p_world p) with
  | (Ok a, w') => k a (with_world p w')
  | (Throw error, w') => uncaught sc (with_world p w') error
  | (Halt c, w') => with_status (with_world p w') (Exited c)
  end.

Definition is_open (c : connection) : bool :=
  match c with Open _ => true | Closed => false end.

(** When nothing is left that could produce an event (the listener is
    not bound and no connection is open) the process ends by itself,
    with status 0. *)
Definition settle (p : proc) : proc :=
  match p_status p with
  | Exited _ => p
  | Alive =>
      if p_bound p then p
      else if bool_decide (map_Forall (fun _ c => is_open c = false) (p_conns p))
      then with_status p (Exited 0)
      else p
  end.

Definition dispatch (sc : script) (p : proc) (ev : event) : proc :=
  match p_status p, p_server p with
  | Alive, Some (server, port) =>
      match ev with
      | Listening =>
          if p_bound p then p
          else callback sc (with_bound p) (onListening sc) (fun _ q => q)
      | ServerError error =>
          settle (callback sc p (onError sc error) (fun _ q => q))
      | Hello id h =>
          if p_bound p && bool_decide (p_conns p !! id = None) then
            match Https.handshake server h with
            | Https.Established s =>
                match onSecureConnection sc with
                | Some handler => callback sc (with_conn p id (Open s)) (handler s) (fun _ q => q)
                | None => with_conn p id (Open s)
                end
            | Https.Failed f s =>
                callback sc (with_conn p id Closed)
                  (onTlsClientError sc (Tls.failure_error f) (Some s)) (fun _ q => q)
            end
          else p
      | Request id rq =>
          match p_conns p !! id with
          | Some (Open s) =>
              callback sc p (requestListener sc s rq) (fun r q => with_sent q id r)
          | _ => p
          end
      | Disconnect id =>
          match p_conns p !! id with
          | Some (Open _) => with_conn p id Closed
          | _ => p
          end
      end
  | _, _ => p
  end.

(** The process after a sequence of events. *)
Definition run (sc : script) (p : proc) (evs : list event) : proc :=
  foldl (dispatch sc) p evs.

End Runtime.

Definition part000 : Runtime.script :=
  {| Runtime.main := Part000.main;
     Runtime.requestListener := Part000.app;
     Runtime.onError := Part000.onError;
     Runtime.onTlsClientError := Part000.onTlsClientError;
     Runtime.onSecureConnection := Some Part000.onSecureConnection;
     Runtime.onListening := Part000.onListening;
     Runtime.onUncaughtException := Some Part000.onUncaughtException |}.

Definition part001 : Runtime.script :=
  {| Runtime.main := Part001.main;
     Runtime.requestListener := Part001.app;
     Runtime.onError := Part001.onError;
     Runtime.onTlsClientError := Part001.onTlsClientError;
     Runtime.onSecureConnection := Some Part001.onSecureConnection;
     Runtime.onListening := Part001.onListening;
     Runtime.onUncaughtException := Some Part001.onUncaughtException |}.

Definition copy : Runtime.script :=
  {| Runtime.main := Copy.main;
     Runtime.requestListener := Copy.requestListener;
     Runtime.onError := Copy.onError;
     Runtime.onTlsClientError := Copy.onTlsClientError;
     Runtime.onSecureConnection := None;
     Runtime.onListening := Copy.onListening;
     Runtime.onUncaughtException := None |}.

(** ** The three server variants side by side *)

Inductive variant :=
| Express
| Generating
| PlainCopy.

Definition script_of (v : variant) : Runtime.script :=
  match v with
  | Express => part000
  | Generating => part001
  | PlainCopy => copy
  end.

(** The two variants built on Express. *)
Definition is_express (v : variant) : bool :=
  match v with
  | PlainCopy => false
  | _ => true
  end.

(** A world that differs from [w] only by more console output. *)
Definition add_console (w : world) (out : list line) : world :=
  {| w_fs := w_fs w; w_console := w_console w ++ out; w_execs := w_execs w |}.

(** The headers the CORS middleware sets on every response. *)
Definition cors_headers : list (string * string) :=
  [("Access-Control-Allow-Origin", "*");
   ("Access-Control-Allow-Methods", "GET, POST, OPTIONS");
   ("Access-Control-Allow-Headers", "Content-Type, Authorization")].

(** The member [name] of a JSON object. *)
Definition field (name : string) (v : Http.json) : option Http.json :=
  match v with
  | Http.JObject fields =>
      snd <$> List.find (fun p => String.eqb (fst p) name) fields
  | _ => None
  end.

(** The responses meant for authenticated clients only: the JSON object
    with status [success] of the Express variants and the greeting of the
    copy. *)
Definition serves_authenticated_only (r : Http.response) : bool :=
  match Http.payload r with
  | Http.Json v =>
      match field "status" v with
      | Some (Http.JString s) => String.eqb s "success"
      | _ => false
      end
  | Http.Text t => String.eqb t "Hello, secure world! mTLS connection successful."
  | Http.NotFoundPage _ _ => false
  end.

(** The chain of trust of connection [id] verified: among the events is
    its handshake, with a certificate the library validated against the
    trust anchor. *)
Definition chain_verified (evs : list Runtime.event) (id : nat) : Prop :=
  exists h c, In (Runtime.Hello id h) evs /\ Tls.ch_cert h = Tls.Certificate c true.

(** The paths the scripts look at. *)
Definition key_path (e : env) : string := path_resolve (__dirname e) "server_key.pem".
Definition cert_path (e : env) : string := path_resolve (__dirname e) "server_cert.pem".
Definition ca_path (e : env) : string := path_resolve (__dirname e) "ca_cert.pem".

(** ** Sample surroundings, used to evaluate the scripts *)

Module Sample.

Definition node_defaults : Tls.defaults :=
  {| Tls.DEFAULT_MIN_VERSION := "TLSv1.2";
     Tls.DEFAULT_MAX_VERSION := "TLSv1.3";
     Tls.DEFAULT_CIPHERS := "ECDHE-RSA-AES128-GCM-SHA256:ECDHE-RSA-AES256-GCM-SHA384";
     Tls.TLS13_SUITES := ["TLS_AES_256_GCM_SHA384"; "TLS_AES_128_GCM_SHA256"] |}.

(** Node started with [--tls-min-v1.0]. *)
Definition legacy_defaults : Tls.defaults :=
  {| Tls.DEFAULT_MIN_VERSION := "TLSv1";
     Tls.DEFAULT_MAX_VERSION := "TLSv1.3";
     Tls.DEFAULT_CIPHERS := "ECDHE-RSA-AES128-GCM-SHA256:ECDHE-RSA-AES256-GCM-SHA384";
     Tls.TLS13_SUITES := ["TLS_AES_256_GCM_SHA384"; "TLS_AES_128_GCM_SHA256"] |}.

Definition pem (label body : string) : string :=
  "-----BEGIN " +:+ label +:+ "-----" +:+ body +:+ "-----END " +:+ label +:+ "-----".

Definition old_key : string := pem "PRIVATE KEY" "OLDKEY".
Definition old_cert : string := pem "CERTIFICATE" "OLDCERT".
Definition new_key : string := pem "PRIVATE KEY" "NEWKEY".
Definition new_cert : string := pem "CERTIFICATE" "NEWCERT".
Definition ca_cert : string := pem "CERTIFICATE" "CA".

(** A library that accepts whatever is framed as PEM. *)
Definition framed (o : Tls.options) : bool :=
  String.prefix "-----BEGIN " (Tls.key o)
  && String.prefix "-----BEGIN " (Tls.cert o)
  && String.prefix "-----BEGIN " (Tls.ca o).

Definition app_env (child : subprocess) (d : Tls.defaults) : env :=
  {| __dirname := "/app"; cwd := "/app"; openssl := child; tls := d;
     secure_context := framed |}.

Definition e_ok : env := app_env (Succeeds new_key new_cert) node_defaults.
Definition e_fail : env := app_env (Fails 127) node_defaults.

(** The child as [openssl] is on the command of the script: the key is
    written, the subject refused, the status 1. *)
Definition e_real : env := app_env (Aborts new_key 1) node_defaults.
Definition e_legacy : env := app_env (Succeeds new_key new_cert) legacy_defaults.

Definition disk (fs : gmap string node) : world :=
  {| w_fs := fs; w_console := []; w_execs := [] |}.

Definition only_ca : gmap string node :=
  {[ "/app/ca_cert.pem" := File ca_cert ]}.

Definition key_and_ca : gmap string node :=
  <["/app/server_key.pem" := File old_key]> only_ca.

Definition all_three : gmap string node :=
  <["/app/server_cert.pem" := File old_cert]> key_and_ca.

Definition no_ca : gmap string node :=
  <["/app/server_cert.pem" := File old_cert]>
    (<["/app/server_key.pem" := File old_key]> ∅).

Definition test_client : Tls.peer_certificate :=
  {| Tls.subject := Some [("CN", "TestClient")];
     Tls.issuer := Some [("CN", "Test CA")];
     Tls.valid_from := Some "Jan  1 00:00:00 2025 GMT";
     Tls.valid_to := Some "Jan  1 00:00:00 2026 GMT" |}.

Definition hello (version : Z) (cert : Tls.presented) : Tls.client_hello :=
  {| Tls.ch_version := version;
     Tls.ch_ciphers := ["ECDHE-RSA-AES128-GCM-SHA256"; "TLS_AES_128_GCM_SHA256"];
     Tls.ch_cert := cert |}.

Definition trusted_hello : Tls.client_hello :=
  hello Tls.TLSv1_2 (Tls.Certificate test_client true).

Definition self_signed_hello : Tls.client_hello :=
  hello Tls.TLSv1_2 (Tls.Certificate test_client false).

Definition get_root : Http.request := {| Http.method := "GET"; Http.path := "/" |}.

Definition trusted_socket : Tls.socket :=
  {| Tls.authorized := true; Tls.peer := test_client;
     Tls.protocol := Some "TLSv1.2"; Tls.cipher := Some "ECDHE-RSA-AES128-GCM-SHA256" |}.

Definition untrusted_socket : Tls.socket :=
  {| Tls.authorized := false; Tls.peer := test_client;
     Tls.protocol := Some "TLSv1.2"; Tls.cipher := Some "ECDHE-RSA-AES128-GCM-SHA256" |}.

End Sample.

(** ** Notions used in the statements *)

(** [w'] has the files and the command history of [w] (the console may
    have grown). *)
Definition same_disk (w w' : world) : Prop :=
  w_fs w' = w_fs w /\ w_execs w' = w_execs w.

(** What [loadCertificate] does in each script: it leaves the disk alone,
    throws when the file is absent, returns the text of a readable file,
    and never ends the process by itself. *)
Definition loads (load : string -> M string) (e : env) : Prop :=
  forall f w, exists w' r, same_disk w w' /\ load f w = (r, w')
    /\ (w_fs w !! path_resolve (__dirname e) f = None -> exists err, r = Throw err)
    /\ (forall c, w_fs w !! path_resolve (__dirname e) f = Some (File c) -> r = Ok c)
    /\ (forall c, r <> Halt c).

(** The one command line the generating script ever runs. *)
Definition generation_command : string :=
  Part001.command Part001.keyFile Part001.certFile.

(** Where the child process writes: relative to the working directory. *)
Definition key_target (e : env) : string := path_resolve (cwd e) "server_key.pem".
Definition cert_target (e : env) : string := path_resolve (cwd e) "server_cert.pem".

(** The world after a successful generation, and after a failed one. *)
Definition generated (e : env) (w : world) (key_pem cert_pem : string) : world :=
  {| w_fs := <[cert_target e := File cert_pem]> (<[key_target e := File key_pem]> (w_fs w));
     w_console := (w_console w ++ [Stdout "[DEBUG] Generating new certificate..."])
                    ++ [Stdout "[DEBUG] New certificate generated successfully"];
     w_execs := w_execs w ++ [generation_command] |}.

Definition generation_failed (w : world) (status : Z) : world :=
  {| w_fs := w_fs w;
     w_console := (w_console w ++ [Stdout "[DEBUG] Generating new certificate..."])
                    ++ [Stderr "Error generating new certificate:"
                          (ExecError generation_command status)];
     w_execs := w_execs w ++ [generation_command] |}.

(** The world after a generation that wrote the key and then failed. *)
Definition generation_aborted (e : env) (w : world) (key_pem : string) (status : Z) : world :=
  {| w_fs := <[key_target e := File key_pem]> (w_fs w);
     w_console := (w_console w ++ [Stdout "[DEBUG] Generating new certificate..."])
                    ++ [Stderr "Error generating new certificate:"
                          (ExecError generation_command status)];
     w_execs := w_execs w ++ [generation_command] |}.

(** The subject a command line hands to [openssl]. *)
Definition subject_of (cmd : string) : option string :=
  arg_after "-subj" (shell_words cmd).

(** The child is [openssl]: it succeeds only on a command whose subject
    it can read. *)
Definition child_is_openssl (e : env) (cmd : string) : Prop :=
  forall key_pem cert_pem,
    openssl e = Succeeds key_pem cert_pem ->
    exists subj, subject_of cmd = Some subj /\ Openssl.accepts subj.

(** The options object of the two Express variants, and of the copy. *)
Definition express_options (key cert ca : string) : Tls.options :=
  {| Tls.key := key; Tls.cert := cert; Tls.ca := ca;
     Tls.requestCert := true; Tls.rejectUnauthorized := true;
     Tls.minVersion := Some "TLSv1.2"; Tls.maxVersion := Some "TLSv1.3";
     Tls.ciphers := Some "ECDHE-ECDSA-AES128-GCM-SHA256:ECDHE-RSA-AES128-GCM-SHA256:ECDHE-ECDSA-AES256-GCM-SHA384:ECDHE-RSA-AES256-GCM-SHA384";
     Tls.handshakeTimeout := None; Tls.debug := None |}.

Definition copy_options (key cert ca : string) : Tls.options :=
  {| Tls.key := key; Tls.cert := cert; Tls.ca := ca;
     Tls.requestCert := true; Tls.rejectUnauthorized := true;
     Tls.minVersion := None; Tls.maxVersion := None; Tls.ciphers := None;
     Tls.handshakeTimeout := Some 120000%Z; Tls.debug := Some true |}.

(** A name of the peer certificate as it reaches the client: the object
    with one string member per attribute, in the order of the certificate;
    and a date: its text. A member the certificate object lacks is
    [undefined]. *)
Definition echoed_name (a : option (list (string * string))) : Http.json :=
  match a with
  | Some attrs => Http.JObject (map (fun a => (fst a, Http.JString (snd a))) attrs)
  | None => Http.JUndefined
  end.

Definition echoed_date (d : option string) : Http.json :=
  match d with
  | Some t => Http.JString t
  | None => Http.JUndefined
  end.

(** The two answers of the root route. *)
Definition success_response (c : Tls.peer_certificate) : Http.response :=
  {| Http.statusCode := 200;
     Http.headers := cors_headers;
     Http.payload :=
       Http.Json (Http.JObject
         [("status", Http.JString "success");
          ("message", Http.JString "mTLS connection successful");
          ("clientInfo",
           Http.JObject [("subject", echoed_name (Tls.subject c));
                         ("issuer", echoed_name (Tls.issuer c));
                         ("valid_from", echoed_date (Tls.valid_from c));
                         ("valid_to", echoed_date (Tls.valid_to c))])]) |}.

Definition rejection_response : Http.response :=
  {| Http.statusCode := 401;
     Http.headers := cors_headers;
     Http.payload :=
       Http.Json (Http.JObject
         [("status", Http.JString "error");
          ("message", Http.JString "Client certificate verification failed")]) |}.

(** The answer of the CORS middleware to OPTIONS. *)
Definition preflight_response : Http.response :=
  {| Http.statusCode := 200;
     Http.headers := cors_headers;
     Http.payload := Http.Text "OK" |}.

(** The invariant of the gate along a run: an authorized socket, and a
    response for authenticated clients only, belong to a connection whose
    chain of trust was verified. *)
Definition gate_invariant (evs : list Runtime.event) (p : Runtime.proc) : Prop :=
  (forall id s, Runtime.p_conns p !! id = Some (Runtime.Open s) ->
                Tls.authorized s = true -> chain_verified evs id)
  /\ (forall id r, In (id, r) (Runtime.p_sent p) ->
                   serves_authenticated_only r = true -> chain_verified evs id).

(** The suites of the [ciphers] option of the Express variants. *)
Definition express_suites : list string :=
  ["ECDHE-ECDSA-AES128-GCM-SHA256"; "ECDHE-RSA-AES128-GCM-SHA256";
   "ECDHE-ECDSA-AES256-GCM-SHA384"; "ECDHE-RSA-AES256-GCM-SHA384"].

(** The listener [https.createServer] makes of the Express options. *)
Definition express_server (e : env) (o : Tls.options) : Https.server :=
  {| Https.sv_options := o;
     Https.sv_min := Tls.TLSv1_2;
     Https.sv_max := Tls.TLSv1_3;
     Https.sv_suites := express_suites;
     Https.sv_suites13 := Tls.TLS13_SUITES (tls e) |}.

(** The world after the [catch] of an Express script reported [error]. *)
Definition initialization_failed (w : world) (error : exn) : world :=
  {| w_fs := w_fs w;
     w_console := w_console w ++ [Stderr "Server initialization error:" error];
     w_execs := w_execs w |}.

Definition key_material_refused : exn := Error "ERR_OSSL_PEM_NO_START_LINE".

(** How an Express script ends once its options block has ended with
    [r1] in world [w1]. *)
Definition started (e : env) (port : Z) (r1 : result Tls.options) (w1 : world)
    : result (Https.server * Z) * world :=
  match r1 with
  | Ok o =>
      if secure_context e o
      then (Ok (express_server e o, port), w1)
      else (Halt 1, initialization_failed w1 key_material_refused)
  | Throw error => (Halt 1, initialization_failed w1 error)
  | Halt c => (Halt c, w1)
  end.

(** What the options block of a script does, [build] being the object it
    makes of the three texts. *)
Definition options_spec (options : M Tls.options)
    (build : string -> string -> string -> Tls.options) (e : env) : Prop :=
  forall w, exists r w', same_disk w w' /\ options w = (r, w')
    /\ (forall c, r <> Halt c)
    /\ (forall kk cc aa,
          w_fs w !! key_path e = Some (File kk) ->
          w_fs w !! cert_path e = Some (File cc) ->
          w_fs w !! ca_path e = Some (File aa) ->
          r = Ok (build kk cc aa))
    /\ (forall o, r = Ok o -> exists kk cc aa, o = build kk cc aa)
    /\ (w_fs w !! ca_path e = None -> exists err, r = Throw err).

(** The test of the generating script, on the world it starts in. *)
Definition must_generate (e : env) (w : world) : bool :=
  negb (bool_decide (is_Some (w_fs w !! key_path e)))
  || negb (bool_decide (is_Some (w_fs w !! cert_path e))).


(** ** Notions used in the further properties *)

(** A callback that always returns and leaves the disk alone. *)
Definition only_logs {A} (m : M A) : Prop :=
  forall w, exists a w', m w = (Ok a, w') /\ same_disk w w'.

(** Every callback a script registers only logs. *)
Definition callbacks_only_log (sc : Runtime.script) : Prop :=
  (forall s rq, only_logs (Runtime.requestListener sc s rq))
  /\ (forall err, only_logs (Runtime.onError sc err))
  /\ (forall err s, only_logs (Runtime.onTlsClientError sc err s))
  /\ (forall handler s, Runtime.onSecureConnection sc = Some handler -> only_logs (handler s))
  /\ only_logs (Runtime.onListening sc)
  /\ (forall handler err, Runtime.onUncaughtException sc = Some handler -> only_logs (handler err)).

(** A listener that asks for a client certificate and refuses what does
    not verify. *)
Definition strict (sv : Https.server) : Prop :=
  Tls.requestCert (Https.sv_options sv) = true
  /\ Tls.rejectUnauthorized (Https.sv_options sv) = true.

(** Every open connection of the process is authorized and no response
    sent so far has status 401. *)
Definition all_authorized (p : Runtime.proc) : Prop :=
  (forall id s, Runtime.p_conns p !! id = Some (Runtime.Open s) -> Tls.authorized s = true)
  /\ (forall id r, In (id, r) (Runtime.p_sent p) -> Http.statusCode r <> 401%Z).

(** The answer of Express to a request no route takes, after the CORS
    middleware has run. *)
Definition not_found_response (rq : Http.request) : Http.response :=
  {| Http.statusCode := 404;
     Http.headers := cors_headers;
     Http.payload := Http.NotFoundPage (Http.method rq) (Http.path rq) |}.

(** The two answers of the copy. *)
Definition greeting_response : Http.response :=
  {| Http.statusCode := 200;
     Http.headers := [];
     Http.payload := Http.Text "Hello, secure world! mTLS connection successful." |}.

Definition refusal_response : Http.response :=
  {| Http.statusCode := 401;
     Http.headers := [];
     Http.payload := Http.Text "Client certificate verification failed." |}.

(** What loading file [f] from the script's directory gives on disk
    [fs], and what the options block of an Express script gives: the
    first file that fails decides. *)
Definition load_result (e : env) (fs : gmap string node) (f : string) : result string :=
  match fs !! path_resolve (__dirname e) f with
  | Some (File c) => Ok c
  | Some Unreadable => Throw (SystemError "EACCES" (path_resolve (__dirname e) f))
  | None => Throw (Error ("Certificate file not found: " +:+ f))
  end.

Definition options_result (e : env) (fs : gmap string node) : result Tls.options :=
  match load_result e fs "server_key.pem" with
  | Ok key =>
      match load_result e fs "server_cert.pem" with
      | Ok cert =>
          match load_result e fs "ca_cert.pem" with
          | Ok ca => Ok (express_options key cert ca)
          | Throw err => Throw err
          | Halt c => Halt c
          end
      | Throw err => Throw err
      | Halt c => Halt c
      end
  | Throw err => Throw err
  | Halt c => Halt c
  end.

(** Two processes that differ at most in their worlds: same status, same
    listener, same connections, same responses. *)
Definition same_to_clients (p q : Runtime.proc) : Prop :=
  Runtime.p_status p = Runtime.p_status q
  /\ Runtime.p_server p = Runtime.p_server q
  /\ Runtime.p_bound p = Runtime.p_bound q
  /\ Runtime.p_conns p = Runtime.p_conns q
  /\ Runtime.p_sent p = Runtime.p_sent q.

(** ** The diagnostics script: [ServerDiagnostics] *)

Module Diagnostics.

(** One element of [this.results]; the timestamp is left out, as on the
    console. *)
Record entry := {
  message : string;
  type : string
}.

(** What the script changes: the lines printed and [this.results]. *)
Record state := {
  console : list string;
  results : list entry
}.

(** How a method ends: it returns, or it throws a value of which only
    [error.message] is ever looked at. *)
Inductive outcome (A : Type) :=
| Returned (a : A)
| Thrown (message : string).
Arguments Returned {A} a.
Arguments Thrown {A} message.

Definition D (A : Type) : Type := state -> outcome A * state.

#[global] Instance D_ret : MRet D := fun A a st => (Returned a, st).
#[global] Instance D_bind : MBind D := fun A B f m st =>
  match m st with
  | (Returned a, st') => f a st'
  | (Thrown msg, st') => (Thrown msg, st')
  end.

Definition raise {A} (msg : string) : D A := fun st => (Thrown msg, st).

(** [try { body } catch (error) { handler(error.message) }] *)
Definition try_catch {A} (body : D A) (handler : string -> D A) : D A :=
  fun st =>
    match body st with
    | (Thrown msg, st') => handler msg st'
    | r => r
    end.

Definition console_log (text : string) : D unit := fun st =>
  (Returned tt, {| console := console st ++ [text]; results := results st |}).

(** [list.forEach(f)] *)
Fixpoint forEach {A} (f : A -> D unit) (l : list A) : D unit :=
  match l with
  | [] => mret tt
  | x :: rest => f x;; forEach f rest
  end.

(** A file as the script can see it: the mode [stat] reports and the text,
    if the file can be read. *)
Record file := {
  mode : Z;
  text : option string
}.

(** A parsed certificate, as far as the script looks into it: the CN of
    the subject if there is one, the extensions with their name and [cA]
    member, the validity window in milliseconds. *)
Record extension := {
  name : string;
  cA : bool
}.

Record certificate := {
  subject_CN : option string;
  extensions : list extension;
  notBefore : Z;
  notAfter : Z
}.

(** What [serverCert.verify(...)] does: true, false, or an exception. *)
Inductive verdict :=
| Verified
| NotVerified
| VerifyThrows (message : string).

(** What the request to the server leads to: a response, an ['error']
    event, an exception of [https.request] itself, or nothing at all (the
    promise is never resolved). *)
Inductive probe :=
| Responded (statusCode : Z)
| RequestError (message : string)
| RequestThrows (message : string)
| NoAnswer.

(** The surroundings of a run: the script's directory and the files, the
    [node-forge] parser and signature check, the clock, the message of the
    TypeError raised for a member of [null], and the fate of the request. *)
Record env := {
  __dirname : string;
  files : gmap string file;
  certificateFromPem : string -> certificate + string;
  verify : certificate -> certificate -> verdict;
  now : Z;
  null_member_message : string;
  request : Z -> probe
}.

Definition nl : string := String (Ascii.ascii_of_nat 10) EmptyString.
Definition sq : string := "'".

(** [path.join(__dirname, name)] *)
Definition path_join (base name : string) : string := base +:+ "/" +:+ name.

(** [fs.accessSync(p)] *)
Definition accessSync (e : env) (p : string) : D unit :=
  match files e !! p with
  | Some _ => mret tt
  | None => raise ("ENOENT: no such file or directory, access " +:+ sq +:+ p +:+ sq)
  end.

(** [fs.statSync(p).mode] *)
Definition statSync_mode (e : env) (p : string) : D Z :=
  match files e !! p with
  | Some f => mret (mode f)
  | None => raise ("ENOENT: no such file or directory, stat " +:+ sq +:+ p +:+ sq)
  end.

(** [fs.readFileSync(p, 'utf8')] *)
Definition readFileSync (e : env) (p : string) : D string :=
  match files e !! p with
  | Some f =>
      match text f with
      | Some t => mret t
      | None => raise ("EACCES: permission denied, open " +:+ sq +:+ p +:+ sq)
      end
  | None => raise ("ENOENT: no such file or directory, open " +:+ sq +:+ p +:+ sq)
  end.

(** [n.toString(8)] for a natural number. *)
Definition octal_digit (d : N) : string :=
  String (Ascii.ascii_of_N (48 + d)) EmptyString.

Fixpoint octal_go (fuel : nat) (n : N) (acc : string) : string :=
  match fuel with
  | O => acc
  | S fuel' =>
      if (n =? 0)%N then acc
      else octal_go fuel' (n / 8)%N (octal_digit (n mod 8)%N +:+ acc)
  end.

Definition octal (n : N) : string :=
  if (n =? 0)%N then "0" else octal_go (S (N.size_nat n)) n EmptyString.

Section Script.
Context (e : env).

(** [log(message, type = 'info')] *)
Definition log (message : string) (type : string) : D unit := fun st =>
  let line :=
    if String.eqb type "success" then "✓ " +:+ message +:+ " (Success)"
    else if String.eqb type "error" then "✗ " +:+ message +:+ " (Error)"
    else if String.eqb type "warning" then "⚠ " +:+ message +:+ " (Warning)"
    else "ℹ " +:+ message +:+ " (Info)" in
  (Returned tt,
   {| console := console st ++ [line];
      results := results st ++ [{| message := message; type := type |}] |}).

Definition requiredFiles : list (string * string) :=
  [("server_key.pem", "Server Private Key");
   ("server_cert.pem", "Server Certificate");
   ("ca_cert.pem", "CA Certificate")].

(** The body of the [forEach] of [checkRequiredFiles]; [file] is the pair
    of [path] and [description]. *)
Definition checkRequiredFile (file : string * string) : D unit :=
  let path := fst file in
  let description := snd file in
  try_catch
    (accessSync e (path_join (__dirname e) path);;
     log (description +:+ " (" +:+ path +:+ ") exists") "success";;
     mode ← statSync_mode e (path_join (__dirname e) path);
     let permissions := Z.land mode 511 in
     if String.eqb path "server_key.pem" && negb (Z.land permissions 36 =? 0)%Z
     then log (path +:+ " has too open permissions: " +:+ octal (Z.to_N permissions)) "warning"
     else mret tt)
    (fun error_message =>
       log (description +:+ " (" +:+ path +:+ ") is missing: " +:+ error_message) "error").

Definition checkRequiredFiles : D unit :=
  console_log (nl +:+ "1. Checking Required Files:" +:+ nl);;
  forEach checkRequiredFile requiredFiles.

(** [forge.pki.certificateFromPem(pem)] *)
Definition parse (pem : string) : D certificate :=
  match certificateFromPem e pem with
  | inl cert => mret cert
  | inr msg => raise msg
  end.

(** [cert.subject.getField('CN').value]: [getField] gives [null] when the
    subject has no CN. *)
Definition subject_CN_value (cert : certificate) : D string :=
  match subject_CN cert with
  | Some v => mret v
  | None => raise (null_member_message e)
  end.

(** [cert.extensions.find(ext => ext.name === 'basicConstraints')?.cA] *)
Definition basicConstraints_cA (cert : certificate) : bool :=
  match List.find (fun ext => String.eqb (name ext) "basicConstraints") (extensions cert) with
  | Some ext => cA ext
  | None => false
  end.

Definition validateCertificates : D unit :=
  console_log (nl +:+ "2. Validating Certificates:" +:+ nl);;
  try_catch
    (caCertPem ← readFileSync e (path_join (__dirname e) "ca_cert.pem");
     serverCertPem ← readFileSync e (path_join (__dirname e) "server_cert.pem");
     caCert ← parse caCertPem;
     serverCert ← parse serverCertPem;
     log "CA Certificate loaded successfully" "success";;
     caName ← subject_CN_value caCert;
     log ("CA Certificate Subject: " +:+ caName) "info";;
     (if basicConstraints_cA caCert
      then log "CA Certificate has correct basicConstraints" "success"
      else log "CA Certificate missing proper basicConstraints" "error");;
     log "Server Certificate loaded successfully" "success";;
     serverName ← subject_CN_value serverCert;
     log ("Server Certificate Subject: " +:+ serverName) "info";;
     match verify e serverCert caCert with
     | Verified => log "Server Certificate is properly signed by CA" "success"
     | NotVerified => log "Server Certificate verification failed" "error"
     | VerifyThrows msg => log ("Certificate verification error: " +:+ msg) "error"
     end;;
     if ((notBefore serverCert <? now e) && (now e <? notAfter serverCert))%Z
     then log "Server Certificate is within validity period" "success"
     else log "Server Certificate is not valid at current date" "error")
    (fun error_message =>
       log ("Certificate validation error: " +:+ error_message) "error").

(** [re.test(s)] for a pattern that must match somewhere: [here] says
    whether it matches at the start of a text. *)
Fixpoint search (here : string -> bool) (s : string) : bool :=
  here s ||
  match s with
  | EmptyString => false
  | String _ rest => search here rest
  end.

(** The white space of [\s], as it is encoded in a text read as UTF-8:
    the ASCII blanks (tab to carriage return, and the space), the
    no-break space on two bytes, and on three bytes U+1680, U+2000 to
    U+200A, U+2028, U+2029, U+202F, U+205F, U+3000 and U+FEFF. *)
Definition ascii_space (c : Ascii.ascii) : bool :=
  let n := Ascii.nat_of_ascii c in
  (Nat.leb 9 n && Nat.leb n 13) || Nat.eqb n 32.

Definition space2 (c1 c2 : Ascii.ascii) : bool :=
  Nat.eqb (Ascii.nat_of_ascii c1) 194 && Nat.eqb (Ascii.nat_of_ascii c2) 160.

Definition space3 (c1 c2 c3 : Ascii.ascii) : bool :=
  let n1 := Ascii.nat_of_ascii c1 in
  let n2 := Ascii.nat_of_ascii c2 in
  let n3 := Ascii.nat_of_ascii c3 in
  (Nat.eqb n1 225 && Nat.eqb n2 154 && Nat.eqb n3 128)
  || (Nat.eqb n1 226 && Nat.eqb n2 128
      && ((Nat.leb 128 n3 && Nat.leb n3 138)
          || Nat.eqb n3 168 || Nat.eqb n3 169 || Nat.eqb n3 175))
  || (Nat.eqb n1 226 && Nat.eqb n2 129 && Nat.eqb n3 159)
  || (Nat.eqb n1 227 && Nat.eqb n2 128 && Nat.eqb n3 128)
  || (Nat.eqb n1 239 && Nat.eqb n2 187 && Nat.eqb n3 191).

(** [\s*true] at the start of a text. *)
Fixpoint spaces_then_true (s : string) : bool :=
  String.prefix "true" s ||
  match s with
  | EmptyString => false
  | String c1 r1 =>
      if ascii_space c1 then spaces_then_true r1
      else
        match r1 with
        | EmptyString => false
        | String c2 r2 =>
            if space2 c1 c2 then spaces_then_true r2
            else
              match r2 with
              | EmptyString => false
              | String c3 r3 =>
                  if space3 c1 c2 c3 then spaces_then_true r3 else false
              end
        end
  end.

(** The text after [lit] when [s] starts with [lit]. *)
Fixpoint after (lit s : string) : option string :=
  match lit, s with
  | EmptyString, _ => Some s
  | String a lit', String b s' => if Ascii.eqb a b then after lit' s' else None
  | String _ _, EmptyString => None
  end.

(** [/setting:\s*true/.test(s)] *)
Definition test_setting (setting : string) (s : string) : bool :=
  search (fun t => match after (setting +:+ ":") t with
                   | Some rest => spaces_then_true rest
                   | None => false
                   end) s.

(** [/lit/.test(s)] for a pattern without operators. *)
Definition test_literal (lit : string) (s : string) : bool :=
  search (String.prefix lit) s.

Definition checks : list ((string -> bool) * string) :=
  [(test_setting "requestCert", "Client certificate request enabled");
   (test_setting "rejectUnauthorized", "Unauthorized clients rejected");
   (test_literal "express.json", "JSON body parser configured");
   (test_literal "/api/protected", "Protected endpoint defined")].

(** The body of the [forEach] of [checkServerConfiguration]. *)
Definition runCheck (serverFile : string) (check : (string -> bool) * string) : D unit :=
  if fst check serverFile
  then log (snd check) "success"
  else log ("Missing configuration: " +:+ snd check) "error".

Definition checkServerConfiguration : D unit :=
  console_log (nl +:+ "3. Checking Server Configuration:" +:+ nl);;
  try_catch
    (serverFile ← readFileSync e (path_join (__dirname e) "server.js");
     forEach (runCheck serverFile) checks)
    (fun error_message =>
       log ("Server configuration check error: " +:+ error_message) "error").

(** [testServerAccess()]: the value tells whether the promise was
    resolved. *)
Definition testServerAccess (port : Z) : D bool :=
  console_log (nl +:+ "4. Testing Server Accessibility:" +:+ nl);;
  match request e port with
  | Responded statusCode =>
      log ("Server responded with status: " +:+ pretty statusCode)
          (if (statusCode =? 200)%Z then "success" else "warning");;
      mret true
  | RequestError msg =>
      log ("Server access error: " +:+ msg) "error";;
      mret true
  | RequestThrows msg =>
      log ("Server test error: " +:+ msg) "error";;
      mret true
  | NoAnswer => mret false
  end.

(** [this.results.filter(r => r.type === t)] *)
Definition of_type (t : string) (rs : list entry) : list entry :=
  List.filter (fun r => String.eqb (type r) t) rs.

Definition printSummary : D unit := fun st =>
  let success := length (of_type "success" (results st)) in
  let error := length (of_type "error" (results st)) in
  let warning := length (of_type "warning" (results st)) in
  (console_log (nl +:+ "=== Diagnostic Summary ===" +:+ nl);;
   console_log ("Passed: " +:+ pretty success);;
   console_log ("Failed: " +:+ pretty error);;
   console_log ("Warnings: " +:+ pretty warning);;
   (if Nat.ltb 0 error then
      console_log (nl +:+ "Required Actions:");;
      forEach (fun r => console_log ("- " +:+ message r)) (of_type "error" (results st))
    else mret tt);;
   (if Nat.ltb 0 warning then
      console_log (nl +:+ "Recommendations:");;
      forEach (fun r => console_log ("- " +:+ message r)) (of_type "warning" (results st))
    else mret tt)) st.

(** [runDiagnostics()]: the value tells whether it ran to its end. *)
Definition runDiagnostics (port : Z) : D bool :=
  console_log (nl +:+ "=== Starting Server Diagnostics ===" +:+ nl);;
  checkRequiredFiles;;
  validateCertificates;;
  checkServerConfiguration;;
  testServerAccess port ≫= fun resolved : bool =>
  if resolved then printSummary;; mret true else mret false.

End Script.

(** [new ServerDiagnostics()]: the default port and no results. *)
Definition default_port : Z := 3443.
Definition fresh : state := {| console := []; results := [] |}.

(** The script: [new ServerDiagnostics().runDiagnostics()]. *)
Definition script (e : env) : outcome bool * state := runDiagnostics e default_port fresh.

End Diagnostics.

(** ** Notions used in the properties of the diagnostics *)

(** The state after more lines and more results. *)
Definition grow (st : Diagnostics.state) (lines : list string)
    (entries : list Diagnostics.entry) : Diagnostics.state :=
  {| Diagnostics.console := Diagnostics.console st ++ lines;
     Diagnostics.results := Diagnostics.results st ++ entries |}.

(** The four types the script gives its entries. *)
Definition known (r : Diagnostics.entry) : Prop :=
  In (Diagnostics.type r) ["success"; "error"; "warning"; "info"].


Definition appends {A} (m : Diagnostics.D A) : Prop :=
  forall st, exists a lines entries,
    m st = (Diagnostics.Returned a, grow st lines entries) /\ Forall known entries.

(** Whether a mode lets the group or the others read the file. *)
Definition readable_by_others (mode : Z) : bool :=
  Z.testbit mode 2 || Z.testbit mode 5.

(** What [checkRequiredFiles] records for one file. *)
Definition file_report (e : Diagnostics.env) (file : string * string)
    : list Diagnostics.entry :=
  let path := fst file in
  let description := snd file in
  match Diagnostics.files e !! Diagnostics.path_join (Diagnostics.__dirname e) path with
  | None =>
      [{| Diagnostics.message :=
            description +:+ " (" +:+ path +:+ ") is missing: "
            +:+ "ENOENT: no such file or directory, access " +:+ Diagnostics.sq
            +:+ Diagnostics.path_join (Diagnostics.__dirname e) path +:+ Diagnostics.sq;
          Diagnostics.type := "error" |}]
  | Some f =>
      {| Diagnostics.message := description +:+ " (" +:+ path +:+ ") exists";
         Diagnostics.type := "success" |}
      :: (if String.eqb path "server_key.pem" && readable_by_others (Diagnostics.mode f)
          then [{| Diagnostics.message :=
                     path +:+ " has too open permissions: "
                     +:+ Diagnostics.octal (Z.to_N (Z.land (Diagnostics.mode f) 511));
                   Diagnostics.type := "warning" |}]
          else [])
  end.

(** A text made of white space only: a sequence of the characters [\s]
    stands for, in their UTF-8 form. *)
Inductive blank : string -> Prop :=
| blank_empty : blank EmptyString
| blank_ascii c rest :
    Diagnostics.ascii_space c = true -> blank rest -> blank (String c rest)
| blank_two c1 c2 rest :
    Diagnostics.space2 c1 c2 = true -> blank rest -> blank (String c1 (String c2 rest))
| blank_three c1 c2 c3 rest :
    Diagnostics.space3 c1 c2 c3 = true -> blank rest ->
    blank (String c1 (String c2 (String c3 rest))).

(** The text that reading a file of the script's directory gives. *)
Definition readable (e : Diagnostics.env) (name text : string) : Prop :=
  exists f,
    Diagnostics.files e !! Diagnostics.path_join (Diagnostics.__dirname e) name = Some f
    /\ Diagnostics.text f = Some text.

(** The certificate that a file of the script's directory holds. *)
Definition holds_certificate (e : Diagnostics.env) (name : string)
    (cert : Diagnostics.certificate) : Prop :=
  exists pem, readable e name pem /\ Diagnostics.certificateFromPem e pem = inl cert.

(** Entries by type. *)
Definition passed (msg : string) : Diagnostics.entry :=
  {| Diagnostics.message := msg; Diagnostics.type := "success" |}.
Definition failed (msg : string) : Diagnostics.entry :=
  {| Diagnostics.message := msg; Diagnostics.type := "error" |}.
Definition noted (msg : string) : Diagnostics.entry :=
  {| Diagnostics.message := msg; Diagnostics.type := "info" |}.

(** A text in which [setting:] is followed by [true], with nothing but
    white space in between; and a text in which [lit] occurs. *)
Definition set_to_true (setting s : string) : Prop :=
  exists pre ws post,
    blank ws /\ s = pre +:+ setting +:+ ":" +:+ ws +:+ "true" +:+ post.

Definition occurs (lit s : string) : Prop :=
  exists pre post, s = pre +:+ lit +:+ post.

(** The entry of a configuration check on a property [P] of the text. *)
Definition check_entry (P : Prop) (msg : string) (r : Diagnostics.entry) : Prop :=
  (P /\ r = passed msg) \/ (~ P /\ r = failed ("Missing configuration: " +:+ msg)).

(** The first extension called [basicConstraints] is marked as a CA. *)
Definition marked_as_ca (cert : Diagnostics.certificate) : Prop :=
  exists before ext rest,
    Diagnostics.extensions cert = before ++ ext :: rest
    /\ Forall (fun x => Diagnostics.name x <> "basicConstraints") before
    /\ Diagnostics.name ext = "basicConstraints"
    /\ Diagnostics.cA ext = true.

(** The entry for the signature of the server's certificate. *)
Definition signature_entry (v : Diagnostics.verdict) : Diagnostics.entry :=
  match v with
  | Diagnostics.Verified => passed "Server Certificate is properly signed by CA"
  | Diagnostics.NotVerified => failed "Server Certificate verification failed"
  | Diagnostics.VerifyThrows msg => failed ("Certificate verification error: " +:+ msg)
  end.

(** Sample surroundings for the diagnostics: a directory with the three
    PEM files and [server.js], and an empty one. *)
Module Checkup.

Definition authority : Diagnostics.certificate :=
  {| Diagnostics.subject_CN := Some "Mock CA";
     Diagnostics.extensions :=
       [{| Diagnostics.name := "keyUsage"; Diagnostics.cA := false |};
        {| Diagnostics.name := "basicConstraints"; Diagnostics.cA := true |}];
     Diagnostics.notBefore := 1700000000000;
     Diagnostics.notAfter := 1900000000000 |}.

Definition leaf : Diagnostics.certificate :=
  {| Diagnostics.subject_CN := Some "localhost";
     Diagnostics.extensions := [];
     Diagnostics.notBefore := 1700000000000;
     Diagnostics.notAfter := 1800000000000 |}.

(** A certificate whose subject has no CN. *)
Definition nameless : Diagnostics.certificate :=
  {| Diagnostics.subject_CN := None;
     Diagnostics.extensions := [];
     Diagnostics.notBefore := 1700000000000;
     Diagnostics.notAfter := 1800000000000 |}.

Definition parser (pem : string) : Diagnostics.certificate + string :=
  if String.eqb pem "CA PEM" then inl authority
  else if String.eqb pem "SERVER PEM" then inl leaf
  else if String.eqb pem "NAMELESS PEM" then inl nameless
  else inr "Invalid PEM formatted message.".

Definition plain (mode : Z) (text : string) : Diagnostics.file :=
  {| Diagnostics.mode := mode; Diagnostics.text := Some text |}.

Definition server_js : string :=
  "const options = { requestCert: true, rejectUnauthorized:  true };".

Definition directory : gmap string Diagnostics.file :=
  <["/srv/server_key.pem" := plain 33188 "KEY PEM"]>
  (<["/srv/server_cert.pem" := plain 33188 "SERVER PEM"]>
  (<["/srv/ca_cert.pem" := plain 33188 "CA PEM"]>
  (<["/srv/server.js" := plain 33188 server_js]> ∅))).

Definition surroundings (files : gmap string Diagnostics.file) (answer : Diagnostics.probe)
    : Diagnostics.env :=
  {| Diagnostics.__dirname := "/srv";
     Diagnostics.files := files;
     Diagnostics.certificateFromPem := parser;
     Diagnostics.verify := fun _ _ => Diagnostics.Verified;
     Diagnostics.now := 1750000000000;
     Diagnostics.null_member_message := "Cannot read properties of null (reading 'value')";
     Diagnostics.request := fun _ => answer |}.

Definition healthy : Diagnostics.env := surroundings directory (Diagnostics.Responded 404).
Definition bare : Diagnostics.env := surroundings ∅ (Diagnostics.RequestError "connect ECONNREFUSED").

(** The directory of [healthy] with a CA certificate without CN. *)
Definition unnamed_authority : Diagnostics.env :=
  surroundings (<["/srv/ca_cert.pem" := plain 33188 "NAMELESS PEM"]> directory)
    (Diagnostics.Responded 200).

End Checkup.

(** A method that returns after printing [lines], the results untouched. *)
Definition emits (m : Diagnostics.D unit) (lines : list string) : Prop :=
  forall st, m st = (Diagnostics.Returned tt, grow st lines []).

(** * Proofs *)

Import Http Runtime.

Ltac unfold_m :=
  unfold mbind, M_bind, mret, M_ret, try_catch, throw, process_exit,
         console_log, console_error, print.

Ltac run_m := unfold_m; simpl.

(** ** The request listeners and the handshake *)

Lemma listener_gated v client rq w r w' :
  requestListener (script_of v) client rq w = (Ok r, w') ->
  serves_authenticated_only r = true ->
  Tls.authorized client = true.
Proof.
  destruct client as [[] c pr ci]; [reflexivity|].
  destruct v; simpl.
  - unfold Part000.app, Part000.cors, Part000.root; run_m.
    destruct (String.eqb (method rq) "OPTIONS"); [|destruct (get_route_matches "/" rq)];
      injection 1 as <- <-; discriminate.
  - unfold Part001.app, Part001.cors, Part001.root; run_m.
    destruct (String.eqb (method rq) "OPTIONS"); [|destruct (get_route_matches "/" rq)];
      injection 1 as <- <-; discriminate.
  - unfold Copy.requestListener; run_m. injection 1 as <- <-; discriminate.
Qed.

Lemma handshake_authorized sv h s :
  Https.handshake sv h = Https.Established s ->
  Tls.authorized s = true ->
  exists c, Tls.ch_cert h = Tls.Certificate c true /\ Tls.peer s = c.
Proof.
  unfold Https.handshake.
  destruct ((_ <? _)%Z || _); [discriminate|].
  destruct (Https.select_cipher sv h); [|discriminate].
  cbv zeta.
  destruct (Tls.requestCert (Https.sv_options sv)), (Tls.ch_cert h) as [| |c []],
    (Tls.rejectUnauthorized (Https.sv_options sv));
    intros H; inversion H; subst; clear H; simpl; intros; try discriminate; eauto.
Qed.

(** ** Callbacks and events *)

Lemma callback_cases {A} sc p (m : M A) (k : A -> proc -> proc) :
  (exists a w', m (p_world p) = (Ok a, w') /\ callback sc p m k = k a (with_world p w'))
  \/ (p_conns (callback sc p m k) = p_conns p
      /\ p_sent (callback sc p m k) = p_sent p
      /\ p_server (callback sc p m k) = p_server p
      /\ p_bound (callback sc p m k) = p_bound p).
Proof.
  unfold callback. destruct (m (p_world p)) as [[a|err|c] w'].
  - left; eauto.
  - right. unfold uncaught. destruct (onUncaughtException sc) as [handler|]; [|done].
    simpl. by destruct (handler err w') as [[?|?|?] ?].
  - right; done.
Qed.

Lemma callback_frame {A} sc p (m : M A) :
  let q := callback sc p m (fun _ q => q) in
  p_conns q = p_conns p /\ p_sent q = p_sent p
  /\ p_server q = p_server p /\ p_bound q = p_bound p.
Proof.
  destruct (callback_cases sc p m (fun _ q => q)) as [(a & w' & _ & E)|H]; [|exact H].
  simpl. by rewrite E.
Qed.

Lemma settle_frame p :
  p_conns (settle p) = p_conns p /\ p_sent (settle p) = p_sent p
  /\ p_server (settle p) = p_server p /\ p_bound (settle p) = p_bound p.
Proof.
  unfold settle. destruct (p_status p); [|done].
  destruct (p_bound p) eqn:B; [by rewrite B|].
  case_bool_decide; simpl; by rewrite ?B.
Qed.

Lemma dispatch_open sc p ev id s :
  p_conns (dispatch sc p ev) !! id = Some (Open s) ->
  p_conns p !! id = Some (Open s)
  \/ exists h sv port, ev = Hello id h /\ p_server p = Some (sv, port)
                       /\ Https.handshake sv h = Https.Established s.
Proof.
  unfold dispatch.
  destruct (p_status p); [|by left].
  destruct (p_server p) as [[sv port]|]; [|by left].
  destruct ev as [|err|id' h|id' rq|id'].
  - destruct (p_bound p); [by left|].
    destruct (callback_frame sc (with_bound p) (onListening sc)) as (-> & _). by left.
  - destruct (settle_frame (callback sc p (onError sc err) (fun _ q => q))) as (-> & _).
    destruct (callback_frame sc p (onError sc err)) as (-> & _). by left.
  - destruct (p_bound p && bool_decide (p_conns p !! id' = None)) eqn:G; [|by left].
    apply andb_true_iff in G as [_ G]. apply bool_decide_eq_true in G.
    destruct (Https.handshake sv h) as [s'|f s'] eqn:Hh.
    + assert (p_conns (with_conn p id' (Open s')) !! id = Some (Open s) ->
              p_conns p !! id = Some (Open s)
              \/ exists h0 sv0 port0, Hello id' h = Hello id h0
                    /\ Some (sv, port) = Some (sv0, port0)
                    /\ Https.handshake sv0 h0 = Https.Established s) as K.
      { simpl. destruct (decide (id' = id)) as [->|Hne].
        - rewrite lookup_insert_eq. intros [= ->]. right. by exists h, sv, port.
        - rewrite lookup_insert_ne by done. by left. }
      destruct (onSecureConnection sc) as [handler|]; [|exact K].
      destruct (callback_frame sc (with_conn p id' (Open s')) (handler s')) as (-> & _).
      exact K.
    + destruct (callback_frame sc (with_conn p id' Closed)
                  (onTlsClientError sc (Tls.failure_error f) (Some s'))) as (-> & _).
      simpl. destruct (decide (id' = id)) as [->|Hne].
      * by rewrite lookup_insert_eq.
      * rewrite lookup_insert_ne by done. by left.
  - destruct (p_conns p !! id') as [[s'|]|] eqn:L; try by left.
    destruct (callback_cases sc p (requestListener sc s' rq) (fun r q => with_sent q id' r))
      as [(a & w' & _ & ->)|(-> & _)]; by left.
  - destruct (p_conns p !! id') as [[s'|]|] eqn:L; try by left.
    simpl. destruct (decide (id' = id)) as [->|Hne].
    + by rewrite lookup_insert_eq.
    + rewrite lookup_insert_ne by done. by left.
Qed.

Lemma dispatch_sent sc p ev id r :
  In (id, r) (p_sent (dispatch sc p ev)) ->
  In (id, r) (p_sent p)
  \/ exists rq s w w', ev = Request id rq /\ p_conns p !! id = Some (Open s)
                       /\ requestListener sc s rq w = (Ok r, w').
Proof.
  unfold dispatch.
  destruct (p_status p); [|by left].
  destruct (p_server p) as [[sv port]|]; [|by left].
  destruct ev as [|err|id' h|id' rq|id'].
  - destruct (p_bound p); [by left|].
    destruct (callback_frame sc (with_bound p) (onListening sc)) as (_ & -> & _). by left.
  - destruct (settle_frame (callback sc p (onError sc err) (fun _ q => q))) as (_ & -> & _).
    destruct (callback_frame sc p (onError sc err)) as (_ & -> & _). by left.
  - destruct (p_bound p && bool_decide (p_conns p !! id' = None)); [|by left].
    destruct (Https.handshake sv h) as [s'|f s'].
    + destruct (onSecureConnection sc) as [handler|]; [|by left].
      destruct (callback_frame sc (with_conn p id' (Open s')) (handler s')) as (_ & -> & _).
      by left.
    + destruct (callback_frame sc (with_conn p id' Closed)
                  (onTlsClientError sc (Tls.failure_error f) (Some s'))) as (_ & -> & _).
      by left.
  - destruct (p_conns p !! id') as [[s'|]|] eqn:L; try by left.
    destruct (callback_cases sc p (requestListener sc s' rq) (fun r q => with_sent q id' r))
      as [(a & w' & E & ->)|(_ & -> & _)]; [|by left].
    simpl. rewrite in_app_iff. intros [H|[[= <- <-]|[]]]; [by left|].
    right. eauto 10.
  - destruct (p_conns p !! id') as [[s'|]|]; by left.
Qed.

Lemma dispatch_server sc p ev : p_server (dispatch sc p ev) = p_server p.
Proof.
  unfold dispatch.
  destruct (p_status p); [|done].
  destruct (p_server p) as [[sv port]|] eqn:S; [|done].
  destruct ev as [|err|id' h|id' rq|id'].
  - destruct (p_bound p); [done|].
    by destruct (callback_frame sc (with_bound p) (onListening sc)) as (_ & _ & -> & _).
  - destruct (settle_frame (callback sc p (onError sc err) (fun _ q => q))) as (_ & _ & -> & _).
    by destruct (callback_frame sc p (onError sc err)) as (_ & _ & -> & _).
  - destruct (p_bound p && bool_decide (p_conns p !! id' = None)); [|done].
    destruct (Https.handshake sv h) as [s'|f s'].
    + destruct (onSecureConnection sc) as [handler|]; [|done].
      by destruct (callback_frame sc (with_conn p id' (Open s')) (handler s')) as (_ & _ & -> & _).
    + by destruct (callback_frame sc (with_conn p id' Closed)
                  (onTlsClientError sc (Tls.failure_error f) (Some s'))) as (_ & _ & -> & _).
  - destruct (p_conns p !! id') as [[s'|]|]; try done.
    destruct (callback_cases sc p (requestListener sc s' rq) (fun r q => with_sent q id' r))
      as [(a & w' & E & ->)|(_ & _ & -> & _)]; done.
  - destruct (p_conns p !! id') as [[s'|]|]; done.
Qed.

Lemma dispatch_closed sc p ev id :
  p_conns p !! id = Some Closed -> p_conns (dispatch sc p ev) !! id = Some Closed.
Proof.
  intros C. unfold dispatch.
  destruct (p_status p); [|done].
  destruct (p_server p) as [[sv port]|]; [|done].
  destruct ev as [|err|id' h|id' rq|id'].
  - destruct (p_bound p); [done|].
    by destruct (callback_frame sc (with_bound p) (onListening sc)) as (-> & _).
  - destruct (settle_frame (callback sc p (onError sc err) (fun _ q => q))) as (-> & _).
    by destruct (callback_frame sc p (onError sc err)) as (-> & _).
  - destruct (p_bound p && bool_decide (p_conns p !! id' = None)) eqn:G; [|done].
    apply andb_true_iff in G as [_ G]. apply bool_decide_eq_true in G.
    assert (id' <> id) as Hne by congruence.
    destruct (Https.handshake sv h) as [s'|f s'].
    + destruct (onSecureConnection sc) as [handler|].
      * destruct (callback_frame sc (with_conn p id' (Open s')) (handler s')) as (-> & _).
        simpl. by rewrite lookup_insert_ne.
      * simpl. by rewrite lookup_insert_ne.
    + destruct (callback_frame sc (with_conn p id' Closed)
                  (onTlsClientError sc (Tls.failure_error f) (Some s'))) as (-> & _).
      simpl. by rewrite lookup_insert_ne.
  - destruct (p_conns p !! id') as [[s'|]|]; try done.
    destruct (callback_cases sc p (requestListener sc s' rq) (fun r q => with_sent q id' r))
      as [(a & w' & E & ->)|(-> & _)]; done.
  - destruct (p_conns p !! id') as [[s'|]|] eqn:L; try done.
    assert (id' <> id) as Hne by congruence.
    simpl. by rewrite lookup_insert_ne.
Qed.

(** ** Paths *)

Lemma length_app_string (a s : string) :
  String.length (a +:+ s) = String.length a + String.length s.
Proof. induction a as [|c a IH]; simpl; [done | by rewrite IH]. Qed.

Lemma app_string_assoc (a b c : string) : (a +:+ b) +:+ c = a +:+ (b +:+ c).
Proof. induction a as [|x a IH]; [done | exact (f_equal (String x) IH)]. Qed.

Lemma suffix_inj (a b s t : string) :
  String.length s = String.length t -> a +:+ s = b +:+ t -> s = t.
Proof.
  intros L. revert b. induction a as [|x a IH]; intros [|y b] E; simpl in E.
  - done.
  - apply (f_equal String.length) in E. rewrite ?length_app_string in E.
    simpl in E. rewrite ?length_app_string in E. lia.
  - apply (f_equal String.length) in E. rewrite ?length_app_string in E.
    simpl in E. rewrite ?length_app_string in E. lia.
  - injection E as _ E. by apply (IH b).
Qed.

Lemma generated_key_is_not_ca e : path_resolve (cwd e) "server_key.pem" <> ca_path e.
Proof.
  unfold ca_path, path_resolve. intros E.
  assert ((cwd e +:+ "/se") +:+ "rver_key.pem" = __dirname e +:+ "/ca_cert.pem") as E'
    by (rewrite app_string_assoc; exact E).
  by apply suffix_inj in E'.
Qed.

Lemma generated_cert_is_not_ca e : path_resolve (cwd e) "server_cert.pem" <> ca_path e.
Proof.
  unfold ca_path, path_resolve. intros E.
  assert ((cwd e +:+ "/ser") +:+ "ver_cert.pem" = __dirname e +:+ "/ca_cert.pem") as E'
    by (rewrite app_string_assoc; exact E).
  by apply suffix_inj in E'.
Qed.

(** ** Loading the certificates *)

Lemma existsSync_eq p w :
  existsSync p w = (Ok (match w_fs w !! p with Some _ => true | None => false end), w).
Proof.
  unfold existsSync. destruct (w_fs w !! p) as [n|].
  - by rewrite bool_decide_eq_true_2.
  - rewrite bool_decide_eq_false_2; [done|]. by intros [? ?].
Qed.

Lemma load_spec e f w :
  exists w', same_disk w w' /\
    Part000.loadCertificate e f w =
      (match w_fs w !! path_resolve (__dirname e) f with
       | Some (File c) => Ok c
       | Some Unreadable => Throw (SystemError "EACCES" (path_resolve (__dirname e) f))
       | None => Throw (Error ("Certificate file not found: " +:+ f))
       end, w').
Proof.
  unfold Part000.loadCertificate, Part000.debugLog. unfold_m. cbv zeta.
  rewrite existsSync_eq. unfold readFileSync. cbn [w_fs].
  destruct (w_fs w !! path_resolve (__dirname e) f) as [[c|]|] eqn:L; cbn;
    rewrite ?L; cbn; eexists; (split; [|reflexivity]); by split.
Qed.

Lemma bind_eq {A B} (m : M A) (f : A -> M B) w r w' :
  m w = (r, w') ->
  (m ≫= f) w = match r with
               | Ok a => f a w'
               | Throw err => (Throw err, w')
               | Halt c => (Halt c, w')
               end.
Proof. unfold mbind, M_bind. intros ->. by destruct r. Qed.

Lemma same_disk_refl w : same_disk w w.
Proof. by split. Qed.

Lemma same_disk_trans w1 w2 w3 : same_disk w1 w2 -> same_disk w2 w3 -> same_disk w1 w3.
Proof. intros [? ?] [? ?]. split; congruence. Qed.

Lemma load_spec_copy e f w :
  exists w', same_disk w w' /\
    Copy.loadCertificate e f w =
      (match w_fs w !! path_resolve (__dirname e) f with
       | Some (File c) => Ok c
       | Some Unreadable => Throw (SystemError "EACCES" (path_resolve (__dirname e) f))
       | None => Throw (SystemError "ENOENT" (path_resolve (__dirname e) f))
       end, w').
Proof.
  unfold Copy.loadCertificate, Copy.debugLog. unfold_m. unfold readFileSync.
  destruct (w_fs w !! path_resolve (__dirname e) f) as [[c|]|] eqn:L; cbn;
    eexists; (split; [|reflexivity]); by split.
Qed.

Lemma loads000 e : loads (Part000.loadCertificate e) e.
Proof.
  intros f w. destruct (load_spec e f w) as (w' & D & E).
  eexists _, _. split; [exact D|]. split; [exact E|].
  destruct (w_fs w !! _) as [[c|]|]; repeat split; intros; simplify_eq; eauto.
Qed.

Lemma loads001 e : loads (Part001.loadCertificate e) e.
Proof. exact (loads000 e). Qed.

Lemma loads_copy e : loads (Copy.loadCertificate e) e.
Proof.
  intros f w. destruct (load_spec_copy e f w) as (w' & D & E).
  eexists _, _. split; [exact D|]. split; [exact E|].
  destruct (w_fs w !! _) as [[c|]|]; repeat split; intros; simplify_eq; eauto.
Qed.

(** Three loads in a row, the last one of the CA certificate. *)
Lemma three_loads_without_ca {B} load e (k : string -> string -> string -> M B) w :
  loads load e ->
  w_fs w !! ca_path e = None ->
  exists err w', same_disk w w' /\
    (key ← load "server_key.pem"; cert ← load "server_cert.pem";
     ca ← load "ca_cert.pem"; k key cert ca) w = (Throw err, w').
Proof.
  intros L Hca.
  destruct (L "server_key.pem" w) as (w1 & r1 & D1 & E1 & _ & _ & N1).
  rewrite (bind_eq _ _ _ _ _ E1).
  destruct r1 as [key|err|c]; [|by eauto|by destruct (N1 c)].
  destruct (L "server_cert.pem" w1) as (w2 & r2 & D2 & E2 & _ & _ & N2).
  rewrite (bind_eq _ _ _ _ _ E2).
  destruct r2 as [cert|err|c];
    [|by eauto using same_disk_trans|by destruct (N2 c)].
  destruct (L "ca_cert.pem" w2) as (w3 & r3 & D3 & E3 & T3 & _ & _).
  rewrite (bind_eq _ _ _ _ _ E3).
  destruct T3 as [err ->].
  { destruct D1 as [F1 _], D2 as [F2 _]. rewrite F2, F1. exact Hca. }
  eauto 6 using same_disk_trans.
Qed.

Lemma three_loads_quiet {B} load e (k : string -> string -> string -> B) w :
  loads load e ->
  exists r w', same_disk w w' /\
    (key ← load "server_key.pem"; cert ← load "server_cert.pem";
     ca ← load "ca_cert.pem"; mret (k key cert ca)) w = (r, w')
    /\ (forall c, r <> Halt c)
    /\ (forall kk cc aa,
          w_fs w !! key_path e = Some (File kk) ->
          w_fs w !! cert_path e = Some (File cc) ->
          w_fs w !! ca_path e = Some (File aa) ->
          r = Ok (k kk cc aa))
    /\ (forall o, r = Ok o -> exists kk cc aa, o = k kk cc aa).
Proof.
  intros L.
  destruct (L "server_key.pem" w) as (w1 & r1 & D1 & E1 & _ & O1 & N1).
  rewrite (bind_eq _ _ _ _ _ E1).
  destruct r1 as [key|err|c]; [| |by destruct (N1 c)].
  2:{ exists (Throw err), w1. split; [exact D1|]. split; [reflexivity|]. split; [done|].
      split; [|done]. intros kk cc aa K. by specialize (O1 _ K). }
  destruct (L "server_cert.pem" w1) as (w2 & r2 & D2 & E2 & _ & O2 & N2).
  rewrite (bind_eq _ _ _ _ _ E2).
  assert (w_fs w1 = w_fs w) as F1 by apply D1.
  destruct r2 as [cert|err|c]; [| |by destruct (N2 c)].
  2:{ exists (Throw err), w2. split; [exact (same_disk_trans _ _ _ D1 D2)|].
      split; [reflexivity|]. split; [done|]. split; [|done].
      intros kk cc aa _ C. rewrite <- F1 in C. by specialize (O2 _ C). }
  destruct (L "ca_cert.pem" w2) as (w3 & r3 & D3 & E3 & _ & O3 & N3).
  rewrite (bind_eq _ _ _ _ _ E3).
  assert (w_fs w2 = w_fs w) as F2 by (destruct D2 as [-> _]; exact F1).
  pose proof (same_disk_trans _ _ _ (same_disk_trans _ _ _ D1 D2) D3) as D.
  destruct r3 as [ca|err|c]; [| |by destruct (N3 c)].
  2:{ exists (Throw err), w3. split; [exact D|]. split; [reflexivity|]. split; [done|].
      split; [|done]. intros kk cc aa _ _ A. rewrite <- F2 in A. by specialize (O3 _ A). }
  eexists _, _. split; [exact D|]. split; [reflexivity|]. split; [done|].
  split; [|intros o [= <-]; eauto].
  intros kk cc aa K C A.
  rewrite <- F1 in C. rewrite <- F2 in A.
  specialize (O1 _ K). specialize (O2 _ C). specialize (O3 _ A). by simplify_eq.
Qed.

(** ** Generation *)

Lemma keyout_of_command :
  arg_after "-keyout" (shell_words generation_command) = Some "server_key.pem".
Proof. reflexivity. Qed.

Lemma out_of_command :
  arg_after "-out" (shell_words generation_command) = Some "server_cert.pem".
Proof. reflexivity. Qed.

Lemma generate_spec e w :
  Part001.generateCertificate e Part001.keyFile Part001.certFile w =
    match openssl e with
    | Succeeds key_pem cert_pem => (Ok tt, generated e w key_pem cert_pem)
    | Fails status => (Throw (ExecError generation_command status), generation_failed w status)
    | Aborts key_pem status =>
        (Throw (ExecError generation_command status), generation_aborted e w key_pem status)
    end.
Proof.
  unfold Part001.generateCertificate, Part001.debugLog, execSync. unfold_m. cbv zeta.
  fold generation_command. rewrite keyout_of_command, out_of_command.
  destruct (openssl e); reflexivity.
Qed.

Lemma ensure_spec e w :
  Part001.ensureCertificate e w =
    match w_fs w !! key_path e, w_fs w !! cert_path e with
    | Some _, Some _ => (Ok tt, w)
    | _, _ => Part001.generateCertificate e Part001.keyFile Part001.certFile w
    end.
Proof.
  unfold Part001.ensureCertificate. unfold_m. rewrite !existsSync_eq.
  unfold key_path, cert_path, Part001.keyFile, Part001.certFile.
  by destruct (w_fs w !! _), (w_fs w !! _).
Qed.

Lemma options_spec_of load e build :
  loads load e ->
  options_spec (key ← load "server_key.pem"; cert ← load "server_cert.pem";
                ca ← load "ca_cert.pem"; mret (build key cert ca)) build e.
Proof.
  intros L w.
  destruct (three_loads_quiet load e build w L) as (r & w' & D & E & N & O & I).
  exists r, w'. repeat (split; [assumption|]).
  intros Hca.
  destruct (three_loads_without_ca load e (fun k c a => mret (build k c a)) w L Hca)
    as (err & w'' & _ & E').
  rewrite E in E'. injection E' as -> _. eauto.
Qed.

Lemma options000_spec e : options_spec (Part000.options e) express_options e.
Proof. exact (options_spec_of _ e express_options (loads000 e)). Qed.

Lemma options001_spec e : options_spec (Part001.options e) express_options e.
Proof. exact (options_spec_of _ e express_options (loads001 e)). Qed.

Lemma options_copy_spec e : options_spec (Copy.options e) copy_options e.
Proof. exact (options_spec_of _ e copy_options (loads_copy e)). Qed.

Lemma bootstrap_disk e w :
  same_disk (snd (Part001.ensureCertificate e w)) (snd (Part001.bootstrap e w)).
Proof.
  unfold Part001.bootstrap.
  destruct (Part001.ensureCertificate e w) as [r w1] eqn:E.
  rewrite (bind_eq _ _ _ _ _ E). simpl.
  destruct r as [[]|err|c]; try apply same_disk_refl.
  destruct (options001_spec e w1) as (r & w' & D & E' & _).
  rewrite E'. exact D.
Qed.

(** ** Start-up *)

Lemma createServer_express e key cert ca w :
  Https.createServer e (express_options key cert ca) w
  = if secure_context e (express_options key cert ca)
    then (Ok (express_server e (express_options key cert ca)), w)
    else (Throw key_material_refused, w).
Proof.
  unfold Https.createServer. simpl.
  by destruct (secure_context e (express_options key cert ca)).
Qed.

(** The [try { ... } catch] around the two Express scripts. *)
Lemma guarded_start (body : M Tls.options) e (port : Z) w r1 w1 :
  body w = (r1, w1) ->
  (forall c, r1 <> Halt c) ->
  (forall o, r1 = Ok o -> exists key cert ca, o = express_options key cert ca) ->
  try_catch
    (o ← body; server ← Https.createServer e o; mret (server, port))
    (fun error => console_error "Server initialization error:" error;; process_exit 1) w
  = started e port r1 w1.
Proof.
  intros E N I. unfold try_catch. rewrite (bind_eq _ _ _ _ _ E).
  destruct r1 as [o|error|c]; [|reflexivity|by destruct (N c)].
  destruct (I o eq_refl) as (key & cert & ca & ->).
  unfold mbind, M_bind. rewrite createServer_express. simpl.
  by destruct (secure_context e (express_options key cert ca)).
Qed.

Lemma main000_spec e w :
  exists r1 w1, same_disk w w1 /\ Part000.options e w = (r1, w1)
    /\ (forall c, r1 <> Halt c)
    /\ (w_fs w !! ca_path e = None -> exists err, r1 = Throw err)
    /\ Part000.main e w = started e 8446 r1 w1
    /\ (forall o, r1 = Ok o -> exists key cert ca, o = express_options key cert ca).
Proof.
  destruct (options000_spec e w) as (r1 & w1 & D & E & N & _ & I & T).
  exists r1, w1. repeat (split; [assumption|]). split; [|exact I].
  exact (guarded_start _ e _ w r1 w1 E N I).
Qed.

Lemma bootstrap_spec e w :
  exists r0 w0 r1 w1,
    Part001.ensureCertificate e w = (r0, w0)
    /\ same_disk w0 w1
    /\ Part001.bootstrap e w = (r1, w1)
    /\ (forall c, r1 <> Halt c)
    /\ (forall o, r1 = Ok o -> exists key cert ca, o = express_options key cert ca)
    /\ (forall err, r0 = Throw err -> r1 = Throw err /\ w1 = w0)
    /\ (w_fs w0 !! ca_path e = None -> exists err, r1 = Throw err).
Proof.
  destruct (Part001.ensureCertificate e w) as [r0 w0] eqn:E0.
  assert (forall c, r0 <> Halt c) as N0.
  { rewrite ensure_spec in E0.
    destruct (w_fs w !! key_path e), (w_fs w !! cert_path e);
      try rewrite generate_spec in E0; try destruct (openssl e);
      injection E0 as <- _; done. }
  unfold Part001.bootstrap. rewrite (bind_eq _ _ _ _ _ E0).
  destruct r0 as [[]|err|c]; [| |by destruct (N0 c)].
  - destruct (options001_spec e w0) as (r1 & w1 & D & E & N & _ & I & T).
    exists (Ok tt), w0, r1, w1. repeat (split; [done|]). done.
  - exists (Throw err), w0, (Throw err), w0.
    split; [done|]. split; [apply same_disk_refl|]. split; [done|].
    split; [done|]. split; [done|]. split; [by intros ? [= <-]|]. eauto.
Qed.

Lemma main001_spec e w :
  exists r1 w1, Part001.bootstrap e w = (r1, w1)
    /\ Part001.main e w = started e 8446 r1 w1.
Proof.
  destruct (bootstrap_spec e w) as (r0 & w0 & r1 & w1 & _ & _ & E & N & I & _).
  exists r1, w1. split; [exact E|].
  exact (guarded_start _ e _ w r1 w1 E N I).
Qed.

Lemma run_exited sc p evs c : p_status p = Exited c -> run sc p evs = p.
Proof.
  intros H. induction evs as [|ev evs IH]; [done|].
  change (run sc p (ev :: evs)) with (run sc (dispatch sc p ev) evs).
  replace (dispatch sc p ev) with p; [exact IH|].
  unfold dispatch. by rewrite H.
Qed.

Lemma ensure_keeps_ca e w :
  w_fs w !! ca_path e = None ->
  w_fs (snd (Part001.ensureCertificate e w)) !! ca_path e = None.
Proof.
  intros Hca. rewrite ensure_spec.
  destruct (w_fs w !! key_path e), (w_fs w !! cert_path e);
    try rewrite generate_spec; try destruct (openssl e); simpl; try done;
    unfold cert_target, key_target;
    rewrite !lookup_insert_ne; auto using generated_key_is_not_ca, generated_cert_is_not_ca.
Qed.

Lemma must_generate_eq e w :
  must_generate e w =
    match w_fs w !! key_path e, w_fs w !! cert_path e with
    | Some _, Some _ => false
    | _, _ => true
    end.
Proof.
  unfold must_generate.
  destruct (w_fs w !! key_path e), (w_fs w !! cert_path e); simpl;
    rewrite ?(bool_decide_eq_true_2 (is_Some (Some _))) by eauto;
    rewrite ?(bool_decide_eq_false_2 (is_Some None)) by (by intros [? ?]);
    reflexivity.
Qed.

Lemma ensure_world e w :
  snd (Part001.ensureCertificate e w) =
    if must_generate e w then
      match openssl e with
      | Succeeds key_pem cert_pem => generated e w key_pem cert_pem
      | Fails status => generation_failed w status
      | Aborts key_pem status => generation_aborted e w key_pem status
      end
    else w.
Proof.
  rewrite must_generate_eq, ensure_spec.
  destruct (w_fs w !! key_path e), (w_fs w !! cert_path e);
    try rewrite generate_spec; try destruct (openssl e); reflexivity.
Qed.

Lemma bootstrap_execs e w :
  w_execs (snd (Part001.bootstrap e w)) =
    w_execs w ++ (if must_generate e w then [generation_command] else []).
Proof.
  destruct (bootstrap_disk e w) as [_ ->]. rewrite ensure_world.
  destruct (must_generate e w); [|by rewrite app_nil_r].
  by destruct (openssl e).
Qed.

Lemma bootstrap_fs e w :
  w_fs (snd (Part001.bootstrap e w)) =
    if must_generate e w then
      match openssl e with
      | Succeeds key_pem cert_pem =>
          <[cert_target e := File cert_pem]> (<[key_target e := File key_pem]> (w_fs w))
      | Fails _ => w_fs w
      | Aborts key_pem _ => <[key_target e := File key_pem]> (w_fs w)
      end
    else w_fs w.
Proof.
  destruct (bootstrap_disk e w) as [-> _]. rewrite ensure_world.
  destruct (must_generate e w); [|done]. by destruct (openssl e).
Qed.

Lemma run_snoc sc p evs ev : run sc p (evs ++ [ev]) = dispatch sc (run sc p evs) ev.
Proof. unfold run. by rewrite foldl_snoc. Qed.

Lemma run_server sc p evs : p_server (run sc p evs) = p_server p.
Proof.
  induction evs as [|ev evs IH] using rev_ind; [done|].
  by rewrite run_snoc, dispatch_server.
Qed.

Lemma run_closed sc p evs id :
  p_conns p !! id = Some Closed -> p_conns (run sc p evs) !! id = Some Closed.
Proof.
  intros C. induction evs as [|ev evs IH] using rev_ind; [done|].
  rewrite run_snoc. by apply dispatch_closed.
Qed.

Lemma callback_ok {A} sc p (m : M A) k a w' :
  m (p_world p) = (Ok a, w') -> callback sc p m k = k a (with_world p w').
Proof. unfold callback. by intros ->. Qed.

Lemma out_of_bounds_fails sv h :
  (Tls.ch_version h < Https.sv_min sv \/ Https.sv_max sv < Tls.ch_version h)%Z ->
  Https.handshake sv h = Https.Failed Tls.ProtocolMismatch (Https.broken_socket None).
Proof.
  intros B. unfold Https.handshake.
  replace ((Tls.ch_version h <? Https.sv_min sv)%Z || (Https.sv_max sv <? Tls.ch_version h)%Z)
    with true; [done|].
  symmetry. apply orb_true_iff. rewrite !Z.ltb_lt. exact B.
Qed.

(** What a script that started has created. *)
Lemma started_server v e w sv port w' :
  main (script_of v) e w = (Ok (sv, port), w') ->
  exists key cert ca,
    if is_express v
    then sv = express_server e (express_options key cert ca) /\ port = 8446%Z
    else Https.sv_options sv = copy_options key cert ca /\ port = 8443%Z
         /\ Tls.version_code (Tls.DEFAULT_MIN_VERSION (tls e)) = Some (Https.sv_min sv)
         /\ Tls.version_code (Tls.DEFAULT_MAX_VERSION (tls e)) = Some (Https.sv_max sv).
Proof.
  destruct v; simpl.
  - destruct (main000_spec e w) as (r1 & w1 & _ & _ & _ & _ & -> & I).
    unfold started. destruct r1 as [o|?|?]; [|done|done].
    destruct (secure_context e o); intros [= <- <- _].
    destruct (I o eq_refl) as (key & cert & ca & ->). eauto.
  - destruct (bootstrap_spec e w) as (_ & _ & r1 & w1 & _ & _ & E & _ & I & _).
    destruct (main001_spec e w) as (r1' & w1' & E' & ->).
    rewrite E in E'. injection E' as <- <-.
    unfold started. destruct r1 as [o|?|?]; [|done|done].
    destruct (secure_context e o); intros [= <- <- _].
    destruct (I o eq_refl) as (key & cert & ca & ->). eauto.
  - destruct (options_copy_spec e w) as (r & w1 & _ & E & _ & _ & I & _).
    unfold Copy.main. rewrite (bind_eq _ _ _ _ _ E).
    destruct r as [o|?|?]; [|done|done].
    destruct (I o eq_refl) as (key & cert & ca & ->).
    unfold Https.createServer, mbind, M_bind, mret, M_ret, throw. simpl.
    destruct (Tls.version_code (Tls.DEFAULT_MIN_VERSION (tls e))) as [lo|]; [|done].
    destruct (Tls.version_code (Tls.DEFAULT_MAX_VERSION (tls e))) as [hi|]; [|done].
    destruct (secure_context e (copy_options key cert ca)); [|done].
    intros [= <- <- _]. exists key, cert, ca. done.
Qed.

Lemma server_error_logged v err w :
  onError (script_of v) err w =
    (Ok tt, {| w_fs := w_fs w;
               w_console := w_console w ++ [Stderr "Server error:" err];
               w_execs := w_execs w |}).
Proof. by destruct v. Qed.

Lemma tls_error_logged v err s w :
  exists rest,
    onTlsClientError (script_of v) err (Some s) w =
      (Ok tt, {| w_fs := w_fs w;
                 w_console := w_console w ++ Stderr "TLS Client error:" err :: rest;
                 w_execs := w_execs w |}).
Proof.
  destruct v; simpl.
  - unfold Part000.onTlsClientError, Part000.debugLog. run_m.
    destruct (Tls.getProtocol s) as [proto|]; simpl; eexists.
    + by rewrite <- app_assoc.
    + reflexivity.
  - unfold Part001.onTlsClientError, Part001.debugLog. run_m.
    destruct (Tls.getProtocol s) as [proto|]; simpl; eexists.
    + by rewrite <- app_assoc.
    + reflexivity.
  - by exists [].
Qed.

Lemma chain_verified_mono evs ev id :
  chain_verified evs id -> chain_verified (evs ++ [ev]) id.
Proof.
  intros (h & c & I & C). exists h, c. split; [|exact C].
  apply in_app_iff. by left.
Qed.

Lemma gate_invariant_step v evs p ev :
  gate_invariant evs p -> gate_invariant (evs ++ [ev]) (dispatch (script_of v) p ev).
Proof.
  intros [I J]. split.
  - intros id s O A.
    destruct (dispatch_open _ _ _ _ _ O) as [O'|(h & sv & port & -> & _ & HH)].
    + by apply chain_verified_mono, (I id s).
    + destruct (handshake_authorized _ _ _ HH A) as (c & Hc & _).
      exists h, c. split; [|exact Hc]. apply in_app_iff. right. by left.
  - intros id r S A.
    destruct (dispatch_sent _ _ _ _ _ S) as [S'|(rq & s & w & w' & -> & O & L)].
    + by apply chain_verified_mono, (J id r).
    + apply chain_verified_mono, (I id s O). exact (listener_gated v s rq w r w' L A).
Qed.

Lemma gate_invariant_run v e w evs :
  gate_invariant evs (run (script_of v) (boot (script_of v) e w) evs).
Proof.
  induction evs as [|ev evs IH] using rev_ind.
  - unfold run, boot. simpl.
    destruct (main (script_of v) e w) as [[?|?|?] ?]; split; simpl; intros; done.
  - rewrite run_snoc. by apply gate_invariant_step.
Qed.

(** ** Where the child writes and where the script looks *)

Lemma prefix_inj (a b s : string) : a +:+ s = b +:+ s -> a = b.
Proof.
  revert b. induction a as [|x a IH]; intros [|y b] E; simpl in E.
  - done.
  - apply (f_equal String.length) in E. rewrite ?length_app_string in E.
    simpl in E. rewrite ?length_app_string in E. lia.
  - apply (f_equal String.length) in E. rewrite ?length_app_string in E.
    simpl in E. rewrite ?length_app_string in E. lia.
  - injection E as -> E. f_equal. by apply IH.
Qed.

Lemma key_path_is_not_key_target e : cwd e <> __dirname e -> key_path e <> key_target e.
Proof. intros N E. apply N. symmetry. exact (prefix_inj _ _ _ E). Qed.

Lemma cert_path_is_not_cert_target e : cwd e <> __dirname e -> cert_path e <> cert_target e.
Proof. intros N E. apply N. symmetry. exact (prefix_inj _ _ _ E). Qed.

Lemma key_path_is_not_cert_target e : key_path e <> cert_target e.
Proof.
  unfold key_path, cert_target, path_resolve. intros E.
  assert (__dirname e +:+ "/server_key.pem" = (cwd e +:+ "/") +:+ "server_cert.pem") as E'
    by (rewrite app_string_assoc; exact E).
  by apply suffix_inj in E'.
Qed.

Lemma cert_path_is_not_key_target e : cert_path e <> key_target e.
Proof.
  unfold cert_path, key_target, path_resolve. intros E.
  assert ((__dirname e +:+ "/") +:+ "server_cert.pem" = cwd e +:+ "/server_key.pem") as E'
    by (rewrite app_string_assoc; exact E).
  by apply suffix_inj in E'.
Qed.

(** ** The child that [openssl] is on the command of the script *)

Lemma key_target_is_not_cert_target e : key_target e <> cert_target e.
Proof.
  unfold key_target, cert_target, path_resolve. intros E.
  assert (cwd e +:+ "/server_key.pem" = (cwd e +:+ "/") +:+ "server_cert.pem") as E'
    by (rewrite app_string_assoc; exact E).
  by apply suffix_inj in E'.
Qed.

Lemma subject_of_command :
  subject_of generation_command =
    Some ("/C=US/ST=State/L=City/O=Organization/OU=OrgUnit/CN=" +:+ Part001.DOMAIN_NAME).
Proof. reflexivity. Qed.

Lemma subject_is_refused canmulti :
  Openssl.parse_name canmulti
    ("/C=US/ST=State/L=City/O=Organization/OU=OrgUnit/CN=" +:+ Part001.DOMAIN_NAME)
  = inl (Openssl.MissingEquals "/mtlsserver-52a108593257.herokuapp.com").
Proof. destruct canmulti; vm_compute; reflexivity. Qed.

Lemma openssl_refuses_command e :
  child_is_openssl e generation_command ->
  forall key_pem cert_pem, openssl e <> Succeeds key_pem cert_pem.
Proof.
  intros Child key_pem cert_pem O.
  destruct (Child key_pem cert_pem O) as (subj & S & canmulti & pieces & P).
  rewrite subject_of_command in S. injection S as <-.
  by rewrite subject_is_refused in P.
Qed.

Lemma boot001_disk e w :
  w_fs (p_world (boot part001 e w)) = w_fs (snd (Part001.bootstrap e w))
  /\ w_execs (p_world (boot part001 e w)) = w_execs (snd (Part001.bootstrap e w)).
Proof.
  destruct (main001_spec e w) as (r1 & w1 & E & M).
  unfold boot. simpl. rewrite M, E. unfold started. simpl.
  destruct r1 as [o|?|?]; [by destruct (secure_context e o)|done|done].
Qed.

Lemma boot001_after_failure e w w0 err :
  Part001.ensureCertificate e w = (Throw err, w0) ->
  p_status (boot part001 e w) = Exited 1
  /\ p_server (boot part001 e w) = None
  /\ p_world (boot part001 e w) =
       {| w_fs := w_fs w0;
          w_console := w_console w0 ++ [Stderr "Server initialization error:" err];
          w_execs := w_execs w0 |}.
Proof.
  intros E0.
  destruct (bootstrap_spec e w) as (r0 & w0' & r1 & w1 & E0' & _ & E & _ & _ & T & _).
  rewrite E0 in E0'. injection E0' as <- <-.
  destruct (T _ eq_refl) as [-> ->].
  destruct (main001_spec e w) as (r1' & w1' & E' & M).
  rewrite E in E'. injection E' as <- <-.
  unfold boot. simpl. rewrite M. simpl. done.
Qed.

(** * The claims *)

(** C1. In every variant a response meant for authenticated clients is
    produced only for a socket whose [authorized] flag is true; the
    library sets that flag only when the presented chain verified against
    the trust anchor; hence along any run, whatever the events, such a
    response is only ever sent on a connection whose chain of trust was
    verified. *)
Theorem authenticated_only_behind_the_gate v :
  (forall client rq w r w',
      requestListener (script_of v) client rq w = (Ok r, w') ->
      serves_authenticated_only r = true ->
      Tls.authorized client = true)
  /\ (forall sv h s,
        Https.handshake sv h = Https.Established s ->
        Tls.authorized s = true ->
        exists c, Tls.ch_cert h = Tls.Certificate c true /\ Tls.peer s = c)
  /\ (forall e w evs id r,
        In (id, r) (p_sent (run (script_of v) (boot (script_of v) e w) evs)) ->
        serves_authenticated_only r = true ->
        chain_verified evs id).
Proof.
  split; [exact (listener_gated v)|]. split; [exact handshake_authorized|].
  intros e w evs id r S A.
  exact (proj2 (gate_invariant_run v e w evs) id r S A).
Qed.

(** A trusted client connects to the generating variant and asks for the
    root path: its success response is covered by the theorem. *)
Lemma authenticated_only_behind_the_gate_witness :
  chain_verified [Listening; Hello 1 Sample.trusted_hello; Request 1 Sample.get_root] 1.
Proof.
  apply (proj2 (proj2 (authenticated_only_behind_the_gate Generating))
           Sample.e_ok (Sample.disk Sample.all_three) _ 1
           (success_response Sample.test_client)).
  - vm_compute. left. reflexivity.
  - reflexivity.
Defined.

(** C2. On GET / the two Express variants answer an authorized socket
    with status 200 and the success object, whose [clientInfo] holds the
    subject and the issuer of the peer certificate, attribute by
    attribute, and its two dates as they are; and a socket that is not
    authorized with status 401 and the object with status [error] and
    message [Client certificate verification failed]. The two answers
    differ, and the rejection is not a success payload. *)
Theorem root_route_outcome v client w :
  is_express v = true ->
  let rq := {| Http.method := "GET"; Http.path := "/" |} in
  let cert := Tls.getPeerCertificate client in
  let name := fun attrs : option (list (string * string)) =>
    match attrs with
    | Some kv => Http.JObject (map (fun a => (fst a, Http.JString (snd a))) kv)
    | None => Http.JUndefined
    end in
  let date := fun d : option string =>
    match d with
    | Some t => Http.JString t
    | None => Http.JUndefined
    end in
  let success :=
    {| Http.statusCode := 200;
       Http.headers := cors_headers;
       Http.payload :=
         Http.Json (Http.JObject
           [("status", Http.JString "success");
            ("message", Http.JString "mTLS connection successful");
            ("clientInfo",
             Http.JObject [("subject", name (Tls.subject cert));
                           ("issuer", name (Tls.issuer cert));
                           ("valid_from", date (Tls.valid_from cert));
                           ("valid_to", date (Tls.valid_to cert))])]) |} in
  let rejection :=
    {| Http.statusCode := 401;
       Http.headers := cors_headers;
       Http.payload :=
         Http.Json (Http.JObject
           [("status", Http.JString "error");
            ("message", Http.JString "Client certificate verification failed")]) |} in
  fst (requestListener (script_of v) client rq w)
    = Ok (if Tls.authorized client then success else rejection)
  /\ success_response cert = success
  /\ rejection_response = rejection
  /\ success <> rejection
  /\ serves_authenticated_only success = true
  /\ serves_authenticated_only rejection = false.
Proof.
  intros Hv rq cert name date success rejection. split; [|done].
  subst cert. destruct v; try discriminate; destruct client as [[] c pr ci]; reflexivity.
Qed.

(** Both outcomes of the root route for the client certificate
    [CN=TestClient]: the rejection on a socket that is not authorized, and
    on an authorized one the success object with the names and the dates
    of that certificate. *)
Lemma root_route_outcome_witness :
  fst (Part001.app Sample.untrusted_socket Sample.get_root (Sample.disk Sample.all_three))
    = Ok {| Http.statusCode := 401;
            Http.headers := cors_headers;
            Http.payload :=
              Http.Json (Http.JObject
                [("status", Http.JString "error");
                 ("message", Http.JString "Client certificate verification failed")]) |}
  /\ fst (Part000.app Sample.trusted_socket Sample.get_root (Sample.disk Sample.all_three))
    = Ok {| Http.statusCode := 200;
            Http.headers := cors_headers;
            Http.payload :=
              Http.Json (Http.JObject
                [("status", Http.JString "success");
                 ("message", Http.JString "mTLS connection successful");
                 ("clientInfo",
                  Http.JObject
                    [("subject", Http.JObject [("CN", Http.JString "TestClient")]);
                     ("issuer", Http.JObject [("CN", Http.JString "Test CA")]);
                     ("valid_from", Http.JString "Jan  1 00:00:00 2025 GMT");
                     ("valid_to", Http.JString "Jan  1 00:00:00 2026 GMT")])]) |}.
Proof.
  split.
  - exact (proj1 (root_route_outcome Generating Sample.untrusted_socket
                    (Sample.disk Sample.all_three) eq_refl)).
  - exact (proj1 (root_route_outcome Express Sample.trusted_socket
                    (Sample.disk Sample.all_three) eq_refl)).
Defined.

(** C3 (as the code has it). The bootstrap runs the generation command
    exactly when the server key or the server certificate is missing, and
    then runs it once; a child that succeeds writes both the key and the
    certificate, replacing what was at their paths, and a child that fails
    leaves on the disk what it wrote before it failed: nothing, or a new
    key in the place of the old one. When both files exist nothing is run
    and no file changes. *)
Theorem generation_condition e w :
  let w' := snd (Part001.bootstrap e w) in
  (must_generate e w = true <->
     w_fs w !! key_path e = None \/ w_fs w !! cert_path e = None)
  /\ w_execs w' = w_execs w ++ (if must_generate e w then [generation_command] else [])
  /\ w_fs w' =
       if must_generate e w then
         match openssl e with
         | Succeeds key_pem cert_pem =>
             <[cert_target e := File cert_pem]> (<[key_target e := File key_pem]> (w_fs w))
         | Fails _ => w_fs w
         | Aborts key_pem _ => <[key_target e := File key_pem]> (w_fs w)
         end
       else w_fs w.
Proof.
  split; [|split].
  - rewrite must_generate_eq.
    destruct (w_fs w !! key_path e), (w_fs w !! cert_path e);
      split; intros H; try done; auto; by destruct H.
  - apply bootstrap_execs.
  - apply bootstrap_fs.
Qed.

(** C3, counterexample. With the key present and only the certificate
    missing, the generation runs and replaces the existing key: with a
    child that succeeds, and also with the child that [openssl] is on this
    command, which leaves the new key and still no certificate. *)
Lemma generation_overwrites_existing_key :
  let w := Sample.disk Sample.key_and_ca in
  w_fs w !! key_path Sample.e_ok = Some (File Sample.old_key)
  /\ (let w' := snd (Part001.bootstrap Sample.e_ok w) in
      w_execs w' = [generation_command]
      /\ w_fs w' !! key_path Sample.e_ok = Some (File Sample.new_key))
  /\ (let w' := snd (Part001.bootstrap Sample.e_real w) in
      w_execs w' = [generation_command]
      /\ w_fs w' !! key_path Sample.e_real = Some (File Sample.new_key)
      /\ w_fs w' !! cert_path Sample.e_real = None).
Proof. vm_compute. done. Qed.

(** C4 (as the code has it). The two Express variants create their
    listener with minVersion TLSv1.2, maxVersion TLSv1.3 and the explicit
    list of four suites; the copy sets none of the three and gets the
    defaults of the library. For every variant the policy the listener was
    created with stays the same for the whole run, and a connection whose
    version lies outside the listener's bounds fails the handshake. *)
Theorem transport_policy v e w sv port w' :
  main (script_of v) e w = (Ok (sv, port), w') ->
  (if is_express v
   then Tls.minVersion (Https.sv_options sv) = Some "TLSv1.2"
        /\ Tls.maxVersion (Https.sv_options sv) = Some "TLSv1.3"
        /\ Tls.ciphers (Https.sv_options sv) =
             Some "ECDHE-ECDSA-AES128-GCM-SHA256:ECDHE-RSA-AES128-GCM-SHA256:ECDHE-ECDSA-AES256-GCM-SHA384:ECDHE-RSA-AES256-GCM-SHA384"
        /\ Https.sv_min sv = Tls.TLSv1_2
        /\ Https.sv_max sv = Tls.TLSv1_3
        /\ Https.sv_suites sv = express_suites
   else Tls.minVersion (Https.sv_options sv) = None
        /\ Tls.maxVersion (Https.sv_options sv) = None
        /\ Tls.ciphers (Https.sv_options sv) = None
        /\ Tls.version_code (Tls.DEFAULT_MIN_VERSION (tls e)) = Some (Https.sv_min sv)
        /\ Tls.version_code (Tls.DEFAULT_MAX_VERSION (tls e)) = Some (Https.sv_max sv))
  /\ (forall h,
        (Tls.ch_version h < Https.sv_min sv \/ Https.sv_max sv < Tls.ch_version h)%Z ->
        Https.handshake sv h = Https.Failed Tls.ProtocolMismatch (Https.broken_socket None))
  /\ (forall evs,
        p_server (run (script_of v) (boot (script_of v) e w) evs) = Some (sv, port)).
Proof.
  intros Hmain. split; [|split].
  - destruct (started_server v e w sv port w' Hmain) as (key & cert & ca & S).
    destruct (is_express v).
    + destruct S as [-> _]. done.
    + destruct S as (-> & _ & ? & ?). done.
  - apply out_of_bounds_fails.
  - intros evs. rewrite run_server. unfold boot. by rewrite Hmain.
Qed.

(** The Express variant started with all its files refuses TLSv1.1. *)
Lemma transport_policy_witness :
  exists sv,
    Https.sv_min sv = Tls.TLSv1_2 /\ Https.sv_max sv = Tls.TLSv1_3
    /\ Https.handshake sv (Sample.hello Tls.TLSv1_1 (Tls.Certificate Sample.test_client true))
       = Https.Failed Tls.ProtocolMismatch (Https.broken_socket None).
Proof.
  eexists.
  destruct (transport_policy Express Sample.e_ok (Sample.disk Sample.all_three) _ _ _ eq_refl)
    as ((_ & _ & _ & Lo & Hi & _) & F & _).
  split; [exact Lo|]. split; [exact Hi|].
  apply F. left. reflexivity.
Defined.

(** C4, counterexample. The copy names no protocol version: started
    under a runtime whose default minimum is TLSv1, its listener takes a
    TLSv1.1 connection. *)
Lemma copy_listener_accepts_tls11 :
  exists sv w' s,
    Copy.main Sample.e_legacy (Sample.disk Sample.all_three) = (Ok (sv, 8443%Z), w')
    /\ Tls.minVersion (Https.sv_options sv) = None
    /\ Tls.maxVersion (Https.sv_options sv) = None
    /\ Tls.ciphers (Https.sv_options sv) = None
    /\ (Tls.TLSv1_1 < Tls.TLSv1_2)%Z
    /\ Https.handshake sv (Sample.hello Tls.TLSv1_1 (Tls.Certificate Sample.test_client true))
       = Https.Established s.
Proof. vm_compute. eexists _, _, _. repeat split. Qed.

(** C5. When the CA certificate file is absent at start-up, every variant
    ends with exit status 1, no listener is created and no port is ever
    bound, whatever events follow, and the CA file is still absent
    afterwards: nothing generated it. *)
Theorem missing_ca_is_fatal v e w :
  w_fs w !! ca_path e = None ->
  let p := boot (script_of v) e w in
  p_status p = Exited 1
  /\ p_server p = None
  /\ p_bound p = false
  /\ w_fs (p_world p) !! ca_path e = None
  /\ forall evs, run (script_of v) p evs = p.
Proof.
  intros Hca p.
  assert (p_status p = Exited 1 /\ p_server p = None /\ p_bound p = false
          /\ w_fs (p_world p) !! ca_path e = None) as (S & V & B & F).
  { subst p. unfold boot. destruct v; simpl.
    - destruct (main000_spec e w) as (r1 & w1 & [D _] & _ & _ & T & -> & _).
      destruct (T Hca) as [err ->]. simpl. by rewrite D.
    - destruct (bootstrap_spec e w) as (r0 & w0 & r1 & w1 & E0 & [D _] & E & _ & _ & _ & T).
      destruct (main001_spec e w) as (r1' & w1' & E' & ->).
      rewrite E in E'. injection E' as <- <-.
      pose proof (ensure_keeps_ca e w Hca) as K. rewrite E0 in K. simpl in K.
      destruct (T K) as [err ->]. simpl. by rewrite D.
    - destruct (options_copy_spec e w) as (r & w' & [D _] & E & _ & _ & _ & T).
      destruct (T Hca) as [err ->]. unfold Copy.main.
      rewrite (bind_eq _ _ _ _ _ E). simpl. by rewrite D. }
  repeat (split; [assumption|]). intros evs. by apply (run_exited _ _ _ 1%Z).
Qed.

(** The generating variant on a disk with key and certificate but no CA. *)
Lemma missing_ca_is_fatal_witness :
  let p := boot (script_of Generating) Sample.e_ok (Sample.disk Sample.no_ca) in
  p_status p = Exited 1
  /\ p_server p = None
  /\ p_bound p = false
  /\ w_fs (p_world p) !! ca_path Sample.e_ok = None
  /\ forall evs, run (script_of Generating) p evs = p.
Proof.
  apply (missing_ca_is_fatal Generating Sample.e_ok (Sample.disk Sample.no_ca)).
  vm_compute. reflexivity.
Defined.

(** C6 (as the code has it). When the port cannot be bound the listener's
    ['error'] callback prints the error and nothing else: no exit status is
    set, and the process, left with nothing to wait for, ends with
    status 0. *)
Theorem bind_failure_is_only_logged v e w sv port w' err :
  main (script_of v) e w = (Ok (sv, port), w') ->
  let p := dispatch (script_of v) (boot (script_of v) e w) (ServerError err) in
  p_status p = Exited 0
  /\ p_bound p = false
  /\ w_console (p_world p) = w_console w' ++ [Stderr "Server error:" err]
  /\ w_fs (p_world p) = w_fs w'
  /\ w_execs (p_world p) = w_execs w'.
Proof.
  intros Hmain p. subst p. unfold boot. rewrite Hmain.
  unfold dispatch. cbn [p_status p_server].
  rewrite (callback_ok _ _ _ _ tt _ (server_error_logged v err w')).
  unfold settle. cbn [p_status p_bound with_world p_conns].
  rewrite bool_decide_eq_true_2 by apply map_Forall_empty. done.
Qed.

(** The Express variant, started with all its files, finds its port taken. *)
Lemma bind_failure_is_only_logged_witness :
  let p := dispatch part000 (boot part000 Sample.e_ok (Sample.disk Sample.all_three))
             (ServerError (SystemError "EADDRINUSE" ":::8446")) in
  p_status p = Exited 0 /\ p_bound p = false.
Proof.
  destruct (bind_failure_is_only_logged Express Sample.e_ok (Sample.disk Sample.all_three)
              _ _ _ (SystemError "EADDRINUSE" ":::8446") eq_refl) as (S & B & _).
  exact (conj S B).
Defined.

(** C6, counterexample. The Express server, started with all its files
    and denied its port, ends with status 0, which is not a non-zero
    status. *)
Lemma bind_failure_exits_with_zero :
  let p := run part000 (boot part000 Sample.e_ok (Sample.disk Sample.all_three))
             [ServerError (SystemError "EADDRINUSE" ":::8446")] in
  p_status p = Exited 0
  /\ ~ (exists code, p_status p = Exited code /\ code <> 0%Z).
Proof.
  assert (p_status (run part000 (boot part000 Sample.e_ok (Sample.disk Sample.all_three))
             [ServerError (SystemError "EADDRINUSE" ":::8446")]) = Exited 0) as S
    by (vm_compute; reflexivity).
  cbv zeta. rewrite S. split; [done|]. intros (code & [= <-] & N). by apply N.
Qed.

(** C7 (where the code departs from it). With key and certificate both
    present the bootstrap runs nothing and leaves every file as it was.
    With both absent it runs the generation command exactly once. That
    one generation does not produce a key and certificate pair: [openssl]
    refuses the subject of the command, so the only file that can have
    changed is the key the child writes, the certificate is still missing
    afterwards, and a second bootstrap runs the command again. *)
Theorem bootstrap_twice e w :
  let w1 := snd (Part001.bootstrap e w) in
  let w2 := snd (Part001.bootstrap e w1) in
  (is_Some (w_fs w !! key_path e) -> is_Some (w_fs w !! cert_path e) ->
     w_execs w1 = w_execs w /\ w_fs w1 = w_fs w)
  /\ (w_fs w !! key_path e = None -> w_fs w !! cert_path e = None ->
        w_execs w1 = w_execs w ++ [generation_command]
        /\ (child_is_openssl e generation_command ->
              w_fs w1 !! cert_path e = None
              /\ (forall f, f <> key_target e -> w_fs w1 !! f = w_fs w !! f)
              /\ w_execs w2 = w_execs w ++ [generation_command; generation_command])).
Proof.
  intros w1 w2. split.
  - intros [k K] [c C]. subst w1.
    rewrite bootstrap_execs, bootstrap_fs, must_generate_eq, K, C.
    by rewrite app_nil_r.
  - intros K C.
    assert (must_generate e w = true) as G by (by rewrite must_generate_eq, K).
    split; [subst w1; by rewrite bootstrap_execs, G|].
    intros Child.
    assert (forall f, f <> key_target e -> w_fs w1 !! f = w_fs w !! f) as Same.
    { intros f N. subst w1. rewrite bootstrap_fs, G.
      destruct (openssl e) as [key_pem cert_pem|status|key_pem status] eqn:O.
      - by destruct (openssl_refuses_command e Child key_pem cert_pem).
      - done.
      - by rewrite lookup_insert_ne. }
    assert (w_fs w1 !! cert_path e = None) as C1
      by (rewrite Same; [exact C | apply cert_path_is_not_key_target]).
    split; [exact C1|]. split; [exact Same|].
    assert (must_generate e w1 = true) as G1.
    { rewrite must_generate_eq, C1. by destruct (w_fs w1 !! key_path e). }
    subst w2. rewrite bootstrap_execs, G1. subst w1. rewrite bootstrap_execs, G.
    by rewrite <- app_assoc.
Qed.

(** Both halves on sample disks: all files present; and only the CA
    present, with the child that [openssl] is on this command. *)
Lemma bootstrap_twice_witness :
  (let w := Sample.disk Sample.all_three in
   let w1 := snd (Part001.bootstrap Sample.e_real w) in
   w_execs w1 = w_execs w /\ w_fs w1 = w_fs w)
  /\ (let w := Sample.disk Sample.only_ca in
      let w1 := snd (Part001.bootstrap Sample.e_real w) in
      let w2 := snd (Part001.bootstrap Sample.e_real w1) in
      w_execs w1 = [generation_command]
      /\ w_fs w1 !! cert_path Sample.e_real = None
      /\ w_execs w2 = [generation_command; generation_command]).
Proof.
  split.
  - apply (proj1 (bootstrap_twice Sample.e_real (Sample.disk Sample.all_three)));
      vm_compute; eauto.
  - destruct (proj2 (bootstrap_twice Sample.e_real (Sample.disk Sample.only_ca)))
      as [X Y]; [reflexivity | reflexivity |].
    destruct Y as (C & _ & Z); [intros ? ? ?; discriminate|].
    exact (conj X (conj C Z)).
Defined.

(** C8. A handshake that fails on a new connection closes that connection
    and no other, prints the error, leaves the process alive with its
    listener bound and the responses sent so far untouched, and is never
    taken up again: whatever events follow, the connection stays closed. *)
Theorem handshake_errors_are_contained v p sv port id h f s :
  p_status p = Alive ->
  p_server p = Some (sv, port) ->
  p_bound p = true ->
  p_conns p !! id = None ->
  Https.handshake sv h = Https.Failed f s ->
  let p' := dispatch (script_of v) p (Hello id h) in
  p_status p' = Alive
  /\ p_conns p' = <[id := Closed]> (p_conns p)
  /\ (forall other, other <> id -> p_conns p' !! other = p_conns p !! other)
  /\ p_sent p' = p_sent p
  /\ p_server p' = p_server p
  /\ p_bound p' = true
  /\ (exists rest, w_console (p_world p') =
        w_console (p_world p) ++ Stderr "TLS Client error:" (Tls.failure_error f) :: rest)
  /\ same_disk (p_world p) (p_world p')
  /\ (forall evs, p_conns (run (script_of v) p' evs) !! id = Some Closed).
Proof.
  intros HS HV HB HC HH p'.
  destruct (tls_error_logged v (Tls.failure_error f) s (p_world p)) as [rest L].
  assert (p' = with_world (with_conn p id Closed)
                 {| w_fs := w_fs (p_world p);
                    w_console := w_console (p_world p)
                                   ++ Stderr "TLS Client error:" (Tls.failure_error f) :: rest;
                    w_execs := w_execs (p_world p) |}) as ->.
  { subst p'. unfold dispatch. rewrite HS, HV, HB, HC, HH.
    rewrite bool_decide_eq_true_2 by done. cbn [andb].
    by rewrite (callback_ok _ (with_conn p id Closed) _ _ tt _ L). }
  cbn [with_world with_conn p_status p_conns p_sent p_server p_bound p_world w_console].
  repeat split; try done.
  - intros other N. by rewrite lookup_insert_ne.
  - eauto.
  - intros evs. apply run_closed. simpl. apply lookup_insert_eq.
Qed.

(** A self-signed client fails its handshake while a trusted client is
    connected to the generating variant. *)
Lemma handshake_errors_are_contained_witness :
  let p := run part001 (boot part001 Sample.e_ok (Sample.disk Sample.all_three))
             [Listening; Hello 1 Sample.trusted_hello] in
  let p' := dispatch part001 p (Hello 2 Sample.self_signed_hello) in
  p_status p' = Alive
  /\ p_conns p' !! 1 = p_conns p !! 1
  /\ forall evs, p_conns (run part001 p' evs) !! 2 = Some Closed.
Proof.
  intros p p'.
  destruct (handshake_errors_are_contained Generating p
              (express_server Sample.e_ok (express_options Sample.old_key Sample.old_cert Sample.ca_cert))
              8446%Z 2 Sample.self_signed_hello Tls.UntrustedChain
              (Https.broken_socket (Some "TLSv1.2")))
    as (S & _ & O & _ & _ & _ & _ & _ & T); try (vm_compute; reflexivity).
  split; [exact S|]. split; [apply O; discriminate | exact T].
Defined.

(** C9. On OPTIONS, whatever the path, the CORS middleware of the two
    Express variants answers 200 by itself: the answer and the console
    output are the same for every socket, authorized or not, so the flag
    plays no part; a socket that is not authorized gets this 200 and not
    the 401 rejection. *)
Theorem preflight_before_authorization v client pth w :
  is_express v = true ->
  let rq := {| Http.method := "OPTIONS"; Http.path := pth |} in
  fst (requestListener (script_of v) client rq w) = Ok preflight_response
  /\ (forall other,
        requestListener (script_of v) other rq w = requestListener (script_of v) client rq w)
  /\ Http.statusCode preflight_response = 200%Z
  /\ preflight_response <> rejection_response.
Proof.
  intros Hv rq. destruct v; try discriminate; repeat split; done.
Qed.

(** OPTIONS on a socket that is not authorized. *)
Lemma preflight_before_authorization_witness :
  fst (Part001.app Sample.untrusted_socket
         {| Http.method := "OPTIONS"; Http.path := "/" |} (Sample.disk Sample.all_three))
    = Ok preflight_response.
Proof.
  exact (proj1 (preflight_before_authorization Generating Sample.untrusted_socket "/"
                  (Sample.disk Sample.all_three) eq_refl)).
Defined.

(** C10 (where the code departs from it). Whenever the bootstrap
    generates, it runs one fixed command: [openssl req] with [-x509]
    (self-signed), [-newkey rsa:2048], [-days 365] and a subject whose CN
    is the constant [DOMAIN_NAME], a URL with its scheme; the command does
    not depend on the surroundings of the run. The two slashes of the
    scheme are not escaped: [openssl] ends the CN at the first and starts
    a new piece at the second, finds no [=] in it and refuses the
    subject, which it reads with the slashes escaped. So no certificate
    is written; the failure of the child makes the script report the error
    twice and exit with status 1, with no listener, and the disk is as
    the child left it: unchanged, or with a new key file. *)
Theorem generation_stops_at_the_subject e w :
  w_fs w !! key_path e = None \/ w_fs w !! cert_path e = None ->
  child_is_openssl e generation_command ->
  let p := boot part001 e w in
  w_execs (p_world p) = w_execs w ++ [generation_command]
  /\ shell_words generation_command =
       ["openssl"; "req"; "-new"; "-newkey"; "rsa:2048"; "-days"; "365"; "-nodes";
        "-x509"; "-keyout"; "server_key.pem"; "-out"; "server_cert.pem"; "-subj";
        "/C=US/ST=State/L=City/O=Organization/OU=OrgUnit/CN=" +:+ Part001.DOMAIN_NAME]
  /\ Part001.DOMAIN_NAME = "https://mtlsserver-52a108593257.herokuapp.com"
  /\ (forall canmulti,
        Openssl.parse_name canmulti
          ("/C=US/ST=State/L=City/O=Organization/OU=OrgUnit/CN=" +:+ Part001.DOMAIN_NAME)
        = inl (Openssl.MissingEquals "/mtlsserver-52a108593257.herokuapp.com")
        /\ Openssl.parse_name canmulti
             "/C=US/ST=State/L=City/O=Organization/OU=OrgUnit/CN=https:\/\/mtlsserver-52a108593257.herokuapp.com"
           = inr [("C", "US"); ("ST", "State"); ("L", "City"); ("O", "Organization");
                  ("OU", "OrgUnit"); ("CN", Part001.DOMAIN_NAME)])
  /\ (exists status,
        (openssl e = Fails status /\ w_fs (p_world p) = w_fs w
         \/ exists key_pem,
              openssl e = Aborts key_pem status
              /\ w_fs (p_world p) = <[key_target e := File key_pem]> (w_fs w))
        /\ w_console (p_world p) =
             w_console w ++
               [Stdout "[DEBUG] Generating new certificate...";
                Stderr "Error generating new certificate:"
                  (ExecError generation_command status);
                Stderr "Server initialization error:"
                  (ExecError generation_command status)])
  /\ w_fs (p_world p) !! cert_target e = w_fs w !! cert_target e
  /\ p_status p = Exited 1
  /\ p_server p = None.
Proof.
  intros Habs Child p.
  assert (must_generate e w = true) as G.
  { rewrite must_generate_eq.
    destruct Habs as [-> | ->]; [done|]. by destruct (w_fs w !! key_path e). }
  split.
  { subst p. destruct (boot001_disk e w) as [_ ->]. by rewrite bootstrap_execs, G. }
  split; [reflexivity|]. split; [reflexivity|].
  split; [intros []; split; vm_compute; reflexivity|].
  destruct (openssl e) as [key_pem cert_pem|status|key_pem status] eqn:O.
  - by destruct (openssl_refuses_command e Child key_pem cert_pem).
  - destruct (boot001_after_failure e w (generation_failed w status)
                (ExecError generation_command status)) as (S & V & W).
    { rewrite ensure_spec. rewrite must_generate_eq in G.
      destruct (w_fs w !! key_path e), (w_fs w !! cert_path e);
        try discriminate; by rewrite generate_spec, O. }
    fold p in S, V, W. rewrite W. simpl.
    split; [|done]. exists status. split; [left; done|]. by rewrite <- !app_assoc.
  - destruct (boot001_after_failure e w (generation_aborted e w key_pem status)
                (ExecError generation_command status)) as (S & V & W).
    { rewrite ensure_spec. rewrite must_generate_eq in G.
      destruct (w_fs w !! key_path e), (w_fs w !! cert_path e);
        try discriminate; by rewrite generate_spec, O. }
    fold p in S, V, W. rewrite W. simpl.
    split; [|split; [|done]].
    + exists status. split; [right; by exists key_pem|]. by rewrite <- !app_assoc.
    + apply lookup_insert_ne, key_target_is_not_cert_target.
Qed.

(** Only the CA on disk, and the child that [openssl] is on this command:
    exit status 1, no listener, one command run, a key and no
    certificate. *)
Lemma generation_stops_at_the_subject_witness :
  let p := boot part001 Sample.e_real (Sample.disk Sample.only_ca) in
  p_status p = Exited 1 /\ p_server p = None
  /\ w_execs (p_world p) = [generation_command]
  /\ w_fs (p_world p) !! cert_target Sample.e_real = None.
Proof.
  destruct (generation_stops_at_the_subject Sample.e_real (Sample.disk Sample.only_ca))
    as (X & _ & _ & _ & _ & C & S & V); [left; reflexivity | intros ? ? ?; discriminate |].
  exact (conj S (conj V (conj X C))).
Defined.

(** * Further properties of the scripts *)

(** ** The callbacks only log *)

Ltac only_logs_by_cases :=
  intros w; eexists _, _; split; [reflexivity | by split].

Lemma callbacks_only_log_all v : callbacks_only_log (script_of v).
Proof.
  destruct v; repeat split; simpl.
  - intros s rq w. unfold Part000.app, Part000.cors, Part000.root. run_m.
    destruct (String.eqb (method rq) "OPTIONS"); [|destruct (get_route_matches "/" rq)];
      [| destruct (Tls.authorized s) |]; simpl; eexists _, _; (split; [reflexivity | by split]).
  - intros err. only_logs_by_cases.
  - intros err s w. unfold Part000.onTlsClientError, Part000.debugLog. run_m.
    destruct s as [[a pc [proto|] ci]|]; simpl;
      eexists _, _; (split; [reflexivity | by split]).
  - intros handler s [= <-] w. unfold Part000.onSecureConnection, Part000.debugLog. run_m.
    destruct s as [a pc [proto|] [name|]]; simpl;
      eexists _, _; (split; [reflexivity | by split]).
  - only_logs_by_cases.
  - intros handler err [= <-]. only_logs_by_cases.
  - intros s rq w. unfold Part001.app, Part001.cors, Part001.root. run_m.
    destruct (String.eqb (method rq) "OPTIONS"); [|destruct (get_route_matches "/" rq)];
      [| destruct (Tls.authorized s) |]; simpl; eexists _, _; (split; [reflexivity | by split]).
  - intros err. only_logs_by_cases.
  - intros err s w. unfold Part001.onTlsClientError, Part001.debugLog. run_m.
    destruct s as [[a pc [proto|] ci]|]; simpl;
      eexists _, _; (split; [reflexivity | by split]).
  - intros handler s [= <-] w. unfold Part001.onSecureConnection, Part001.debugLog. run_m.
    destruct s as [a pc [proto|] [name|]]; simpl;
      eexists _, _; (split; [reflexivity | by split]).
  - only_logs_by_cases.
  - intros handler err [= <-]. only_logs_by_cases.
  - intros s rq w. unfold Copy.requestListener. run_m.
    destruct (Tls.authorized s); simpl; eexists _, _; (split; [reflexivity | by split]).
  - intros err. only_logs_by_cases.
  - intros err s. only_logs_by_cases.
  - intros handler s [=].
  - only_logs_by_cases.
  - intros handler err [=].
Qed.

Lemma callback_only_logs {A} sc p (m : M A) k :
  only_logs m ->
  exists a w', same_disk (p_world p) w' /\ callback sc p m k = k a (with_world p w').
Proof.
  intros L. destruct (L (p_world p)) as (a & w' & E & D).
  exists a, w'. split; [exact D|]. by apply callback_ok.
Qed.

Lemma settle_world p : p_world (settle p) = p_world p.
Proof.
  unfold settle. destruct (p_status p); [|done].
  destruct (p_bound p); [done|]. by case_bool_decide.
Qed.

Lemma settle_bound_alive p :
  p_status p = Alive -> p_bound p = true -> p_status (settle p) = Alive.
Proof. intros S B. unfold settle. by rewrite S, B. Qed.

Lemma dispatch_keeps_disk sc p ev :
  callbacks_only_log sc -> same_disk (p_world p) (p_world (dispatch sc p ev)).
Proof.
  intros (Lr & Le & Lt & Ls & Ll & _). unfold dispatch.
  destruct (p_status p); [|apply same_disk_refl].
  destruct (p_server p) as [[sv port]|]; [|apply same_disk_refl].
  destruct ev as [|err|id h|id rq|id].
  - destruct (p_bound p); [apply same_disk_refl|].
    destruct (callback_only_logs sc (with_bound p) _ (fun _ q => q) Ll) as (a & w' & D & ->).
    exact D.
  - rewrite settle_world.
    destruct (callback_only_logs sc p _ (fun _ q => q) (Le err)) as (a & w' & D & ->).
    exact D.
  - destruct (p_bound p && bool_decide (p_conns p !! id = None)); [|apply same_disk_refl].
    destruct (Https.handshake sv h) as [s|f s].
    + destruct (onSecureConnection sc) as [handler|] eqn:H; [|apply same_disk_refl].
      destruct (callback_only_logs sc (with_conn p id (Open s)) _ (fun _ q => q)
                  (Ls handler s eq_refl)) as (a & w' & D & ->).
      exact D.
    + destruct (callback_only_logs sc (with_conn p id Closed) _ (fun _ q => q)
                  (Lt (Tls.failure_error f) (Some s))) as (a & w' & D & ->).
      exact D.
  - destruct (p_conns p !! id) as [[s|]|]; try apply same_disk_refl.
    destruct (callback_only_logs sc p _ (fun r q => with_sent q id r) (Lr s rq))
      as (a & w' & D & ->).
    exact D.
  - destruct (p_conns p !! id) as [[s|]|]; apply same_disk_refl.
Qed.

Lemma dispatch_stays_alive sc p ev :
  callbacks_only_log sc ->
  p_status p = Alive ->
  (forall err, ev <> ServerError err) \/ p_bound p = true ->
  p_status (dispatch sc p ev) = Alive.
Proof.
  intros (Lr & Le & Lt & Ls & Ll & _) S C. unfold dispatch. rewrite S.
  destruct (p_server p) as [[sv port]|]; [|exact S].
  destruct ev as [|err|id h|id rq|id].
  - destruct (p_bound p); [exact S|].
    destruct (callback_only_logs sc (with_bound p) _ (fun _ q => q) Ll) as (a & w' & D & ->).
    exact S.
  - destruct C as [C|B]; [by destruct (C err)|].
    destruct (callback_only_logs sc p _ (fun _ q => q) (Le err)) as (a & w' & D & ->).
    by apply settle_bound_alive.
  - destruct (p_bound p && bool_decide (p_conns p !! id = None)); [|exact S].
    destruct (Https.handshake sv h) as [s|f s].
    + destruct (onSecureConnection sc) as [handler|] eqn:H; [|exact S].
      destruct (callback_only_logs sc (with_conn p id (Open s)) _ (fun _ q => q)
                  (Ls handler s eq_refl)) as (a & w' & D & ->).
      exact S.
    + destruct (callback_only_logs sc (with_conn p id Closed) _ (fun _ q => q)
                  (Lt (Tls.failure_error f) (Some s))) as (a & w' & D & ->).
      exact S.
  - destruct (p_conns p !! id) as [[s|]|]; try exact S.
    destruct (callback_only_logs sc p _ (fun r q => with_sent q id r) (Lr s rq))
      as (a & w' & D & ->).
    exact S.
  - destruct (p_conns p !! id) as [[s|]|]; exact S.
Qed.

Lemma run_keeps_disk sc p evs :
  callbacks_only_log sc -> same_disk (p_world p) (p_world (run sc p evs)).
Proof.
  intros L. induction evs as [|ev evs IH] using rev_ind; [apply same_disk_refl|].
  rewrite run_snoc. eapply same_disk_trans; [exact IH|]. by apply dispatch_keeps_disk.
Qed.

Lemma boot_without_generation v e w :
  v <> Generating -> same_disk w (p_world (boot (script_of v) e w)).
Proof.
  intros N. unfold boot. destruct v; [|done|]; simpl.
  - destruct (main000_spec e w) as (r1 & w1 & D & _ & _ & _ & -> & _).
    unfold started. destruct r1 as [o|?|?]; [destruct (secure_context e o)| |]; exact D.
  - destruct (options_copy_spec e w) as (r & w1 & D & E & _).
    unfold Copy.main. rewrite (bind_eq _ _ _ _ _ E).
    destruct r as [o|?|?]; try exact D.
    unfold Https.createServer, mbind, M_bind, mret, M_ret, throw.
    destruct (Tls.version_code _); [|exact D].
    destruct (Tls.version_code _); [|exact D].
    destruct (secure_context e o); exact D.
Qed.

(** X1. Once a script has run, no event changes a file or runs a command:
    every callback of every variant only writes to the console. The plain
    Express variant and the copy do not touch the disk at start-up either;
    only the generating variant can. *)
Theorem events_never_touch_the_disk v e w evs :
  let p := boot (script_of v) e w in
  same_disk (p_world p) (p_world (run (script_of v) p evs))
  /\ (v = Generating \/ same_disk w (p_world (run (script_of v) p evs))).
Proof.
  intros p. pose proof (run_keeps_disk _ p evs (callbacks_only_log_all v)) as R.
  split; [exact R|].
  assert (v = Generating \/ v <> Generating) as [->|N] by (destruct v; auto).
  - by left.
  - right. eapply same_disk_trans; [|exact R]. by apply boot_without_generation.
Qed.

(** X2. A started process is only ever ended by a listener error that
    arrives before the port is bound: every other event, and a listener
    error after binding, leaves it running, because no callback of any
    variant throws or calls [process.exit]. *)
Theorem only_a_bind_failure_ends_the_process v p ev :
  p_status p = Alive ->
  (forall err, ev <> ServerError err) \/ p_bound p = true ->
  p_status (dispatch (script_of v) p ev) = Alive.
Proof. apply dispatch_stays_alive, callbacks_only_log_all. Qed.

Lemma only_a_bind_failure_ends_the_process_witness :
  p_status
    (dispatch part000
       (run part000 (boot part000 Sample.e_ok (Sample.disk Sample.all_three)) [Listening])
       (ServerError (SystemError "ECONNRESET" "socket")))
  = Alive.
Proof.
  apply (only_a_bind_failure_ends_the_process Express
           (run part000 (boot part000 Sample.e_ok (Sample.disk Sample.all_three)) [Listening])
           (ServerError (SystemError "ECONNRESET" "socket"))).
  - vm_compute. reflexivity.
  - right. vm_compute. reflexivity.
Defined.

(** ** What the strict listener lets through *)

Lemma handshake_strict sv h s :
  strict sv -> Https.handshake sv h = Https.Established s -> Tls.authorized s = true.
Proof.
  intros [R U]. unfold Https.handshake.
  destruct ((_ <? _)%Z || _); [discriminate|].
  destruct (Https.select_cipher sv h); [|discriminate].
  cbv zeta. rewrite R, U.
  destruct (Tls.ch_cert h) as [| |c []]; intros [= <-]; done.
Qed.

Lemma handshake_without_certificate sv h :
  strict sv -> Tls.ch_cert h = Tls.NoCertificate ->
  exists f s, Https.handshake sv h = Https.Failed f s.
Proof.
  intros [R U] C. unfold Https.handshake.
  destruct ((_ <? _)%Z || _); [eauto|].
  destruct (Https.select_cipher sv h); [|eauto].
  cbv zeta. rewrite R, U, C. eauto.
Qed.

Lemma started_strict v e w sv port w' :
  main (script_of v) e w = (Ok (sv, port), w') -> strict sv.
Proof.
  intros Hmain. destruct (started_server v e w sv port w' Hmain) as (key & cert & ca & S).
  destruct (is_express v).
  - destruct S as [-> _]. by split.
  - destruct S as (S & _). unfold strict. by rewrite S.
Qed.

Lemma boot_server v e w sv port :
  p_server (boot (script_of v) e w) = Some (sv, port) ->
  exists w', main (script_of v) e w = (Ok (sv, port), w').
Proof.
  unfold boot. destruct (main (script_of v) e w) as [[[sv' port']|?|?] w']; simpl;
    intros [= <- <-]. eauto.
Qed.

Lemma listener_on_authorized v s rq w r w' :
  Tls.authorized s = true ->
  requestListener (script_of v) s rq w = (Ok r, w') ->
  Http.statusCode r <> 401%Z.
Proof.
  destruct s as [a c pr ci]. simpl. intros ->.
  destruct v; simpl.
  - unfold Part000.app, Part000.cors, Part000.root; run_m.
    destruct (String.eqb (method rq) "OPTIONS"); [|destruct (get_route_matches "/" rq)];
      intros [= <- _]; done.
  - unfold Part001.app, Part001.cors, Part001.root; run_m.
    destruct (String.eqb (method rq) "OPTIONS"); [|destruct (get_route_matches "/" rq)];
      intros [= <- _]; done.
  - unfold Copy.requestListener; run_m. intros [= <- _]; done.
Qed.

Lemma all_authorized_step v p ev :
  (forall sv port, p_server p = Some (sv, port) -> strict sv) ->
  all_authorized p -> all_authorized (dispatch (script_of v) p ev).
Proof.
  intros St [I J]. split.
  - intros id s O.
    destruct (dispatch_open _ _ _ _ _ O) as [O'|(h & sv & port & _ & V & HH)].
    + by apply (I id s).
    + exact (handshake_strict sv h s (St sv port V) HH).
  - intros id r S.
    destruct (dispatch_sent _ _ _ _ _ S) as [S'|(rq & s & w & w' & _ & O & L)].
    + by apply (J id r).
    + exact (listener_on_authorized v s rq w r w' (I id s O) L).
Qed.

Lemma all_authorized_run v e w evs :
  all_authorized (run (script_of v) (boot (script_of v) e w) evs).
Proof.
  induction evs as [|ev evs IH] using rev_ind.
  - unfold run, boot. simpl.
    destruct (main (script_of v) e w) as [[?|?|?] ?]; split; simpl; intros; done.
  - rewrite run_snoc. apply all_authorized_step; [|exact IH].
    intros sv port V. rewrite run_server in V.
    destruct (boot_server v e w sv port V) as [w' Hmain].
    exact (started_strict v e w sv port w' Hmain).
Qed.

(** X3. With [requestCert] and [rejectUnauthorized] both true in every
    variant, a run never holds an open connection that is not authorized,
    never sends a response with status 401, and never lets in a client that
    presents no certificate: the per-request rejection of the handlers is
    not reachable through the listener. *)
Theorem rejection_is_never_sent v e w evs :
  let p := run (script_of v) (boot (script_of v) e w) evs in
  (forall id s, p_conns p !! id = Some (Open s) -> Tls.authorized s = true)
  /\ (forall id r, In (id, r) (p_sent p) -> Http.statusCode r <> 401%Z)
  /\ (forall sv port h,
        p_server p = Some (sv, port) ->
        Tls.ch_cert h = Tls.NoCertificate ->
        exists f s, Https.handshake sv h = Https.Failed f s).
Proof.
  intros p. destruct (all_authorized_run v e w evs) as [I J].
  split; [exact I|]. split; [exact J|].
  intros sv port h V C. subst p. rewrite run_server in V.
  destruct (boot_server v e w sv port V) as [w' Hmain].
  exact (handshake_without_certificate sv h (started_strict v e w sv port w' Hmain) C).
Qed.

(** ** The request listeners, case by case *)

Lemma express_app_table v client rq w :
  is_express v = true ->
  fst (requestListener (script_of v) client rq w) =
    Ok (if String.eqb (method rq) "OPTIONS" then preflight_response
        else if get_route_matches "/" rq then
          if Tls.authorized client
          then success_response (Tls.getPeerCertificate client)
          else rejection_response
        else not_found_response rq).
Proof.
  intros Hv. destruct v; try discriminate; simpl.
  - unfold Part000.app, Part000.cors, Part000.root; run_m.
    destruct (String.eqb (method rq) "OPTIONS"); [done|].
    destruct (get_route_matches "/" rq); [|done]. by destruct (Tls.authorized client).
  - unfold Part001.app, Part001.cors, Part001.root; run_m.
    destruct (String.eqb (method rq) "OPTIONS"); [done|].
    destruct (get_route_matches "/" rq); [|done]. by destruct (Tls.authorized client).
Qed.

(** X4. Every response of the two Express variants, whatever the method,
    the path and the socket (200, 401 and 404 alike), carries the three
    CORS headers the middleware sets, and nothing else the script set. *)
Theorem cors_headers_on_every_response v client rq w r w' :
  is_express v = true ->
  requestListener (script_of v) client rq w = (Ok r, w') ->
  Http.headers r = cors_headers.
Proof.
  intros Hv E. pose proof (express_app_table v client rq w Hv) as T.
  rewrite E in T. simpl in T. injection T as ->.
  destruct (String.eqb (method rq) "OPTIONS"); [done|].
  destruct (get_route_matches "/" rq); [|done]. by destruct (Tls.authorized client).
Qed.

Lemma cors_headers_on_every_response_witness :
  exists r w',
    Part001.app Sample.untrusted_socket {| method := "DELETE"; path := "/nowhere" |}
      (Sample.disk Sample.all_three) = (Ok r, w')
    /\ Http.statusCode r = 404%Z
    /\ Http.headers r = cors_headers.
Proof.
  eexists _, _. split; [vm_compute; reflexivity|]. split; [reflexivity|].
  eapply (cors_headers_on_every_response Generating Sample.untrusted_socket
            {| method := "DELETE"; path := "/nowhere" |} (Sample.disk Sample.all_three));
    [reflexivity | vm_compute; reflexivity].
Defined.

(** X5. In the two Express variants only GET and HEAD of the root path are
    routed: any other request whose method is not OPTIONS gets the 404 of
    the framework, for an authorized socket exactly as for any other. A
    POST of the root path is among them, although the CORS headers announce
    POST, and so is the probe path of the diagnostics, /api/health. *)
Theorem unrouted_requests_get_404 v client rq w :
  is_express v = true ->
  Http.method rq <> "OPTIONS" ->
  (Http.method rq <> "GET" /\ Http.method rq <> "HEAD")
  \/ (Http.path rq <> "/" /\ Http.path rq <> EmptyString) ->
  fst (requestListener (script_of v) client rq w) = Ok (not_found_response rq)
  /\ serves_authenticated_only (not_found_response rq) = false
  /\ In ("Access-Control-Allow-Methods", "GET, POST, OPTIONS")
        (Http.headers (not_found_response rq)).
Proof.
  intros Hv M C. split; [|split; [done | right; by left]].
  rewrite (express_app_table v client rq w Hv).
  apply String.eqb_neq in M. rewrite M.
  unfold get_route_matches.
  destruct C as [[G H]|[P1 P2]].
  - apply String.eqb_neq in G, H. by rewrite G, H.
  - apply String.eqb_neq in P1, P2. rewrite P1, P2. simpl. by rewrite andb_false_r.
Qed.

Lemma unrouted_requests_get_404_witness :
  fst (Part000.app Sample.trusted_socket {| method := "GET"; path := "/api/health" |}
         (Sample.disk Sample.all_three))
    = Ok (not_found_response {| method := "GET"; path := "/api/health" |})
  /\ fst (Part001.app Sample.trusted_socket {| method := "POST"; path := "/" |}
            (Sample.disk Sample.all_three))
    = Ok (not_found_response {| method := "POST"; path := "/" |}).
Proof.
  split.
  - apply (unrouted_requests_get_404 Express Sample.trusted_socket
             {| method := "GET"; path := "/api/health" |} (Sample.disk Sample.all_three));
      [reflexivity | discriminate | right; split; discriminate].
  - apply (unrouted_requests_get_404 Generating Sample.trusted_socket
             {| method := "POST"; path := "/" |} (Sample.disk Sample.all_three));
      [reflexivity | discriminate | left; split; discriminate].
Defined.

(** X6. The copy has no routing and no middleware: its answer depends on
    the [authorized] flag alone, 200 with the greeting or 401 with the
    refusal, the same for every method and path (an OPTIONS request
    included) and without any header of its own. *)
Theorem copy_answers_by_flag_alone client rq w :
  fst (Copy.requestListener client rq w)
    = Ok (if Tls.authorized client then greeting_response else refusal_response)
  /\ (forall rq', Copy.requestListener client rq' w = Copy.requestListener client rq w).
Proof.
  unfold Copy.requestListener; run_m.
  destruct (Tls.authorized client); repeat split; done.
Qed.

(** ** Start-up, file by file *)

Lemma load_exact e f w :
  let p := path_resolve (__dirname e) f in
  let tried := Stdout ("[DEBUG] Loading certificate from: " +:+ p) in
  Part000.loadCertificate e f w =
    match w_fs w !! p with
    | Some (File c) =>
        (Ok c, add_console w
                 [tried;
                  Stdout ("[DEBUG] Loaded " +:+ f +:+ " successfully");
                  Stdout ("[DEBUG] Certificate length: " +:+ pretty (String.length c))])
    | Some Unreadable =>
        (Throw (SystemError "EACCES" p),
         add_console w [tried; Stderr ("Error loading " +:+ f +:+ ":") (SystemError "EACCES" p)])
    | None =>
        (Throw (Error ("Certificate file not found: " +:+ f)),
         add_console w [tried; Stderr ("Error loading " +:+ f +:+ ":")
                                 (Error ("Certificate file not found: " +:+ f))])
    end.
Proof.
  intros p tried. subst p tried.
  unfold Part000.loadCertificate, Part000.debugLog. unfold_m. cbv zeta.
  rewrite existsSync_eq. unfold readFileSync, add_console. cbn [w_fs].
  destruct (w_fs w !! path_resolve (__dirname e) f) as [[c|]|] eqn:L; cbn;
    rewrite ?L; cbn; rewrite <- ?app_assoc; reflexivity.
Qed.

Lemma load_exact_copy e f w :
  let p := path_resolve (__dirname e) f in
  Copy.loadCertificate e f w =
    match w_fs w !! p with
    | Some (File c) =>
        (Ok c, add_console w
                 [Stdout ("[DEBUG] Loaded " +:+ f +:+ " successfully");
                  Stdout ("[DEBUG] Certificate length: " +:+ pretty (String.length c))])
    | Some Unreadable =>
        (Throw (SystemError "EACCES" p),
         add_console w [Stderr ("Error loading " +:+ f +:+ ":") (SystemError "EACCES" p)])
    | None =>
        (Throw (SystemError "ENOENT" p),
         add_console w [Stderr ("Error loading " +:+ f +:+ ":") (SystemError "ENOENT" p)])
    end.
Proof.
  intros p. subst p.
  unfold Copy.loadCertificate, Copy.debugLog. unfold_m. unfold readFileSync, add_console.
  destruct (w_fs w !! path_resolve (__dirname e) f) as [[c|]|] eqn:L; cbn;
    rewrite <- ?app_assoc; reflexivity.
Qed.

Lemma options000_result e w :
  exists w', same_disk w w' /\ Part000.options e w = (options_result e (w_fs w), w').
Proof.
  unfold Part000.options, options_result, load_result.
  destruct (load_spec e "server_key.pem" w) as (w1 & D1 & E1).
  rewrite (bind_eq _ _ _ _ _ E1).
  destruct (w_fs w !! path_resolve (__dirname e) "server_key.pem") as [[key|]|];
    [|by eauto|by eauto].
  destruct (load_spec e "server_cert.pem" w1) as (w2 & D2 & E2).
  rewrite (bind_eq _ _ _ _ _ E2).
  assert (w_fs w1 = w_fs w) as F1 by apply D1. rewrite F1.
  pose proof (same_disk_trans _ _ _ D1 D2) as D12.
  destruct (w_fs w !! path_resolve (__dirname e) "server_cert.pem") as [[cert|]|];
    [|by eauto|by eauto].
  destruct (load_spec e "ca_cert.pem" w2) as (w3 & D3 & E3).
  rewrite (bind_eq _ _ _ _ _ E3).
  assert (w_fs w2 = w_fs w) as F2 by (destruct D2 as [-> _]; exact F1). rewrite F2.
  pose proof (same_disk_trans _ _ _ D12 D3) as D.
  destruct (w_fs w !! path_resolve (__dirname e) "ca_cert.pem") as [[ca|]|]; by eauto.
Qed.

Lemma options_result_ok e fs o :
  options_result e fs = Ok o <->
  exists key cert ca,
    fs !! key_path e = Some (File key) /\ fs !! cert_path e = Some (File cert)
    /\ fs !! ca_path e = Some (File ca) /\ o = express_options key cert ca.
Proof.
  unfold options_result, load_result, key_path, cert_path, ca_path. split.
  - destruct (fs !! path_resolve (__dirname e) "server_key.pem") as [[key|]|]; try done.
    destruct (fs !! path_resolve (__dirname e) "server_cert.pem") as [[cert|]|]; try done.
    destruct (fs !! path_resolve (__dirname e) "ca_cert.pem") as [[ca|]|]; try done.
    intros [= <-]. by exists key, cert, ca.
  - intros (key & cert & ca & -> & -> & -> & ->). done.
Qed.

Lemma options_result_never_halts e fs c : options_result e fs <> Halt c.
Proof.
  unfold options_result, load_result.
  destruct (fs !! _) as [[?|]|]; try done.
  destruct (fs !! _) as [[?|]|]; try done.
  by destruct (fs !! _) as [[?|]|].
Qed.

Lemma main000_result e w :
  exists w1, same_disk w w1
    /\ Part000.main e w = started e 8446 (options_result e (w_fs w)) w1.
Proof.
  destruct (options000_result e w) as (w1 & D & E).
  exists w1. split; [exact D|].
  apply (guarded_start _ e _ w _ w1 E).
  - apply options_result_never_halts.
  - intros o O. apply options_result_ok in O as (key & cert & ca & _ & _ & _ & ->). eauto.
Qed.

(** X7. The plain Express variant starts exactly when its three files are
    readable and the library accepts them as key material; its listener
    then carries the very texts of the files as key, certificate and trust
    anchor and asks for port 8446. In every other case the script ends with
    exit status 1. *)
Theorem express_starts_iff e w :
  let p := boot part000 e w in
  (p_status p = Alive \/ p_status p = Exited 1)
  /\ (p_status p = Alive <->
      exists key cert ca,
        w_fs w !! key_path e = Some (File key)
        /\ w_fs w !! cert_path e = Some (File cert)
        /\ w_fs w !! ca_path e = Some (File ca)
        /\ secure_context e (express_options key cert ca) = true)
  /\ (forall sv port, p_server p = Some (sv, port) ->
      port = 8446%Z
      /\ w_fs w !! key_path e = Some (File (Tls.key (Https.sv_options sv)))
      /\ w_fs w !! cert_path e = Some (File (Tls.cert (Https.sv_options sv)))
      /\ w_fs w !! ca_path e = Some (File (Tls.ca (Https.sv_options sv)))).
Proof.
  intros p. subst p. unfold boot. simpl.
  destruct (main000_result e w) as (w1 & _ & ->). unfold started.
  destruct (options_result e (w_fs w)) as [o|err|c] eqn:O.
  - apply options_result_ok in O as (key & cert & ca & K & C & A & ->).
    destruct (secure_context e (express_options key cert ca)) eqn:S; simpl.
    + split; [by left|]. split.
      * split; [intros _; by exists key, cert, ca | done].
      * intros sv port [= <- <-]. done.
    + split; [by right|]. split; [|done].
      split; [done|]. intros (key' & cert' & ca' & K' & C' & A' & S').
      rewrite K in K'. rewrite C in C'. rewrite A in A'. simplify_eq. congruence.
  - simpl. split; [by right|]. split; [|done].
    split; [done|]. intros (key & cert & ca & K & C & A & _).
    assert (options_result e (w_fs w) = Ok (express_options key cert ca)) as O'
      by (apply options_result_ok; by exists key, cert, ca).
    congruence.
  - by destruct (options_result_never_halts e (w_fs w) c).
Qed.

(** X8. A missing key file is the first thing each variant without
    generation reports, and the only one: the Express variant prints the
    attempt, the load error and the initialization error, naming
    [server_key.pem], and exits with status 1 without looking at the other
    two files; the copy, which does not test for existence, prints the raw
    ENOENT once and ends on the uncaught exception. Neither changes the
    disk. *)
Theorem missing_key_is_reported e w :
  w_fs w !! key_path e = None ->
  let not_found := Error "Certificate file not found: server_key.pem" in
  let enoent := SystemError "ENOENT" (key_path e) in
  boot part000 e w =
    {| p_world :=
         add_console w
           [Stdout ("[DEBUG] Loading certificate from: " +:+ key_path e);
            Stderr "Error loading server_key.pem:" not_found;
            Stderr "Server initialization error:" not_found];
       p_status := Exited 1; p_server := None; p_bound := false;
       p_conns := ∅; p_sent := [] |}
  /\ boot copy e w =
    {| p_world := add_console w [Stderr "Error loading server_key.pem:" enoent];
       p_status := Exited 1; p_server := None; p_bound := false;
       p_conns := ∅; p_sent := [] |}.
Proof.
  intros K not_found enoent. split.
  - pose proof (load_exact e "server_key.pem" w) as L. cbv zeta in L.
    unfold key_path in K. rewrite K in L.
    unfold boot. simpl. unfold Part000.main, Part000.options, try_catch.
    rewrite (bind_eq _ _ _ _ _ (bind_eq _ _ _ _ _ L)). run_m.
    unfold add_console. simpl. by rewrite <- app_assoc.
  - pose proof (load_exact_copy e "server_key.pem" w) as L. cbv zeta in L.
    unfold key_path in K. rewrite K in L.
    unfold boot. simpl. unfold Copy.main, Copy.options.
    by rewrite (bind_eq _ _ _ _ _ (bind_eq _ _ _ _ _ L)).
Qed.

Lemma missing_key_is_reported_witness :
  p_status (boot part000 Sample.e_ok (Sample.disk Sample.only_ca)) = Exited 1
  /\ w_console (p_world (boot copy Sample.e_ok (Sample.disk Sample.only_ca)))
     = [Stderr "Error loading server_key.pem:"
          (SystemError "ENOENT" "/app/server_key.pem")].
Proof.
  destruct (missing_key_is_reported Sample.e_ok (Sample.disk Sample.only_ca) eq_refl)
    as [A B].
  split; [by rewrite A | by rewrite B].
Defined.

(** ** The two Express variants side by side *)

Lemma callback_result {A} sc p (m : M A) k :
  only_logs m ->
  exists a w', fst (m (p_world p)) = Ok a /\ callback sc p m k = k a (with_world p w').
Proof.
  intros L. destruct (L (p_world p)) as (a & w' & E & _).
  exists a, w'. split; [by rewrite E | by apply callback_ok].
Qed.

Lemma settle_same_to_clients p q : same_to_clients p q -> same_to_clients (settle p) (settle q).
Proof.
  intros PQ. pose proof PQ as (S & V & B & C & T).
  unfold settle. rewrite <- S, <- B, <- C.
  destruct (p_status p) eqn:SP; [|exact PQ].
  destruct (p_bound p) eqn:BP; [exact PQ|].
  case_bool_decide; [|exact PQ]. repeat split; simpl; congruence.
Qed.

Lemma dispatch_same_to_clients sc1 sc2 p q ev :
  callbacks_only_log sc1 -> callbacks_only_log sc2 ->
  (forall s rq w1 w2,
      fst (requestListener sc1 s rq w1) = fst (requestListener sc2 s rq w2)) ->
  same_to_clients p q ->
  same_to_clients (dispatch sc1 p ev) (dispatch sc2 q ev).
Proof.
  intros (Lr1 & Le1 & Lt1 & Ls1 & Ll1 & _) (Lr2 & Le2 & Lt2 & Ls2 & Ll2 & _) R
    (S & V & B & C & T).
  assert (same_to_clients p q) as PQ by by repeat split.
  unfold dispatch. rewrite <- S, <- V, <- B, <- C.
  destruct (p_status p) eqn:SP; [|exact PQ].
  destruct (p_server p) as [[sv port]|] eqn:VP; [|exact PQ].
  destruct ev as [|err|id h|id rq|id].
  - destruct (p_bound p) eqn:BP; [exact PQ|].
    destruct (callback_result sc1 (with_bound p) _ (fun _ x => x) Ll1) as (a1 & w1 & _ & ->).
    destruct (callback_result sc2 (with_bound q) _ (fun _ x => x) Ll2) as (a2 & w2 & _ & ->).
    repeat split; simpl; congruence.
  - apply settle_same_to_clients.
    destruct (callback_result sc1 p _ (fun _ x => x) (Le1 err)) as (a1 & w1 & _ & ->).
    destruct (callback_result sc2 q _ (fun _ x => x) (Le2 err)) as (a2 & w2 & _ & ->).
    repeat split; simpl; congruence.
  - destruct (p_bound p && bool_decide (p_conns p !! id = None)) eqn:G; [|exact PQ].
    destruct (Https.handshake sv h) as [s|f s].
    + assert (same_to_clients (with_conn p id (Open s)) (with_conn q id (Open s))) as PQ'
        by (repeat split; simpl; congruence).
      destruct (onSecureConnection sc1) as [h1|] eqn:H1,
               (onSecureConnection sc2) as [h2|] eqn:H2.
      * destruct (callback_result sc1 (with_conn p id (Open s)) _ (fun _ x => x)
                    (Ls1 h1 s eq_refl)) as (a1 & w1 & _ & ->).
        destruct (callback_result sc2 (with_conn q id (Open s)) _ (fun _ x => x)
                    (Ls2 h2 s eq_refl)) as (a2 & w2 & _ & ->).
        exact PQ'.
      * destruct (callback_result sc1 (with_conn p id (Open s)) _ (fun _ x => x)
                    (Ls1 h1 s eq_refl)) as (a1 & w1 & _ & ->).
        exact PQ'.
      * destruct (callback_result sc2 (with_conn q id (Open s)) _ (fun _ x => x)
                    (Ls2 h2 s eq_refl)) as (a2 & w2 & _ & ->).
        exact PQ'.
      * exact PQ'.
    + destruct (callback_result sc1 (with_conn p id Closed) _ (fun _ x => x)
                  (Lt1 (Tls.failure_error f) (Some s))) as (a1 & w1 & _ & ->).
      destruct (callback_result sc2 (with_conn q id Closed) _ (fun _ x => x)
                  (Lt2 (Tls.failure_error f) (Some s))) as (a2 & w2 & _ & ->).
      repeat split; simpl; congruence.
  - destruct (p_conns p !! id) as [[s|]|] eqn:L; try exact PQ.
    destruct (callback_result sc1 p _ (fun r x => with_sent x id r) (Lr1 s rq))
      as (a1 & w1 & E1 & ->).
    destruct (callback_result sc2 q _ (fun r x => with_sent x id r) (Lr2 s rq))
      as (a2 & w2 & E2 & ->).
    rewrite (R s rq (p_world p) (p_world q)), E2 in E1. injection E1 as ->.
    repeat split; simpl; congruence.
  - destruct (p_conns p !! id) as [[s|]|] eqn:L; try exact PQ.
    repeat split; simpl; congruence.
Qed.

Lemma express_listeners_agree s rq w1 w2 :
  fst (requestListener part001 s rq w1) = fst (requestListener part000 s rq w2).
Proof.
  exact (eq_trans (express_app_table Generating s rq w1 eq_refl)
                  (eq_sym (express_app_table Express s rq w2 eq_refl))).
Qed.

Lemma bootstrap_without_generation e w :
  is_Some (w_fs w !! key_path e) -> is_Some (w_fs w !! cert_path e) ->
  Part001.bootstrap e w = Part000.options e w.
Proof.
  intros [k K] [c C].
  assert (Part001.ensureCertificate e w = (Ok tt, w)) as E
    by (by rewrite ensure_spec, K, C).
  unfold Part001.bootstrap. by rewrite (bind_eq _ _ _ _ _ E).
Qed.

(** X9. When the key and the certificate are both there, the generating
    variant does exactly what the plain Express variant does at start-up,
    console output included, and from then on the two give every client
    the same connections and the same responses, whatever the events. *)
Theorem generating_variant_agrees_when_files_exist e w evs :
  is_Some (w_fs w !! key_path e) ->
  is_Some (w_fs w !! cert_path e) ->
  boot part001 e w = boot part000 e w
  /\ same_to_clients (run part001 (boot part001 e w) evs)
                     (run part000 (boot part000 e w) evs).
Proof.
  intros K C.
  assert (boot part001 e w = boot part000 e w) as B.
  { unfold boot. simpl.
    replace (Part001.main e w) with (Part000.main e w); [done|].
    destruct (Part000.options e w) as [r1 w1] eqn:E.
    pose proof (bootstrap_without_generation e w K C) as E'. rewrite E in E'.
    unfold Part001.main, Part000.main, try_catch.
    by rewrite (bind_eq _ _ _ _ _ E), (bind_eq _ _ _ _ _ E'). }
  split; [exact B|]. rewrite B.
  induction evs as [|ev evs IH] using rev_ind; [by repeat split|].
  rewrite !run_snoc.
  apply dispatch_same_to_clients.
  - exact (callbacks_only_log_all Generating).
  - exact (callbacks_only_log_all Express).
  - exact express_listeners_agree.
  - exact IH.
Qed.

Lemma generating_variant_agrees_when_files_exist_witness :
  p_sent (run part001 (boot part001 Sample.e_ok (Sample.disk Sample.all_three))
            [Listening; Hello 1 Sample.trusted_hello; Request 1 Sample.get_root])
  = p_sent (run part000 (boot part000 Sample.e_ok (Sample.disk Sample.all_three))
            [Listening; Hello 1 Sample.trusted_hello; Request 1 Sample.get_root]).
Proof.
  apply (generating_variant_agrees_when_files_exist Sample.e_ok
           (Sample.disk Sample.all_three)); vm_compute; eauto.
Defined.

(** ** Generation and the working directory *)

Lemma main001_result e w :
  exists w0 w1, w0 = snd (Part001.ensureCertificate e w)
    /\ same_disk w0 w1
    /\ (Part001.main e w =
          match fst (Part001.ensureCertificate e w) with
          | Ok _ => started e 8446 (options_result e (w_fs w0)) w1
          | Throw err => (Halt 1, initialization_failed w0 err)
          | Halt c => (Halt c, w0)
          end).
Proof.
  destruct (Part001.ensureCertificate e w) as [r0 w0] eqn:E0. simpl.
  destruct r0 as [[]|err|c].
  - destruct (options000_result e w0) as (w1 & D & E).
    exists w0, w1. split; [done|]. split; [exact D|].
    assert (Part001.bootstrap e w = (options_result e (w_fs w0), w1)) as B.
    { unfold Part001.bootstrap. rewrite (bind_eq _ _ _ _ _ E0). exact E. }
    apply (guarded_start _ e _ w _ w1 B).
    + apply options_result_never_halts.
    + intros o O. apply options_result_ok in O as (key & cert & ca & _ & _ & _ & ->). eauto.
  - exists w0, w0. split; [done|]. split; [apply same_disk_refl|].
    unfold Part001.main, Part001.bootstrap, try_catch.
    by rewrite (bind_eq _ _ _ _ _ (bind_eq _ _ _ _ _ E0)).
  - exists w0, w0. split; [done|]. split; [apply same_disk_refl|].
    unfold Part001.main, Part001.bootstrap, try_catch.
    by rewrite (bind_eq _ _ _ _ _ (bind_eq _ _ _ _ _ E0)).
Qed.

Lemma ensure_result e w :
  fst (Part001.ensureCertificate e w) =
    if must_generate e w then
      match openssl e with
      | Succeeds _ _ => Ok tt
      | Fails status => Throw (ExecError generation_command status)
      | Aborts _ status => Throw (ExecError generation_command status)
      end
    else Ok tt.
Proof.
  rewrite must_generate_eq, ensure_spec.
  destruct (w_fs w !! key_path e), (w_fs w !! cert_path e);
    try rewrite generate_spec; try destruct (openssl e); reflexivity.
Qed.



(** X11. Run from another directory, the generating variant cannot get past
    a missing file: the existence test and the loads look in the script's
    directory, the child writes into the working directory. When the key or
    the certificate is missing there the script ends with exit status 1,
    whatever the child does, and a child that succeeded has left its two
    files in the working directory. *)
Theorem generation_elsewhere_is_fatal e w :
  cwd e <> __dirname e ->
  must_generate e w = true ->
  let p := boot part001 e w in
  p_status p = Exited 1
  /\ p_server p = None
  /\ w_execs (p_world p) = w_execs w ++ [generation_command]
  /\ (forall key_pem cert_pem, openssl e = Succeeds key_pem cert_pem ->
        w_fs (p_world p) !! key_target e = Some (File key_pem)
        /\ w_fs (p_world p) !! cert_target e = Some (File cert_pem)
        /\ w_fs (p_world p) !! key_path e = w_fs w !! key_path e
        /\ w_fs (p_world p) !! cert_path e = w_fs w !! cert_path e).
Proof.
  intros N G p. subst p. unfold boot. simpl.
  destruct (main001_result e w) as (w0 & w1 & -> & [F X] & ->).
  rewrite ensure_result, ensure_world, G in *.
  destruct (openssl e) as [key_pem cert_pem|status|aborted status] eqn:O.
  - assert (forall o, options_result e (w_fs (generated e w key_pem cert_pem)) <> Ok o) as R.
    { intros o R. apply options_result_ok in R as (k & c & a & K & C & _). simpl in K, C.
      rewrite lookup_insert_ne in K by (apply not_eq_sym, key_path_is_not_cert_target).
      rewrite lookup_insert_ne in K by (apply not_eq_sym, key_path_is_not_key_target, N).
      rewrite lookup_insert_ne in C by (apply not_eq_sym, cert_path_is_not_cert_target, N).
      rewrite lookup_insert_ne in C by (apply not_eq_sym, cert_path_is_not_key_target).
      rewrite must_generate_eq, K, C in G. done. }
    unfold started.
    destruct (options_result e (w_fs (generated e w key_pem cert_pem))) as [o|err|c] eqn:R';
      [by destruct (R o) | | by destruct (options_result_never_halts e _ c R')].
    simpl. split; [done|]. split; [done|]. split; [by rewrite X|].
    intros k c [= <- <-]. rewrite F. simpl. split; [|split; [|split]].
    + rewrite lookup_insert_ne; [apply lookup_insert_eq|].
      unfold cert_target, key_target, path_resolve. intros E.
      apply String.app_inj in E. discriminate.
    + apply lookup_insert_eq.
    + rewrite lookup_insert_ne by (apply not_eq_sym, key_path_is_not_cert_target).
      by rewrite lookup_insert_ne by (apply not_eq_sym, key_path_is_not_key_target, N).
    + rewrite lookup_insert_ne by (apply not_eq_sym, cert_path_is_not_cert_target, N).
      by rewrite lookup_insert_ne by (apply not_eq_sym, cert_path_is_not_key_target).
  - simpl. split; [done|]. split; [done|]. split; [done|]. intros k c [=].
  - simpl. split; [done|]. split; [done|]. split; [done|]. intros k c [=].
Qed.

Lemma generation_elsewhere_is_fatal_witness :
  let e := {| __dirname := "/app"; cwd := "/home/user"; openssl := Succeeds Sample.new_key Sample.new_cert;
              tls := Sample.node_defaults; secure_context := Sample.framed |} in
  let p := boot part001 e (Sample.disk Sample.only_ca) in
  p_status p = Exited 1
  /\ w_fs (p_world p) !! "/home/user/server_key.pem" = Some (File Sample.new_key).
Proof.
  intros e p.
  destruct (generation_elsewhere_is_fatal e (Sample.disk Sample.only_ca))
    as (S & _ & _ & F); [discriminate | reflexivity |].
  destruct (F Sample.new_key Sample.new_cert eq_refl) as (K & _).
  exact (conj S K).
Defined.

(** * Properties of the diagnostics script *)

Import Diagnostics.

Lemma grow_grow st l1 r1 l2 r2 :
  grow (grow st l1 r1) l2 r2 = grow st (l1 ++ l2) (r1 ++ r2).
Proof. unfold grow. simpl. by rewrite !app_assoc. Qed.

Lemma grow_nil st : grow st [] [] = st.
Proof. destruct st. unfold grow. simpl. by rewrite !app_nil_r. Qed.


Lemma appends_ret {A} (a : A) : appends (mret a : D A).
Proof. intros st. exists a, [], []. by rewrite grow_nil. Qed.


Lemma appends_console_log t : appends (console_log t).
Proof. intros st. exists tt, [t], []. unfold console_log, grow. by rewrite app_nil_r. Qed.

Lemma appends_log msg t :
  In t ["success"; "error"; "warning"; "info"] -> appends (log msg t).
Proof.
  intros K st. eexists tt, [_], [_]. split; [reflexivity|].
  constructor; [exact K | constructor].
Qed.

Lemma appends_bind {A B} (m : D A) (f : A -> D B) :
  appends m -> (forall a, appends (f a)) -> appends (m ≫= f).
Proof.
  intros Hm Hf st. destruct (Hm st) as (a & l1 & r1 & E1 & K1).
  destruct (Hf a (grow st l1 r1)) as (b & l2 & r2 & E2 & K2).
  exists b, (l1 ++ l2), (r1 ++ r2). unfold mbind, D_bind. rewrite E1, E2, grow_grow.
  split; [done|]. by apply Forall_app.
Qed.














Lemma appends_testServerAccess e port : appends (testServerAccess e port).
Proof.
  unfold testServerAccess. apply appends_bind; [apply appends_console_log|intros _].
  destruct (request e port) as [status|msg|msg|].
  - apply appends_bind; [|intros _; apply appends_ret].
    destruct (status =? 200)%Z; apply appends_log; simpl; tauto.
  - apply appends_bind; [apply appends_log; simpl; tauto|intros _; apply appends_ret].
  - apply appends_bind; [apply appends_log; simpl; tauto|intros _; apply appends_ret].
  - apply appends_ret.
Qed.


(** ** The required files and the permissions of the key *)

Lemma bits_of_36 n : Z.testbit 36 n = (n =? 2)%Z || (n =? 5)%Z.
Proof.
  destruct (Z.ltb_spec n 0) as [Neg|Pos].
  - rewrite Z.testbit_neg_r by done.
    destruct (Z.eqb_spec n 2), (Z.eqb_spec n 5); lia || done.
  - destruct (Z.ltb_spec n 6) as [Small|Big].
    + assert (n = 0 \/ n = 1 \/ n = 2 \/ n = 3 \/ n = 4 \/ n = 5)%Z
        as [->|[->|[->|[->|[->| ->]]]]] by lia; reflexivity.
    + rewrite Z.bits_above_log2; [|lia|].
      * destruct (Z.eqb_spec n 2), (Z.eqb_spec n 5); lia || done.
      * change (Z.log2 36) with 5%Z. lia.
Qed.

Lemma too_open_iff mode :
  negb (Z.land (Z.land mode 511) 36 =? 0)%Z = readable_by_others mode.
Proof.
  rewrite <- Z.land_assoc. change (Z.land 511 36) with 36%Z.
  unfold readable_by_others.
  destruct (Z.eqb_spec (Z.land mode 36) 0) as [E|N]; simpl.
  - assert (Z.testbit (Z.land mode 36) 2 = false) as B2 by (by rewrite E).
    assert (Z.testbit (Z.land mode 36) 5 = false) as B5 by (by rewrite E).
    rewrite Z.land_spec, bits_of_36 in B2, B5. simpl in B2, B5.
    rewrite andb_true_r in B2, B5. by rewrite B2, B5.
  - destruct (Z.testbit mode 2 || Z.testbit mode 5) eqn:B; [done|].
    apply orb_false_iff in B as [B2 B5]. destruct N.
    apply Z.bits_inj'. intros n _. rewrite Z.land_spec, bits_of_36, Z.bits_0.
    destruct (Z.eqb_spec n 2) as [->|]; [by rewrite B2|].
    destruct (Z.eqb_spec n 5) as [->|]; [by rewrite B5|].
    apply andb_false_r.
Qed.

Lemma checkRequiredFile_exact e file st :
  exists lines,
    checkRequiredFile e file st = (Returned tt, grow st lines (file_report e file)).
Proof.
  destruct file as [path description].
  unfold checkRequiredFile, file_report, accessSync, statSync_mode. cbv zeta. simpl fst. simpl snd.
  unfold try_catch, mbind, D_bind, mret, D_ret, raise, log.
  destruct (files e !! path_join (__dirname e) path) as [f|]; simpl.
  - rewrite too_open_iff.
    destruct (String.eqb path "server_key.pem" && readable_by_others (mode f)); simpl;
      eexists; unfold grow; simpl; rewrite <- ?app_assoc; reflexivity.
  - eexists. unfold grow. simpl. reflexivity.
Qed.

(** X12. [checkRequiredFiles] never throws and records, for each of the three
    files in turn, one success when the path exists and one error when it
    does not. A warning is added for the key alone, and exactly when its
    mode lets the group or the others read it (bit 0o040 or bit 0o004): a
    key that is group or world writable but not readable, or the modes of
    the two certificates, draw no warning. *)
Theorem required_files_report e st :
  (exists lines,
    checkRequiredFiles e st =
      (Returned tt,
       grow st lines
         (file_report e ("server_key.pem", "Server Private Key")
          ++ file_report e ("server_cert.pem", "Server Certificate")
          ++ file_report e ("ca_cert.pem", "CA Certificate"))))
  /\ (forall file, In file requiredFiles ->
        of_type "warning" (file_report e file) <> [] <->
        fst file = "server_key.pem"
        /\ exists f, files e !! path_join (__dirname e) (fst file) = Some f
                     /\ (Z.testbit (mode f) 2 = true \/ Z.testbit (mode f) 5 = true)).
Proof.
  split.
  - unfold checkRequiredFiles, requiredFiles, forEach.
    unfold mbind at 1 2 3 4, D_bind, console_log.
    destruct (checkRequiredFile_exact e ("server_key.pem", "Server Private Key")
                {| console := console st ++ [nl +:+ "1. Checking Required Files:" +:+ nl];
                   results := results st |}) as [l1 ->].
    destruct (checkRequiredFile_exact e ("server_cert.pem", "Server Certificate")
                (grow {| console := console st ++ [nl +:+ "1. Checking Required Files:" +:+ nl];
                         results := results st |} l1
                   (file_report e ("server_key.pem", "Server Private Key")))) as [l2 ->].
    destruct (checkRequiredFile_exact e ("ca_cert.pem", "CA Certificate")
                (grow (grow {| console := console st ++ [nl +:+ "1. Checking Required Files:" +:+ nl];
                         results := results st |} l1
                   (file_report e ("server_key.pem", "Server Private Key"))) l2
                   (file_report e ("server_cert.pem", "Server Certificate")))) as [l3 ->].
    exists ([nl +:+ "1. Checking Required Files:" +:+ nl] ++ l1 ++ l2 ++ l3).
    unfold mret, D_ret, grow. simpl. by rewrite <- !app_assoc.
  - intros [path description] I. unfold file_report, of_type. simpl fst. simpl snd.
    destruct (files e !! path_join (__dirname e) path) as [f|] eqn:F.
    + unfold readable_by_others.
      destruct (String.eqb_spec path "server_key.pem") as [->|N];
        destruct (Z.testbit (mode f) 2 || Z.testbit (mode f) 5) eqn:B;
        cbn -[Z.testbit Z.land octal].
      * split; [|done]. intros _. split; [done|]. exists f. split; [done|].
        by apply orb_true_iff in B.
      * split; [done|]. intros (_ & f' & E & H). injection E as <-.
        apply orb_false_iff in B as [B2 B5]. destruct H; congruence.
      * split; [done|]. by intros [? _].
      * split; [done|]. by intros [? _].
    + simpl. split; [done|]. by intros (_ & f & ? & _).
Qed.

(** ** The patterns of the configuration check *)

Lemma app_string_nil s : EmptyString +:+ s = s.
Proof. reflexivity. Qed.

Lemma app_string_cons c s t : String c s +:+ t = String c (s +:+ t).
Proof. reflexivity. Qed.

Lemma prefix_spec lit s : String.prefix lit s = true <-> exists post, s = lit +:+ post.
Proof.
  revert s. induction lit as [|a lit IH]; intros [|b s]; simpl.
  - split; [intros _; by exists EmptyString | done].
  - split; [intros _; by exists (String b s) | done].
  - split; [done|]. intros [post E]. by rewrite app_string_cons in E.
  - destruct (Ascii.ascii_dec a b) as [->|N].
    + rewrite IH. split; intros [post E]; exists post.
      * by rewrite E.
      * rewrite app_string_cons in E. by injection E.
    + split; [done|]. intros [post E]. rewrite app_string_cons in E.
      injection E as E _. by destruct N.
Qed.

Lemma after_spec lit s rest : after lit s = Some rest <-> s = lit +:+ rest.
Proof.
  revert s. induction lit as [|a lit IH]; intros s; simpl.
  - rewrite app_string_nil. split; [by intros [= ->] | by intros ->].
  - rewrite app_string_cons. destruct s as [|b s]; [done|].
    destruct (Ascii.eqb_spec a b) as [->|N].
    + rewrite IH. split; [by intros -> | by intros [= ->]].
    + split; [done|]. intros [= E _]. by destruct N.
Qed.

Lemma search_spec here s :
  search here s = true <-> exists pre rest, s = pre +:+ rest /\ here rest = true.
Proof.
  induction s as [|c s IH]; simpl.
  - rewrite orb_false_r. split.
    + intros H. by exists EmptyString, EmptyString.
    + intros ([|? ?] & rest & E & H); [|done]. rewrite app_string_nil in E. by subst rest.
  - rewrite orb_true_iff, IH. split.
    + intros [H|(pre & rest & -> & H)].
      * by exists EmptyString, (String c s).
      * by exists (String c pre), rest.
    + intros ([|c' pre] & rest & E & H).
      * left. rewrite app_string_nil in E. by subst rest.
      * right. rewrite app_string_cons in E. injection E as -> ->. by exists pre, rest.
Qed.

Lemma space2_not_ascii c1 c2 : space2 c1 c2 = true -> ascii_space c1 = false.
Proof.
  unfold space2, ascii_space. intros H. apply andb_true_iff in H as [H _].
  apply Nat.eqb_eq in H. rewrite H. reflexivity.
Qed.

Lemma space3_not_shorter c1 c2 c3 :
  space3 c1 c2 c3 = true -> ascii_space c1 = false /\ space2 c1 c2 = false.
Proof.
  unfold space3, ascii_space, space2. cbv zeta.
  destruct (Nat.eqb_spec (Ascii.nat_of_ascii c1) 225) as [->|?]; [done|].
  destruct (Nat.eqb_spec (Ascii.nat_of_ascii c1) 226) as [->|?]; [done|].
  destruct (Nat.eqb_spec (Ascii.nat_of_ascii c1) 227) as [->|?]; [done|].
  destruct (Nat.eqb_spec (Ascii.nat_of_ascii c1) 239) as [->|?]; [done|].
  simpl. done.
Qed.

Lemma true_at_once s : String.prefix "true" s = true -> spaces_then_true s = true.
Proof. destruct s as [|c s]; [done|]. intros H. cbn [spaces_then_true]. by rewrite H. Qed.

Lemma blank_then_true ws post : blank ws -> spaces_then_true (ws +:+ "true" +:+ post) = true.
Proof.
  induction 1 as [|c rest A _ IH|c1 c2 rest A _ IH|c1 c2 c3 rest A _ IH].
  - apply true_at_once, prefix_spec. by exists post.
  - change (spaces_then_true (String c (rest +:+ "true" +:+ post)) = true).
    cbn [spaces_then_true]. rewrite A, IH. apply orb_true_r.
  - change (spaces_then_true (String c1 (String c2 (rest +:+ "true" +:+ post))) = true).
    cbn [spaces_then_true]. rewrite (space2_not_ascii c1 c2 A), A, IH. apply orb_true_r.
  - change (spaces_then_true
              (String c1 (String c2 (String c3 (rest +:+ "true" +:+ post)))) = true).
    destruct (space3_not_shorter c1 c2 c3 A) as [N1 N2].
    cbn [spaces_then_true]. rewrite N1, N2, A, IH. apply orb_true_r.
Qed.

Lemma true_after_blank_bounded n s :
  String.length s <= n ->
  spaces_then_true s = true -> exists ws post, blank ws /\ s = ws +:+ "true" +:+ post.
Proof.
  revert s. induction n as [|n IH]; intros s L H.
  - destruct s; [done | simpl in L; lia].
  - destruct s as [|c1 r1]; [done|].
    cbn [spaces_then_true] in H. apply orb_true_iff in H as [H|H].
    { apply prefix_spec in H as [post ->]. exists EmptyString, post. split; [constructor|done]. }
    simpl in L.
    destruct (ascii_space c1) eqn:A1.
    { destruct (IH r1 ltac:(lia) H) as (ws & post & B & ->).
      exists (String c1 ws), post. split; [by constructor|done]. }
    destruct r1 as [|c2 r2]; [done|]. simpl in L.
    destruct (space2 c1 c2) eqn:A2.
    { destruct (IH r2 ltac:(lia) H) as (ws & post & B & ->).
      exists (String c1 (String c2 ws)), post. split; [by constructor|done]. }
    destruct r2 as [|c3 r3]; [done|]. simpl in L.
    destruct (space3 c1 c2 c3) eqn:A3; [|done].
    destruct (IH r3 ltac:(lia) H) as (ws & post & B & ->).
    exists (String c1 (String c2 (String c3 ws))), post. split; [by constructor|done].
Qed.

Lemma spaces_then_true_spec s :
  spaces_then_true s = true <-> exists ws post, blank ws /\ s = ws +:+ "true" +:+ post.
Proof.
  split.
  - by apply (true_after_blank_bounded (String.length s)).
  - intros (ws & post & B & ->). by apply blank_then_true.
Qed.

Lemma test_setting_spec setting s :
  test_setting setting s = true <->
  exists pre ws post,
    blank ws /\ s = pre +:+ setting +:+ ":" +:+ ws +:+ "true" +:+ post.
Proof.
  unfold test_setting. rewrite search_spec. split.
  - intros (pre & rest & -> & H).
    destruct (after (setting +:+ ":") rest) as [tail|] eqn:A; [|done].
    apply after_spec in A as ->.
    apply spaces_then_true_spec in H as (ws & post & B & ->).
    exists pre, ws, post. split; [done|]. by rewrite !app_string_assoc.
  - intros (pre & ws & post & B & ->).
    exists pre, ((setting +:+ ":") +:+ ws +:+ "true" +:+ post).
    split; [by rewrite !app_string_assoc|].
    assert (after (setting +:+ ":") ((setting +:+ ":") +:+ ws +:+ "true" +:+ post)
            = Some (ws +:+ "true" +:+ post)) as -> by (by apply after_spec).
    by apply blank_then_true.
Qed.

Lemma test_literal_spec lit s :
  test_literal lit s = true <-> exists pre post, s = pre +:+ lit +:+ post.
Proof.
  unfold test_literal. rewrite search_spec. split.
  - intros (pre & rest & -> & H). apply prefix_spec in H as [post ->]. by exists pre, post.
  - intros (pre & post & ->). exists pre, (lit +:+ post). split; [done|].
    apply prefix_spec. by exists post.
Qed.

(** ** The configuration check *)

Lemma forEach_exact {A} (f : A -> D unit) (g : A -> list entry) l :
  (forall x st, exists lines, f x st = (Returned tt, grow st lines (g x))) ->
  forall st, exists lines, forEach f l st = (Returned tt, grow st lines (concat (map g l))).
Proof.
  intros H. induction l as [|x l IH]; intros st; simpl.
  - exists []. by rewrite grow_nil.
  - destruct (H x st) as [l1 E1]. destruct (IH (grow st l1 (g x))) as [l2 E2].
    exists (l1 ++ l2). unfold mbind, D_bind. by rewrite E1, E2, grow_grow.
Qed.

Lemma runCheck_exact s check st :
  exists lines,
    runCheck s check st =
      (Returned tt,
       grow st lines
         [if fst check s then passed (snd check)
          else failed ("Missing configuration: " +:+ snd check)]).
Proof. unfold runCheck. destruct (fst check s); eexists [_]; reflexivity. Qed.

Lemma check_entry_of_bool (b : bool) (P : Prop) msg :
  (b = true <-> P) ->
  check_entry P msg (if b then passed msg else failed ("Missing configuration: " +:+ msg)).
Proof.
  intros H. destruct b; [left|right]; (split; [|done]).
  - by apply H.
  - intros p. by apply H in p.
Qed.

(** X13. [checkServerConfiguration] never throws. When [server.js] can be
    read it records four entries, one per check and in the order of the
    checks; a check passes when the text has the setting followed by a
    colon, any white space and [true] (for [requestCert] and
    [rejectUnauthorized]) or has the literal text ([express.json],
    [/api/protected]) somewhere, comments included, and is recorded as an
    error otherwise. When the file cannot be read there is one error entry
    and no check is made. *)
Theorem configuration_report e st :
  (forall s, readable e "server.js" s ->
     exists lines r1 r2 r3 r4,
       checkServerConfiguration e st = (Returned tt, grow st lines [r1; r2; r3; r4])
       /\ check_entry (set_to_true "requestCert" s) "Client certificate request enabled" r1
       /\ check_entry (set_to_true "rejectUnauthorized" s) "Unauthorized clients rejected" r2
       /\ check_entry (occurs "express.json" s) "JSON body parser configured" r3
       /\ check_entry (occurs "/api/protected" s) "Protected endpoint defined" r4)
  /\ ((forall s, ~ readable e "server.js" s) ->
      exists lines msg,
        checkServerConfiguration e st =
          (Returned tt,
           grow st lines [failed ("Server configuration check error: " +:+ msg)])).
Proof.
  split.
  - intros s (f & F & T).
    unfold checkServerConfiguration, try_catch, readFileSync.
    unfold mbind at 1 2, D_bind, console_log. rewrite F, T. unfold mret, D_ret.
    destruct (forEach_exact (runCheck s)
                (fun check => [if fst check s then passed (snd check)
                               else failed ("Missing configuration: " +:+ snd check)])
                checks (runCheck_exact s)
                {| console := console st ++ [nl +:+ "3. Checking Server Configuration:" +:+ nl];
                   results := results st |}) as [lines E].
    rewrite E. eexists (_ :: lines), _, _, _, _. split.
    { unfold grow. cbn -[test_setting test_literal]. rewrite <- app_assoc. reflexivity. }
    split; [apply check_entry_of_bool, test_setting_spec|].
    split; [apply check_entry_of_bool, test_setting_spec|].
    split; apply check_entry_of_bool, test_literal_spec.
  - intros N.
    unfold checkServerConfiguration, try_catch, readFileSync.
    unfold mbind at 1 2, D_bind, console_log.
    destruct (files e !! path_join (__dirname e) "server.js") as [f|] eqn:F.
    + destruct (text f) as [s|] eqn:T.
      { destruct (N s). by exists f. }
      eexists [_; _], _. unfold raise, log, grow, failed. cbn. rewrite <- app_assoc. reflexivity.
    + eexists [_; _], _. unfold raise, log, grow, failed. cbn. rewrite <- app_assoc. reflexivity.
Qed.

Lemma configuration_report_witness :
  exists lines msg,
    checkServerConfiguration Checkup.bare fresh =
      (Returned tt, grow fresh lines [failed ("Server configuration check error: " +:+ msg)]).
Proof.
  apply (configuration_report Checkup.bare fresh).
  intros s (f & F & _). vm_compute in F. discriminate.
Defined.

(** ** The validation of the certificates *)

Lemma basicConstraints_spec cert : basicConstraints_cA cert = true <-> marked_as_ca cert.
Proof.
  unfold basicConstraints_cA, marked_as_ca. destruct cert as [cn exts nb na]. simpl.
  induction exts as [|x l IH]; simpl.
  - split; [done|]. intros (before & ext & rest & E & _). by destruct before.
  - destruct (String.eqb_spec (name x) "basicConstraints") as [N|N].
    + split.
      * intros C. exists [], x, l. by repeat split.
      * intros ([|y before] & ext & rest & E & F & _ & C).
        -- by injection E as ->.
        -- injection E as -> _. by apply Forall_cons in F as [? _].
    + rewrite IH. split.
      * intros (before & ext & rest & -> & F & K & C).
        exists (x :: before), ext, rest. repeat split; [by constructor|done|done].
      * intros ([|y before] & ext & rest & E & F & K & C).
        -- injection E as -> _. done.
        -- injection E as -> ->. apply Forall_cons in F as [_ F].
           by exists before, ext, rest.
Qed.

Ltac run_validation :=
  unfold validateCertificates, try_catch, readFileSync, parse, subject_CN_value;
  unfold mbind, D_bind, console_log, log, raise, mret, D_ret.

Ltac close_validation :=
  unfold grow, passed, failed, noted; cbn; rewrite <- ?app_assoc; reflexivity.

(** X14. When one of the two certificates cannot be loaded (the CA's or the
    server's file is absent or unreadable, or its text is no certificate)
    [validateCertificates] records exactly one entry, an error, whatever
    the state of the other file: nothing is reported about a certificate
    that did load. The method returns all the same. *)
Theorem certificate_fault_is_one_error e st
    (fault : forall ca sv,
        ~ (holds_certificate e "ca_cert.pem" ca /\ holds_certificate e "server_cert.pem" sv)) :
  exists lines msg,
    validateCertificates e st =
      (Returned tt, grow st lines [failed ("Certificate validation error: " +:+ msg)]).
Proof.
  run_validation.
  destruct (files e !! path_join (__dirname e) "ca_cert.pem") as [f1|] eqn:F1;
    [destruct (text f1) as [t1|] eqn:T1|]; try (eexists [_; _], _; close_validation).
  destruct (files e !! path_join (__dirname e) "server_cert.pem") as [f2|] eqn:F2;
    [destruct (text f2) as [t2|] eqn:T2|]; try (eexists [_; _], _; close_validation).
  destruct (certificateFromPem e t1) as [ca|m1] eqn:P1;
    try (eexists [_; _], _; close_validation).
  destruct (certificateFromPem e t2) as [sv|m2] eqn:P2;
    try (eexists [_; _], _; close_validation).
  destruct (fault ca sv). split; [exists t1|exists t2]; (split; [|done]); eexists; eauto.
Qed.

Lemma certificate_fault_is_one_error_witness :
  exists lines msg,
    validateCertificates Checkup.bare fresh =
      (Returned tt, grow fresh lines [failed ("Certificate validation error: " +:+ msg)]).
Proof.
  apply (certificate_fault_is_one_error Checkup.bare fresh).
  intros ca sv [(pem & (f & F & _) & _) _]. vm_compute in F. discriminate.
Defined.

Lemma holds_certificate_run e name cert :
  holds_certificate e name cert ->
  exists f t, files e !! path_join (__dirname e) name = Some f
              /\ text f = Some t /\ certificateFromPem e t = inl cert.
Proof. intros (pem & (f & F & T) & P). by exists f, pem. Qed.

(** X15. When both certificates load and both subjects have a CN,
    [validateCertificates] records seven entries in a fixed order. The
    third is a success exactly when the first extension of the CA
    certificate called [basicConstraints] has [cA] set; the sixth follows
    the signature check, an exception of which is recorded and does not
    stop the method; the last is a success exactly when the clock is
    strictly between [notBefore] and [notAfter] of the server certificate,
    so that a certificate is reported as not valid at either bound. The
    validity of the CA certificate is never looked at. *)
Theorem complete_validation e st ca sv cn sn
    (CA : holds_certificate e "ca_cert.pem" ca)
    (SV : holds_certificate e "server_cert.pem" sv)
    (CN : subject_CN ca = Some cn)
    (SN : subject_CN sv = Some sn) :
  exists lines constraints validity,
    validateCertificates e st =
      (Returned tt,
       grow st lines
         [passed "CA Certificate loaded successfully";
          noted ("CA Certificate Subject: " +:+ cn);
          constraints;
          passed "Server Certificate loaded successfully";
          noted ("Server Certificate Subject: " +:+ sn);
          signature_entry (verify e sv ca);
          validity])
    /\ (marked_as_ca ca /\ constraints = passed "CA Certificate has correct basicConstraints"
        \/ ~ marked_as_ca ca
           /\ constraints = failed "CA Certificate missing proper basicConstraints")
    /\ ((notBefore sv < now e < notAfter sv)%Z
        /\ validity = passed "Server Certificate is within validity period"
        \/ ~ (notBefore sv < now e < notAfter sv)%Z
           /\ validity = failed "Server Certificate is not valid at current date").
Proof.
  destruct (holds_certificate_run _ _ _ CA) as (f1 & t1 & F1 & T1 & P1).
  destruct (holds_certificate_run _ _ _ SV) as (f2 & t2 & F2 & T2 & P2).
  run_validation. rewrite F1, T1, F2, T2, P1, P2, CN, SN.
  pose proof (basicConstraints_spec ca) as B.
  assert (((notBefore sv <? now e) && (now e <? notAfter sv))%Z = true
          <-> (notBefore sv < now e < notAfter sv)%Z) as V.
  { rewrite andb_true_iff, !Z.ltb_lt. done. }
  destruct (basicConstraints_cA ca), (verify e sv ca) as [| |m],
    ((notBefore sv <? now e) && (now e <? notAfter sv))%Z;
    eexists [_; _; _; _; _; _; _; _], _, _;
    (split; [close_validation|]);
    (split; [first [left; split; [by apply B|reflexivity]
                   |right; split; [intros K; by apply B in K|reflexivity]]
            |first [left; split; [by apply V|reflexivity]
                   |right; split; [intros K; by apply V in K|reflexivity]]]).
Qed.

Lemma complete_validation_witness :
  exists lines constraints validity,
    validateCertificates Checkup.healthy fresh =
      (Returned tt,
       grow fresh lines
         [passed "CA Certificate loaded successfully";
          noted ("CA Certificate Subject: " +:+ "Mock CA");
          constraints;
          passed "Server Certificate loaded successfully";
          noted ("Server Certificate Subject: " +:+ "localhost");
          signature_entry (verify Checkup.healthy Checkup.leaf Checkup.authority);
          validity])
    /\ (marked_as_ca Checkup.authority
        /\ constraints = passed "CA Certificate has correct basicConstraints"
        \/ ~ marked_as_ca Checkup.authority
           /\ constraints = failed "CA Certificate missing proper basicConstraints")
    /\ ((notBefore Checkup.leaf < now Checkup.healthy < notAfter Checkup.leaf)%Z
        /\ validity = passed "Server Certificate is within validity period"
        \/ ~ (notBefore Checkup.leaf < now Checkup.healthy < notAfter Checkup.leaf)%Z
           /\ validity = failed "Server Certificate is not valid at current date").
Proof.
  apply (complete_validation Checkup.healthy fresh Checkup.authority Checkup.leaf).
  - exists "CA PEM". split; [|reflexivity].
    exists (Checkup.plain 33188 "CA PEM"). split; [vm_compute|]; reflexivity.
  - exists "SERVER PEM". split; [|reflexivity].
    exists (Checkup.plain 33188 "SERVER PEM"). split; [vm_compute|]; reflexivity.
  - reflexivity.
  - reflexivity.
Defined.

(** X16. A certificate whose subject has no CN ends the validation with an
    error, after the entries that say that it was loaded successfully: for
    the CA certificate nothing else is recorded, and for the server
    certificate the signature and the validity period are never checked. *)
Theorem missing_common_name_ends_validation e st ca sv
    (CA : holds_certificate e "ca_cert.pem" ca)
    (SV : holds_certificate e "server_cert.pem" sv) :
  (subject_CN ca = None ->
   exists lines,
     validateCertificates e st =
       (Returned tt,
        grow st lines
          [passed "CA Certificate loaded successfully";
           failed ("Certificate validation error: " +:+ null_member_message e)]))
  /\ (forall cn, subject_CN ca = Some cn -> subject_CN sv = None ->
      exists lines constraints,
        validateCertificates e st =
          (Returned tt,
           grow st lines
             [passed "CA Certificate loaded successfully";
              noted ("CA Certificate Subject: " +:+ cn);
              constraints;
              passed "Server Certificate loaded successfully";
              failed ("Certificate validation error: " +:+ null_member_message e)])).
Proof.
  destruct (holds_certificate_run _ _ _ CA) as (f1 & t1 & F1 & T1 & P1).
  destruct (holds_certificate_run _ _ _ SV) as (f2 & t2 & F2 & T2 & P2).
  split.
  - intros CN. run_validation. rewrite F1, T1, F2, T2, P1, P2, CN.
    eexists [_; _; _]. close_validation.
  - intros cn CN SN. run_validation. rewrite F1, T1, F2, T2, P1, P2, CN, SN.
    destruct (basicConstraints_cA ca); eexists [_; _; _; _; _; _], _; close_validation.
Qed.

Lemma missing_common_name_ends_validation_witness :
  exists lines,
    validateCertificates Checkup.unnamed_authority fresh =
      (Returned tt,
       grow fresh lines
         [passed "CA Certificate loaded successfully";
          failed ("Certificate validation error: "
                  +:+ null_member_message Checkup.unnamed_authority)]).
Proof.
  refine (proj1 (missing_common_name_ends_validation Checkup.unnamed_authority fresh
                   Checkup.nameless Checkup.leaf _ _) _).
  - exists "NAMELESS PEM". split; [|reflexivity].
    exists (Checkup.plain 33188 "NAMELESS PEM"). split; [vm_compute|]; reflexivity.
  - exists "SERVER PEM". split; [|reflexivity].
    exists (Checkup.plain 33188 "SERVER PEM"). split; [vm_compute|]; reflexivity.
  - reflexivity.
Defined.

(** ** The summary and the whole run *)

Lemma emits_ret : emits (mret tt) [].
Proof. intros st. by rewrite grow_nil. Qed.

Lemma emits_console_log t : emits (console_log t) [t].
Proof. intros st. unfold console_log, grow. by rewrite app_nil_r. Qed.

Lemma emits_bind (m k : D unit) l1 l2 :
  emits m l1 -> emits k l2 -> emits (m ≫= fun _ => k) (l1 ++ l2).
Proof.
  intros Hm Hk st. unfold mbind, D_bind. rewrite Hm, Hk, grow_grow. done.
Qed.

Lemma emits_forEach {A} (g : A -> string) l :
  emits (forEach (fun r => console_log (g r)) l) (map g l).
Proof.
  induction l as [|x l IH]; simpl.
  - apply emits_ret.
  - apply (emits_bind _ _ [g x]); [apply emits_console_log|exact IH].
Qed.

Lemma emits_part (b : bool) title (g : entry -> string) l :
  emits (if b then console_log title;; forEach (fun r => console_log (g r)) l else mret tt)
        (if b then title :: map g l else []).
Proof.
  destruct b; [|apply emits_ret].
  apply (emits_bind _ _ [title]); [apply emits_console_log|apply emits_forEach].
Qed.

Lemma of_type_filter t rs : of_type t rs = filter (fun r => type r = t) rs.
Proof.
  unfold of_type. induction rs as [|r rs IH]; [done|]. simpl.
  destruct (String.eqb_spec (type r) t) as [E|N].
  - rewrite filter_cons_True by done. by rewrite IH.
  - by rewrite filter_cons_False.
Qed.

Lemma types_partition rs :
  Forall known rs ->
  length (filter (fun r => type r = "success") rs)
  + length (filter (fun r => type r = "error") rs)
  + length (filter (fun r => type r = "warning") rs)
  + length (filter (fun r => type r = "info") rs)
  = length rs.
Proof.
  induction 1 as [|r rs K _ IH]; [done|].
  destruct K as [K|[K|[K|[K|[]]]]]; rewrite !filter_cons; rewrite <- K;
    repeat case_decide; try done; simpl; lia.
Qed.

Lemma printSummary_lines st :
  printSummary st =
    (Returned tt,
     grow st
       ([nl +:+ "=== Diagnostic Summary ===" +:+ nl;
         "Passed: " +:+ pretty (length (of_type "success" (results st)));
         "Failed: " +:+ pretty (length (of_type "error" (results st)));
         "Warnings: " +:+ pretty (length (of_type "warning" (results st)))]
        ++ (if Nat.ltb 0 (length (of_type "error" (results st)))
            then (nl +:+ "Required Actions:")
                 :: map (fun r => "- " +:+ message r) (of_type "error" (results st))
            else [])
        ++ (if Nat.ltb 0 (length (of_type "warning" (results st)))
            then (nl +:+ "Recommendations:")
                 :: map (fun r => "- " +:+ message r) (of_type "warning" (results st))
            else []))
       []).
Proof.
  unfold printSummary. cbv zeta.
  apply (emits_bind _ _ [_]); [apply emits_console_log|].
  apply (emits_bind _ _ [_]); [apply emits_console_log|].
  apply (emits_bind _ _ [_]); [apply emits_console_log|].
  apply (emits_bind _ _ [_]); [apply emits_console_log|].
  apply emits_bind; apply emits_part.
Qed.

(** X17. [printSummary] leaves the results as they are and prints, after
    its heading, the number of successes, of errors and of warnings, then
    the title [Required Actions:] followed by the message of every error
    and of nothing else, in the order of the results, then the title
    [Recommendations:] followed in the same way by the warnings. A title
    is printed only when its list is not empty. The entries of type
    [info] are the only ones that are neither counted nor listed: with
    them the three counts add up to the number of results. *)
Theorem summary_report st :
  let errors := filter (fun r => type r = "error") (results st) in
  let warnings := filter (fun r => type r = "warning") (results st) in
  let successes := filter (fun r => type r = "success") (results st) in
  let notes := filter (fun r => type r = "info") (results st) in
  let under := fun (title : string) (entries : list entry) =>
    match entries with
    | [] => []
    | _ :: _ => (nl +:+ title) :: map (fun r => "- " +:+ message r) entries
    end in
  printSummary st =
    (Returned tt,
     grow st
       ([nl +:+ "=== Diagnostic Summary ===" +:+ nl;
         "Passed: " +:+ pretty (length successes);
         "Failed: " +:+ pretty (length errors);
         "Warnings: " +:+ pretty (length warnings)]
        ++ under "Required Actions:" errors
        ++ under "Recommendations:" warnings)
       [])
  /\ (Forall known (results st) ->
      length successes + length errors + length warnings + length notes
      = length (results st)).
Proof.
  intros errors warnings successes notes under. split; [|apply types_partition].
  rewrite printSummary_lines, !of_type_filter.
  fold errors warnings successes.
  by destruct errors, warnings.
Qed.


